(** * Yolact export and sparsification glue: a shallow embedding

    The development follows the three source files of the repository:

    - [export.py]: the typed argument structure [ExportArgs] (checkpoint
      validation, creation of the save directory, computation of a
      non-colliding output name), the command-line table of [parse_args]
      and the [export] routine;
    - [utils/sparse.py]: [SparseMLWrapper], conditional delegations to a
      scheduling manager;
    - [utils/wrapper.py]: [DeepsparseWrapper.__call__].

    Calls into external libraries (torch, sparseml, deepsparse, logging,
    wandb) are events of a small free monad; their answers are supplied by
    an arbitrary environment.  The file system is a finite map from paths
    to node kinds. *)

From Stdlib Require Import String Ascii List ZArith QArith Qround Lia.
From stdpp Require Import base decidable option list gmap strings pretty.

Open Scope string_scope.
Open Scope Z_scope.
Open Scope nat_scope.

(** ** Exceptions and outcomes *)

(** The Python exception classes that can surface in the modelled code. *)
Inductive exn : Type :=
| FileNotFoundError
| FileExistsError
| NotADirectoryError
| ValueError
| TypeError
| AttributeError
| IndexError
| SystemExit (code : Z).

(** Where an exception comes from: a [raise] statement of the repository's
    own code, or the interpreter or a library the code calls. *)
Inductive origin : Type := ByScript | ByLibrary.

(** Result of running a piece of code: a value, an exception, or the
    exhaustion of the iteration budget given to a loop. *)
Inductive outcome (A : Type) : Type :=
| Ok (a : A)
| Raised (o : origin) (e : exn)
| OutOfFuel.
Arguments Ok {A} a.
Arguments Raised {A} o e.
Arguments OutOfFuel {A}.

Definition is_ok {A} (x : outcome A) : bool :=
  match x with Ok _ => true | _ => false end.

(** The code ended normally with a result satisfying [P], or with an
    exception of a library. *)
Definition library_error {A} (P : A -> Prop) (x : outcome A) : Prop :=
  match x with
  | Ok a => P a
  | Raised ByLibrary _ => True
  | _ => False
  end.

Definition obind {A B} (x : outcome A) (f : A -> outcome B) : outcome B :=
  match x with
  | Ok a => f a
  | Raised o e => Raised o e
  | OutOfFuel => OutOfFuel
  end.

(** ** Python strings *)

Module PyStr.

(** [s.rfind(c)]: index of the last occurrence of [c], [None] for -1. *)
Fixpoint rfind (c : ascii) (s : string) : option nat :=
  match s with
  | EmptyString => None
  | String a s' =>
      match rfind c s' with
      | Some j => Some (S j)
      | None => if Ascii.eqb a c then Some 0 else None
      end
  end.

(** [c in s] *)
Fixpoint contains (c : ascii) (s : string) : bool :=
  match s with
  | EmptyString => false
  | String a s' => Ascii.eqb a c || contains c s'
  end.

(** [s.split(c)] *)
Fixpoint split (c : ascii) (s : string) : list string :=
  match s with
  | EmptyString => [EmptyString]
  | String a s' =>
      if Ascii.eqb a c then EmptyString :: split c s'
      else match split c s' with
           | [] => [String a EmptyString]
           | w :: ws => String a w :: ws
           end
  end.

(** [s.lstrip(c)] *)
Fixpoint lstrip (c : ascii) (s : string) : string :=
  match s with
  | EmptyString => EmptyString
  | String a s' => if Ascii.eqb a c then lstrip c s' else s
  end.

(** [s[:i]] and [s[i:]] for [0 <= i] *)
Fixpoint take (i : nat) (s : string) : string :=
  match i, s with
  | S i', String a s' => String a (take i' s')
  | _, _ => EmptyString
  end.
Fixpoint drop (i : nat) (s : string) : string :=
  match i, s with
  | S i', String a s' => drop i' s'
  | _, _ => s
  end.

(** [bool(s)] *)
Definition truthy (s : string) : bool :=
  match s with EmptyString => false | _ => true end.

(** [s.endswith(t)] *)
Definition endswith (t s : string) : bool :=
  String.eqb (drop (String.length s - String.length t) s) t.

End PyStr.

(** ** pathlib (POSIX flavour) *)

(** A parsed pure path: the root ([""], ["/"] or ["//"]) and the list of
    components after it, as [PurePosixPath] keeps them. *)
Record Path : Type := MkPath { root : string; parts : list string }.

Global Instance Path_eq_dec : EqDecision Path.
Proof. solve_decision. Defined.

Global Instance Path_countable : Countable Path :=
  inj_countable' (fun p => (root p, parts p))
                 (fun rp => MkPath (fst rp) (snd rp))
                 (fun p => match p with MkPath _ _ => eq_refl end).

Module Pathlib.

Definition sep : ascii := "/"%char.
Definition dot : ascii := "."%char.

(** [_PosixFlavour.splitroot] *)
Definition splitroot (part : string) : string * string :=
  match part with
  | String a _ =>
      if Ascii.eqb a sep then
        let stripped := PyStr.lstrip sep part in
        if Nat.eqb (String.length part - String.length stripped) 2
        then ("//", stripped) else ("/", stripped)
      else ("", part)
  | EmptyString => ("", part)
  end.

(** the components kept by [parse_parts]: non-empty and different from
    ["."] *)
Definition keep (x : string) : bool :=
  PyStr.truthy x && negb (String.eqb x ".").

(** [Path(s)] *)
Definition of_str (s : string) : Path :=
  let '(r, rel) := splitroot s in
  MkPath r (List.filter keep (PyStr.split sep rel)).

(** [p / s] for a string [s] *)
Definition truediv (p : Path) (s : string) : Path :=
  let q := of_str s in
  if PyStr.truthy (root q) then q
  else MkPath (root p) (parts p ++ parts q).

(** [p.name] *)
Definition name (p : Path) : string := List.last (parts p) "".

(** [p.parent] *)
Definition parent (p : Path) : Path :=
  MkPath (root p) (List.removelast (parts p)).

(** position of the dot that starts the suffix of a file name, if any:
    [i = name.rfind('.')] with [0 < i < len(name) - 1] *)
Definition suffix_pos (nm : string) : option nat :=
  match PyStr.rfind dot nm with
  | Some i =>
      if Nat.ltb 0 i && Nat.ltb i (String.length nm - 1) then Some i
      else None
  | None => None
  end.

(** [p.suffix] *)
Definition suffix (p : Path) : string :=
  match suffix_pos (name p) with
  | Some i => PyStr.drop i (name p)
  | None => ""
  end.

(** [p.stem] *)
Definition stem (p : Path) : string :=
  match suffix_pos (name p) with
  | Some i => PyStr.take i (name p)
  | None => name p
  end.

(** [p.with_suffix(sfx)] for a valid suffix [sfx] (here always
    [".onnx"]); a path with an empty name raises [ValueError]. *)
Definition with_suffix (p : Path) (sfx : string) : outcome Path :=
  let nm := name p in
  if negb (PyStr.truthy nm) then Raised ByLibrary ValueError
  else
    let old := suffix p in
    let nm' :=
      if negb (PyStr.truthy old) then nm ++ sfx
      else PyStr.take (String.length nm - String.length old) nm ++ sfx in
    Ok (MkPath (root p) (List.removelast (parts p) ++ [nm'])).

(** a component as the parser keeps them: it holds no separator and is
    neither empty nor ["."] *)
Definition component (x : string) : Prop :=
  PyStr.contains sep x = false /\ x <> "" /\ x <> ".".

(** [q] is [p] or one of [p.parents] *)
Definition above (q p : Path) : Prop :=
  root q = root p /\ parts q `prefix_of` parts p.

(** [str(p)] *)
Definition to_str (p : Path) : string :=
  match parts p with
  | [] => if PyStr.truthy (root p) then root p else "."
  | _ => root p ++ String.concat "/" (parts p)
  end.

End Pathlib.

(** ** The file system *)

Inductive kind : Type := File | Dir.

Global Instance kind_eq_dec : EqDecision kind.
Proof. solve_decision. Defined.

Module FS.

(** What is found at a path.  The root and the current directory (paths
    with no component) are always directories; every other path is looked
    up in the finite map.  Paths are compared as parsed: no symbolic
    links, and [".."] is an ordinary component. *)
Definition node (fs : gmap Path kind) (p : Path) : option kind :=
  match parts p with
  | [] => Some Dir
  | _ => fs !! p
  end.

(** [p.exists()] *)
Definition exists_ (fs : gmap Path kind) (p : Path) : bool :=
  match node fs p with Some _ => true | None => false end.

(** [p.is_dir()] *)
Definition is_dir (fs : gmap Path kind) (p : Path) : bool :=
  match node fs p with Some Dir => true | _ => false end.

(** [os.mkdir(p)] *)
Definition os_mkdir (fs : gmap Path kind) (p : Path)
  : exn + gmap Path kind :=
  match node fs p with
  | Some _ => inl FileExistsError
  | None =>
      match node fs (Pathlib.parent p) with
      | None => inl FileNotFoundError
      | Some File => inl NotADirectoryError
      | Some Dir => inr (<[p := Dir]> fs)
      end
  end.

(** [p.mkdir(parents=False, exist_ok=True)] *)
Definition mkdir_exist_ok (fs : gmap Path kind) (p : Path)
  : outcome (gmap Path kind) :=
  match os_mkdir fs p with
  | inr fs' => Ok fs'
  | inl FileNotFoundError => Raised ByLibrary FileNotFoundError
  | inl e => if is_dir fs p then Ok fs else Raised ByLibrary e
  end.

(** [p.mkdir(parents=True, exist_ok=True)]; [n] bounds the depth of the
    recursion on the parent. *)
Fixpoint mkdir_parents (n : nat) (fs : gmap Path kind) (p : Path)
  : outcome (gmap Path kind) :=
  match os_mkdir fs p with
  | inr fs' => Ok fs'
  | inl FileNotFoundError =>
      if decide (Pathlib.parent p = p)
      then Raised ByLibrary FileNotFoundError
      else
        match n with
        | O => OutOfFuel
        | S n' =>
            obind (mkdir_parents n' fs (Pathlib.parent p))
                  (fun fs1 => mkdir_exist_ok fs1 p)
        end
  | inl e => if is_dir fs p then Ok fs else Raised ByLibrary e
  end.

Definition mkdir (fs : gmap Path kind) (p : Path)
  : outcome (gmap Path kind) :=
  mkdir_parents (length (parts p)) fs p.

(** [fs'] is [fs] with directories added on the way to [p]: what
    existed is kept, and what is new is a directory that is [p] or a
    parent of [p] *)
Definition extends (fs fs' : gmap Path kind) (p : Path) : Prop :=
  (forall (q : Path) (k : kind), node fs q = Some k -> node fs' q = Some k) /\
  (forall (q : Path), node fs q = None -> node fs' q <> None ->
                      node fs' q = Some Dir /\ Pathlib.above q p).

(** a file system shaped as a tree: whatever exists lies in a
    directory *)
Definition tree (fs : gmap Path kind) : Prop :=
  forall (p : Path), is_Some (node fs p) -> is_dir fs (Pathlib.parent p) = true.

End FS.

(** ** export.py: [ExportArgs] *)

(** The keyword arguments [ExportArgs] is constructed from, with the types
    [parse_args] gives them. *)
Record Namespace : Type := MkNamespace {
  ns_checkpoint : string;
  ns_config : string;
  ns_recipe : option string;
  ns_no_qat : bool;
  ns_batch_size : Z;
  ns_image_shape : list Z;
  ns_save_dir : string;
  ns_name : option string
}.

(** The fields after [__post_init__]. *)
Record ExportArgs : Type := MkExportArgs {
  checkpoint : Path;
  config : string;
  recipe : option string;
  no_qat : bool;
  batch_size : Z;
  image_shape : list Z;
  save_dir : Path;
  name : Path
}.

Module ExportPy.

(** [if self.name:] on [None] or a string *)
Definition name_given (nm : option string) : bool :=
  match nm with Some s => PyStr.truthy s | None => false end.

(** lines 116-121: the stem the output name is built from *)
Definition filename_of (ckpt : Path) (nm : option string) : outcome string :=
  obind
    (match nm with
     | Some s =>
         if PyStr.truthy s then Ok (Pathlib.of_str s)
         else obind (Pathlib.with_suffix ckpt ".onnx")
                    (fun q => Ok (Pathlib.of_str (Pathlib.name q)))
     | None =>
         obind (Pathlib.with_suffix ckpt ".onnx")
               (fun q => Ok (Pathlib.of_str (Pathlib.name q)))
     end)
    (fun p => Ok (Pathlib.stem p)).

(** the file name tried when [existence_counter] is [k]; [k = 0] is the
    name before the loop *)
Definition candidate (filename : string) (k : N) : string :=
  match k with
  | N0 => filename ++ ".onnx"
  | _ => filename ++ "-" ++ pretty k ++ ".onnx"
  end.

(** lines 124-126: the [while] loop, with [fuel] iterations allowed *)
Fixpoint safe_loop (fuel : nat) (fs : gmap Path kind) (filename : string)
         (nm : Path) (existence_counter : N) : outcome Path :=
  if FS.exists_ fs nm then
    match fuel with
    | O => OutOfFuel
    | S fuel' =>
        let existence_counter := (existence_counter + 1)%N in
        safe_loop fuel' fs filename
          (Pathlib.truediv (Pathlib.parent nm)
             (filename ++ "-" ++ pretty existence_counter ++ ".onnx"))
          existence_counter
    end
  else Ok nm.

(** [save_dir / candidate] *)
Definition candidate_path (sdir : Path) (filename : string) (k : N) : Path :=
  MkPath (root sdir) (parts sdir ++ [candidate filename k]).

Definition get_safe_name_fuel (fuel : nat) (fs : gmap Path kind)
           (ckpt sdir : Path) (nm : option string) : outcome Path :=
  obind (filename_of ckpt nm) (fun filename =>
    safe_loop fuel fs filename
      (Pathlib.truediv sdir (filename ++ ".onnx")) 0%N).

(** [ExportArgs.get_safe_name]; a finite file system cannot hold more
    than [size fs] of the candidate names. *)
Definition get_safe_name (fs : gmap Path kind) (ckpt sdir : Path)
           (nm : option string) : outcome Path :=
  get_safe_name_fuel (S (size fs)) fs ckpt sdir nm.

(** [ExportArgs.__post_init__]: the file system after the call and the
    constructed arguments *)
Definition post_init (fs : gmap Path kind) (ns : Namespace)
  : outcome (gmap Path kind * ExportArgs) :=
  let ckpt := Pathlib.of_str (ns_checkpoint ns) in
  if negb (FS.exists_ fs ckpt) then Raised ByScript FileNotFoundError
  else
    let shape := ns_image_shape ns in
    let sdir := Pathlib.of_str (ns_save_dir ns) in
    obind (FS.mkdir fs sdir) (fun fs' =>
    obind (get_safe_name fs' ckpt sdir (ns_name ns)) (fun nm =>
      Ok (fs', MkExportArgs ckpt (ns_config ns) (ns_recipe ns)
                 (ns_no_qat ns) (ns_batch_size ns) shape sdir nm))).

End ExportPy.


(** ** External calls *)

(** Opaque objects of the external libraries (tensors, arrays, engines,
    optimizers, loggers, ...), known by an identifier only. *)
Inductive PyObj : Type := Obj (id : string).

(** Programs that call into external libraries: a result, an exception,
    or a call [ev] whose answer the rest of the program depends on. *)
Inductive prog (E : Type -> Type) (R : Type) : Type :=
| Ret (r : R)
| Throw (o : origin) (e : exn)
| Vis (X : Type) (ev : E X) (k : X -> prog E R).
Arguments Ret {E R} r.
Arguments Throw {E R} o e.
Arguments Vis {E R X} ev k.

Fixpoint bind {E : Type -> Type} {R T : Type}
         (p : prog E R) (f : R -> prog E T) : prog E T :=
  match p with
  | Ret r => f r
  | Throw o e => Throw o e
  | Vis ev k => Vis ev (fun x => bind (k x) f)
  end.

Definition call {E : Type -> Type} {X : Type} (ev : E X) : prog E X :=
  Vis ev Ret.

Global Instance prog_ret {E : Type -> Type} : MRet (prog E) := @Ret E.
Global Instance prog_bind {E : Type -> Type} : MBind (prog E) :=
  fun R T f p => bind p f.

(** The program can reach a [raise] of origin [o] and class [e]. *)
Fixpoint throws {E : Type -> Type} {R : Type} (p : prog E R)
         (o : origin) (e : exn) : Prop :=
  match p with
  | Ret _ => False
  | Throw o' e' => o' = o /\ e' = e
  | Vis ev k => exists x, throws (k x) o e
  end.

(** One executed call together with what the environment answered. *)
Inductive entry (E : Type -> Type) : Type :=
| Entry (X : Type) (ev : E X) (ans : outcome X).
Arguments Entry {E X} ev ans.

(** The environment: it answers every call, possibly with an exception,
    and may change its own state [S]. *)
Definition handler (E : Type -> Type) (S : Type) : Type :=
  forall X : Type, E X -> S -> outcome X * S.

(** Running a program in an environment: the outcome, the final state of
    the environment and the calls made, in order. *)
Fixpoint run {E : Type -> Type} {R S : Type} (h : handler E S)
         (p : prog E R) (s : S) : outcome R * S * list (entry E) :=
  match p with
  | Ret r => (Ok r, s, [])
  | Throw o e => (Raised o e, s, [])
  | Vis ev k =>
      match h _ ev s with
      | (Ok x, s1) =>
          let '(r, s2, tr) := run h (k x) s1 in (r, s2, Entry ev (Ok x) :: tr)
      | (Raised o e, s1) => (Raised o e, s1, [Entry ev (Raised o e)])
      | (OutOfFuel, s1) => (OutOfFuel, s1, [Entry ev OutOfFuel])
      end
  end.

Definition outcome_map {A B} (f : A -> B) (x : outcome A) : outcome B :=
  obind x (fun a => Ok (f a)).

(** A program that is one call [ev] whose answer [f] turns into the
    result: what running it gives in the environment [h]. *)
Definition single {E : Type -> Type} {X R S : Type} (h : handler E S)
           (ev : E X) (f : X -> R) (s : S)
  : outcome R * S * list (entry E) :=
  let '(a, s1) := h _ ev s in (outcome_map f a, s1, [Entry ev a]).

(** ** utils/sparse.py *)

(** A torch module; the two parallel containers wrap another module. *)
Inductive NNModule : Type :=
| PlainModule (id : string)
| DataParallel (module : NNModule)
| DistributedDataParallel (module : NNModule).

(** A modifier of a recipe, with the two attributes the wrapper reads. *)
Record Modifier : Type := MkModifier { start_epoch : Q; end_epoch : Q }.

(** A [ScheduledModifierManager] as the wrapper sees it: the attributes it
    reads and the text [str(manager)] produces. *)
Record Manager : Type := MkManager {
  mgr_id : string;
  learning_rate_modifiers : list Modifier;
  epoch_modifiers : list Modifier;
  pruning_modifiers : list Modifier;
  quantization_modifiers : list Modifier;
  max_epochs : Z;
  mgr_str : string
}.

Record WandbLogger : Type := MkWandbLogger { wandb : option PyObj }.

(** [SparsificationGroupLogger(lambda_func=_logging_lambda,
    tensorboard=tb_writer)]; the closure [_logging_lambda] is determined by
    the [wandb_logger] it captures. *)
Record GroupLogger : Type := MkGroupLogger {
  lambda_func_wandb_logger : option WandbLogger;
  tensorboard : PyObj
}.

Record Dataloader : Type := MkDataloader { dl_id : string; dl_len : Z }.

Inductive sparseE : Type -> Type :=
| FromYaml (file_path : string) : sparseE Manager
| ManagerApply (m : Manager) (model : NNModule) : sparseE unit
| ManagerInitialize (m : Manager) (model : NNModule) (epoch : Q)
  : sparseE unit
| ManagerInitializeLoggers (m : Manager) (loggers : list GroupLogger)
  : sparseE unit
| ManagerModify (m : Manager) (model : NNModule) (optimizer : PyObj)
                (steps_per_epoch : Z) (wrap_optim : PyObj) : sparseE PyObj
| LoggerInfo (logger : PyObj) (msg : string) : sparseE unit
| WandbArtifact (w : PyObj) (nm ty : string) : sparseE PyObj
| ArtifactWriteFile (artifact : PyObj) (fname content : string)
  : sparseE unit
| WandbLogArtifact (w artifact : PyObj) : sparseE unit.

(** The attributes of a [SparseMLWrapper] instance. *)
Record SparseMLWrapper : Type := MkSparseMLWrapper {
  enabled : bool;
  model : NNModule;
  sw_recipe : option string;
  manager : option Manager;
  logger : option PyObj
}.

Definition with_logger (w : SparseMLWrapper) (lg : option PyObj)
  : SparseMLWrapper :=
  MkSparseMLWrapper (enabled w) (model w) (sw_recipe w) (manager w) lg.

Module Sparse.

Definition qltb (a b : Q) : bool := negb (Qle_bool b a).

(** [min(l)] and [max(l)] on numbers: the first smallest (largest)
    element, [None] for the [ValueError] on an empty sequence *)
Definition py_min (l : list Q) : option Q :=
  match l with
  | [] => None
  | x :: xs => Some (fold_left (fun m y => if qltb y m then y else m) xs x)
  end.
Definition py_max (l : list Q) : option Q :=
  match l with
  | [] => None
  | x :: xs => Some (fold_left (fun m y => if qltb m y then y else m) xs x)
  end.

Definition lift {E A} (x : option A) : prog E A :=
  match x with
  | Some a => Ret a
  | None => Throw ByLibrary ValueError
  end.

Definition is_parallel (m : NNModule) : bool :=
  match m with
  | DataParallel _ | DistributedDataParallel _ => true
  | PlainModule _ => false
  end.

(** [model.module] *)
Definition module_of (m : NNModule) : NNModule :=
  match m with
  | DataParallel x | DistributedDataParallel x => x
  | PlainModule _ => m
  end.

(** [bool(recipe)] for [None] or a string *)
Definition recipe_truthy (r : option string) : bool :=
  match r with Some s => PyStr.truthy s | None => false end.

Definition nonempty {A} (l : list A) : bool :=
  match l with [] => false | _ => true end.

(** attribute access on [self.manager]; on [None] it is an
    [AttributeError] *)
Definition the_manager {A} (w : SparseMLWrapper)
           (k : Manager -> prog sparseE A) : prog sparseE A :=
  match manager w with
  | Some m => k m
  | None => Throw ByLibrary AttributeError
  end.
Definition the_logger {A} (w : SparseMLWrapper)
           (k : PyObj -> prog sparseE A) : prog sparseE A :=
  match logger w with
  | Some l => k l
  | None => Throw ByLibrary AttributeError
  end.

(** [SparseMLWrapper.__init__] *)
Definition init (m : NNModule) (r : option string)
  : prog sparseE SparseMLWrapper :=
  let en := recipe_truthy r in
  let md := if is_parallel m then module_of m else m in
  mg ← (if en
         then x ← call (FromYaml (default "" r)); Ret (Some x)
         else Ret None);
  Ret (MkSparseMLWrapper en md r mg None).

(** Every method returns its result together with the instance after
    the call. *)

Definition state_dict (w : SparseMLWrapper)
  : prog sparseE (list (string * option string) * SparseMLWrapper) :=
  v ← (if enabled w then the_manager w (fun m => Ret (Some (mgr_str m)))
        else Ret None);
  Ret ([("recipe", v)], w).

Definition apply (w : SparseMLWrapper)
  : prog sparseE (unit * SparseMLWrapper) :=
  if enabled w then
    the_manager w (fun m => call (ManagerApply m (model w)));;
    Ret (tt, w)
  else Ret (tt, w).

Definition initialize (w : SparseMLWrapper) (epoch : Q)
  : prog sparseE (unit * SparseMLWrapper) :=
  if enabled w then
    the_manager w (fun m => call (ManagerInitialize m (model w) epoch));;
    Ret (tt, w)
  else Ret (tt, w).

Definition rank_is_main (rank : Z) : bool :=
  Z.eqb rank (-1) || Z.eqb rank 0.

Definition initialize_loggers (w : SparseMLWrapper) (lg : option PyObj)
           (tb_writer : PyObj) (wandb_logger : option WandbLogger)
           (rank : Z) : prog sparseE (unit * SparseMLWrapper) :=
  let w := with_logger w lg in
  if enabled w && rank_is_main rank then
    the_manager w (fun m =>
      call (ManagerInitializeLoggers m
              [MkGroupLogger wandb_logger tb_writer]));;
    match wandb_logger with
    | None => Throw ByLibrary AttributeError
    | Some wl =>
        match wandb wl with
        | Some wb =>
            artifact ← call (WandbArtifact wb "recipe" "recipe");
            the_manager w (fun m =>
              call (ArtifactWriteFile artifact "recipe.yaml" (mgr_str m)));;
            call (WandbLogArtifact wb artifact);;
            Ret (tt, w)
        | None => Ret (tt, w)
        end
    end
  else Ret (tt, w).

Definition modify (w : SparseMLWrapper) (scaler optimizer : PyObj)
           (mdl : NNModule) (dataloader : Dataloader)
  : prog sparseE (PyObj * SparseMLWrapper) :=
  if enabled w then
    r ← the_manager w (fun m =>
           call (ManagerModify m mdl optimizer (dl_len dataloader) scaler));
    Ret (r, w)
  else Ret (scaler, w).

Definition check_lr_override (w : SparseMLWrapper)
           (scheduler : option PyObj)
  : prog sparseE (option PyObj * SparseMLWrapper) :=
  c ← (if enabled w
        then the_manager w (fun m =>
               Ret (nonempty (learning_rate_modifiers m)))
        else Ret false);
  if c : bool then
    the_logger w (fun l => call (LoggerInfo l
      "Disabling LR scheduler, managing LR using SparseML recipe"));;
    Ret (None, w)
  else Ret (scheduler, w).

Definition check_epoch_override (w : SparseMLWrapper) (epochs : Z)
  : prog sparseE (Z * SparseMLWrapper) :=
  c ← (if enabled w
        then the_manager w (fun m =>
               Ret (nonempty (epoch_modifiers m)
                    && negb (Z.eqb (max_epochs m) 0)))
        else Ret false);
  if c : bool then
    the_manager w (fun m =>
      let epochs := if Z.eqb (max_epochs m) 0 then epochs
                    else max_epochs m in
      the_logger w (fun l => call (LoggerInfo l
        ("Overriding number of epochs from SparseML manager to "
           ++ pretty epochs)));;
      Ret (epochs, w))
  else Ret (epochs, w).

Definition qat_active (w : SparseMLWrapper) (epoch : Q)
  : prog sparseE (bool * SparseMLWrapper) :=
  c ← (if enabled w
        then the_manager w (fun m =>
               Ret (nonempty (quantization_modifiers m)))
        else Ret false);
  if c : bool then
    the_manager w (fun m =>
      qat_start ← lift (py_min (List.map start_epoch
                                   (quantization_modifiers m)));
      Ret (qltb qat_start (epoch + 1), w))
  else Ret (false, w).

Definition qleb (a b : Q) : bool := Qle_bool a b.

Definition reset_best (w : SparseMLWrapper) (epoch : Q)
  : prog sparseE (bool * SparseMLWrapper) :=
  if negb (enabled w) then Ret (false, w)
  else
    the_manager w (fun m =>
      pruning_start ←
        (if nonempty (pruning_modifiers m)
         then x ← lift (py_max (List.map start_epoch (pruning_modifiers m)));
              Ret (Qfloor x)
         else Ret (-1)%Z);
      pruning_end ←
        (if nonempty (pruning_modifiers m)
         then x ← lift (py_max (List.map end_epoch (pruning_modifiers m)));
              Ret (Qceiling x)
         else Ret (-1)%Z);
      qat_start ←
        (if nonempty (quantization_modifiers m)
         then x ← lift (py_max (List.map start_epoch
                                   (quantization_modifiers m)));
              Ret (Qfloor x)
         else Ret (-1)%Z);
      Ret ((qleb (inject_Z pruning_start) epoch
              && qleb epoch (inject_Z pruning_end))
           || Qeq_bool epoch (inject_Z qat_start), w)).

End Sparse.

(** ** utils/wrapper.py *)

(** A [DeepsparseWrapper] instance: the compiled engine, the detection
    routine and the mask-IoU network. *)
Record DeepsparseWrapper : Type := MkDeepsparseWrapper {
  engine : PyObj;
  detect : PyObj;
  maskiou_net : PyObj
}.

Inductive wrapperE : Type -> Type :=
| CpuNumpy (t : PyObj) : wrapperE PyObj
| MappedRun (eng : PyObj) (inp : list PyObj)
  : wrapperE (list (string * PyObj))
| FromNumpy (a : PyObj) : wrapperE PyObj
| Detect (d : PyObj) (predictions : list (string * PyObj))
         (net : DeepsparseWrapper) : wrapperE PyObj.

Module Wrapper.

Definition keys : list string := ["loc"; "conf"; "mask"; "priors"; "proto"].

(** [zip(keys, map(f, vals))]: [zip] asks [keys] first, so [f] runs on as
    many values as there are keys and values *)
Fixpoint zip_map (ks : list string) (vals : list PyObj)
  : prog wrapperE (list (string * PyObj)) :=
  match ks, vals with
  | k :: ks', v :: vals' =>
      t ← call (FromNumpy v);
      rest ← zip_map ks' vals';
      Ret ((k, t) :: rest)
  | _, _ => Ret []
  end.

(** [dict(pairs)]: a later pair with the same key replaces the value of
    the earlier one, at the earlier position *)
Fixpoint dict_set (d : list (string * PyObj)) (k : string) (v : PyObj)
  : list (string * PyObj) :=
  match d with
  | [] => [(k, v)]
  | (k', v') :: d' =>
      if String.eqb k' k then (k', v) :: d' else (k', v') :: dict_set d' k v
  end.
Definition dict (pairs : list (string * PyObj)) : list (string * PyObj) :=
  fold_left (fun d kv => dict_set d (fst kv) (snd kv)) pairs [].

Definition dict_get (d : list (string * PyObj)) (k : string)
  : option PyObj :=
  snd <$> List.find (fun kv => String.eqb (fst kv) k) d.

(** the [torch.from_numpy] calls on the arrays [arrs] answered by the
    tensors [tensors] *)
Definition from_numpy_entries (arrs tensors : list PyObj)
  : list (entry wrapperE) :=
  zip_with (fun a t => Entry (FromNumpy a) (Ok t)) arrs tensors.

(** [DeepsparseWrapper.__call__] *)
Definition call_ (w : DeepsparseWrapper) (inputs : PyObj)
  : prog wrapperE PyObj :=
  batch ← call (CpuNumpy inputs);
  outs ← call (MappedRun (engine w) [batch]);
  pairs ← zip_map keys (List.map snd outs);
  let outs := dict pairs in
  call (Detect (detect w) outs w).

End Wrapper.


(** ** export.py: the command line *)

(** Values held by an [argparse] namespace. *)
Inductive Value : Type :=
| VNone
| VStr (s : string)
| VInt (z : Z)
| VBool (b : bool)
| VTuple (l : list Z)
| VList (l : list Z).

Inductive ArgType : Type := TStr | TInt.
Inductive Action : Type := Store | StoreTrue | Help.
(** [nargs=None] and [nargs="+"] *)
Inductive NArgs : Type := One | OneOrMore.

(** One [add_argument] call. *)
Record Argument : Type := MkArgument {
  flags : list string;
  type_ : ArgType;
  required : bool;
  default_ : Value;
  action : Action;
  nargs : NArgs
}.

Module Argparse.

Definition dash : ascii := "-"%char.

Fixpoint replace_char (a b : ascii) (s : string) : string :=
  match s with
  | EmptyString => EmptyString
  | String c s' => String (if Ascii.eqb c a then b else c) (replace_char a b s')
  end.

Definition is_long (f : string) : bool := String.prefix "--" f.

(** the attribute name [argparse] derives from the option strings: the
    first long one (else the first one), without the leading dashes and
    with ["-"] replaced by ["_"] *)
Definition dest (a : Argument) : string :=
  let f := match List.find is_long (flags a) with
           | Some f => f
           | None => List.hd "" (flags a)
           end in
  replace_char dash "_"%char (PyStr.lstrip dash f).

Definition is_digit (c : ascii) : bool :=
  (Nat.leb 48 (nat_of_ascii c)) && (Nat.leb (nat_of_ascii c) 57).

Fixpoint all_digits (s : string) : bool :=
  match s with
  | EmptyString => true
  | String c s' => is_digit c && all_digits s'
  end.

Fixpoint digits_value (s : string) (acc : Z) : Z :=
  match s with
  | EmptyString => acc
  | String c s' =>
      digits_value s' (10 * acc + Z.of_nat (nat_of_ascii c - 48))%Z
  end.

(** [int(s)] on an optional sign followed by decimal digits; surrounding
    blanks and digit separators are not covered and count as invalid *)
Definition py_int (s : string) : option Z :=
  let conv d := if PyStr.truthy d && all_digits d
                then Some (digits_value d 0%Z) else None in
  match s with
  | String "-"%char d => Z.opp <$> conv d
  | String "+"%char d => conv d
  | _ => conv s
  end.

(** [s.partition(c)]: the text before the first [c] and, when [c]
    occurs, the text after it *)
Fixpoint partition (c : ascii) (s : string) : string * option string :=
  match s with
  | EmptyString => (EmptyString, None)
  | String a s' =>
      if Ascii.eqb a c then (EmptyString, Some s')
      else let '(x, y) := partition c s' in (String a x, y)
  end.

(** the pattern [^-\d+$|^-\d*\.\d+$] of [argparse] *)
Definition is_negative_number (t : string) : bool :=
  match t with
  | String "-"%char d =>
      (PyStr.truthy d && all_digits d)
      || match partition "."%char d with
         | (x, Some y) => all_digits x && PyStr.truthy y && all_digits y
         | (_, None) => false
         end
  | _ => false
  end.

Definition find_exact (tbl : list Argument) (s : string) : option Argument :=
  List.find (fun a => existsb (String.eqb s) (flags a)) tbl.

(** [_get_option_tuples]: the (action, explicit argument) pairs a token
    may abbreviate, one per matching option string *)
Definition option_tuples (tbl : list Argument) (t : string)
  : list (Argument * option string) :=
  if String.prefix "--" t then
    let '(pre, expl) := partition "="%char t in
    List.flat_map (fun a =>
      List.map (fun _ => (a, expl))
               (List.filter (String.prefix pre) (flags a))) tbl
  else
    let short := PyStr.take 2 t in
    let rest := PyStr.drop 2 t in
    List.flat_map (fun a =>
      List.flat_map (fun f =>
        if String.eqb f short then [(a, Some rest)]
        else if String.prefix t f then [(a, None)]
        else []) (flags a)) tbl.

Inductive resolved : Type :=
| RPositional
| ROption (a : Argument) (explicit : option string)
| RAmbiguous
| RUnknown.

(** [_parse_optional] *)
Definition resolve (tbl : list Argument) (t : string) : resolved :=
  if negb (String.prefix "-" t) then RPositional
  else
    match find_exact tbl t with
    | Some a => ROption a None
    | None =>
        if Nat.eqb (String.length t) 1 then RPositional
        else
          match
            (match partition "="%char t with
             | (opt, Some expl) =>
                 (fun a => (a, expl)) <$> find_exact tbl opt
             | (_, None) => None
             end)
          with
          | Some (a, expl) => ROption a (Some expl)
          | None =>
              match option_tuples tbl t with
              | [(a, expl)] => ROption a expl
              | _ :: _ :: _ => RAmbiguous
              | [] =>
                  if is_negative_number t then RPositional
                  else if PyStr.contains " "%char t then RPositional
                  else RUnknown
              end
          end
    end.

(** a token that can be the value of an option *)
Definition is_arg (tbl : list Argument) (t : string) : bool :=
  match resolve tbl t with RPositional => true | _ => false end.

(** [parser.error(...)]: the usage message and [sys.exit(2)]; the help
    action ends with [sys.exit(0)] *)
Definition usage_error {A} : outcome A := Raised ByLibrary (SystemExit 2).
Definition help_exit {A} : outcome A := Raised ByLibrary (SystemExit 0).

Definition convert (ty : ArgType) (s : string) : outcome Value :=
  match ty with
  | TStr => Ok (VStr s)
  | TInt => match py_int s with
            | Some z => Ok (VInt z)
            | None => usage_error
            end
  end.

Fixpoint convert_ints (l : list string) : outcome (list Z) :=
  match l with
  | [] => Ok []
  | s :: l' =>
      match py_int s with
      | Some z => obind (convert_ints l') (fun zs => Ok (z :: zs))
      | None => usage_error
      end
  end.

(** what the parser has collected: the namespace, the attribute names of
    the options seen, whether some argument was left over, and whether
    the help action is about to run *)
Record pstate : Type := MkPstate {
  values : gmap string Value;
  seen : list string;
  extras : bool;
  help_pending : bool
}.

(** the [store] action on the values [vals] taken from the command
    line: the number of values is checked when they are collected, the
    conversion is done when the action runs, after a pending help *)
Definition store (a : Argument) (vals : list string) (st : pstate)
  : outcome pstate :=
  match nargs a, vals with
  | One, [v] =>
      if help_pending st then help_exit
      else obind (convert (type_ a) v) (fun x =>
             Ok (MkPstate (<[dest a := x]> (values st))
                          (dest a :: seen st) (extras st) false))
  | OneOrMore, _ :: _ =>
      if help_pending st then help_exit
      else
        match type_ a with
        | TInt => obind (convert_ints vals) (fun zs =>
                    Ok (MkPstate (<[dest a := VList zs]> (values st))
                                 (dest a :: seen st) (extras st) false))
        | TStr => usage_error
        end
  | _, _ => usage_error
  end.

(** an action without value: [store_true], or the help action *)
Definition flag (a : Argument) (st : pstate) : pstate :=
  match action a with
  | Help => MkPstate (values st) (seen st) (extras st) true
  | _ => MkPstate (<[dest a := VBool true]> (values st))
                  (dest a :: seen st) (extras st) (help_pending st)
  end.

(** what the parser is waiting for *)
Inductive mode : Type :=
| Idle
| Need1 (a : Argument)
| Many (a : Argument) (acc : list string).

Definition awaiting (a : Argument) : mode :=
  match nargs a with
  | One => Need1 a
  | OneOrMore => Many a []
  end.

Definition short_flag (c : ascii) : string :=
  String dash (String c EmptyString).

(** the short option [a] met inside a group of short options ([-Nb4]),
    [rest] being the text after its letter: an action without value reads
    [rest] as further short options, an option with a value takes [rest]
    as its value *)
Fixpoint take_shorts (tbl : list Argument) (a : Argument) (rest : string)
         (st : pstate) : outcome (pstate * mode) :=
  match action a with
  | Store =>
      match rest with
      | EmptyString => Ok (st, awaiting a)
      | _ => obind (store a [rest] st) (fun st' => Ok (st', Idle))
      end
  | _ =>
      match rest with
      | EmptyString => Ok (flag a st, Idle)
      | String c rest' =>
          match find_exact tbl (short_flag c) with
          | Some a' => take_shorts tbl a' rest' (flag a st)
          | None => usage_error
          end
      end
  end.

(** an option [a] met with the explicit argument [expl] ([--opt=value],
    [-ovalue]); an empty explicit argument after a short option without
    value ([-N=]) makes [argparse] index an empty string *)
Definition take_option (tbl : list Argument) (short : bool) (a : Argument)
           (expl : option string) (st : pstate)
  : outcome (pstate * mode) :=
  match expl with
  | None => take_shorts tbl a EmptyString st
  | Some v =>
      match action a with
      | Store => obind (store a [v] st) (fun st' => Ok (st', Idle))
      | _ =>
          if short then
            match v with
            | EmptyString => Raised ByLibrary IndexError
            | _ => take_shorts tbl a v st
            end
          else usage_error
      end
  end.

(** a token met while no value is awaited; what is no known option is
    left over, and reported when the whole command line has been read *)
Definition take_token (tbl : list Argument) (t : string) (st : pstate)
  : outcome (pstate * mode) :=
  match resolve tbl t with
  | ROption a expl => take_option tbl (negb (String.prefix "--" t)) a expl st
  | RAmbiguous => usage_error
  | RPositional | RUnknown =>
      Ok (MkPstate (values st) (seen st) true (help_pending st), Idle)
  end.

(** the loop over the command line *)
Fixpoint consume (tbl : list Argument) (ts : list string) (m : mode)
         (st : pstate) : outcome pstate :=
  match m with
  | Idle =>
      if help_pending st then help_exit
      else
        match ts with
        | [] => Ok st
        | t :: ts' =>
            obind (take_token tbl t st) (fun r =>
              consume tbl ts' (snd r) (fst r))
        end
  | Need1 a =>
      match ts with
      | [] => usage_error
      | t :: ts' =>
          if is_arg tbl t
          then obind (store a [t] st) (fun st' => consume tbl ts' Idle st')
          else usage_error
      end
  | Many a acc =>
      match ts with
      | [] => store a acc st
      | t :: ts' =>
          if is_arg tbl t then consume tbl ts' (Many a (acc ++ [t])) st
          else obind (store a acc st) (fun st' =>
               obind (take_token tbl t st') (fun r =>
                 consume tbl ts' (snd r) (fst r)))
      end
  end.

(** the namespace before parsing: every option with its default *)
Definition defaults (tbl : list Argument) : gmap string Value :=
  fold_left (fun d a =>
               match action a with
               | Help => d
               | _ => <[dest a := default_ a]> d
               end) tbl ∅.

Definition missing_required (tbl : list Argument) (st : pstate) : bool :=
  existsb (fun a => required a
                    && negb (existsb (String.eqb (dest a)) (seen st))) tbl.

(** the token [t] stands for an option stored under the name [d] *)
Definition selects (tbl : list Argument) (t d : string) : Prop :=
  exists (a : Argument) (expl : option string),
    resolve tbl t = ROption a expl /\ dest a = d.

(** what a waiting parser will store is acceptable for [ok] *)
Definition mode_ok (ok : string -> Prop) (m : mode) : Prop :=
  match m with
  | Idle => True
  | Need1 a | Many a _ => ok (dest a)
  end.

Definition ambiguous (tbl : list Argument) (t : string) : bool :=
  match resolve tbl t with RAmbiguous => true | _ => false end.

(** the help option every parser has *)
Definition help_argument : Argument :=
  MkArgument ["-h"; "--help"] TStr false VNone Help One.

(** [parser.parse_args(argv)] followed by [vars], as CPython 3.9 does
    it for a parser without positional arguments: all tokens are
    classified first, then the options are taken from left to right,
    then the required options and the left-over arguments are checked.
    The ["--"] separator is not covered: it is treated as a left-over
    argument. *)
Definition parse (tbl : list Argument) (argv : list string)
  : outcome (gmap string Value) :=
  let tbl := help_argument :: tbl in
  if existsb (ambiguous tbl) argv then usage_error
  else
    obind (consume tbl argv Idle (MkPstate (defaults tbl) [] false false))
          (fun st => if missing_required tbl st then usage_error
                     else if extras st then usage_error
                     else Ok (values st)).

End Argparse.

Module ExportCli.

(** the eight [parser.add_argument] calls of [parse_args], in order *)
Definition arguments : list Argument :=
  [ MkArgument ["--checkpoint"] TStr true VNone Store One;
    MkArgument ["--config"; "-c"] TStr false (VStr "yolact_base_config")
               Store One;
    MkArgument ["--recipe"; "-r"] TStr false VNone Store One;
    MkArgument ["--no-qat"; "-N"] TStr false (VBool false) StoreTrue One;
    MkArgument ["--batch-size"; "-b"] TInt false (VInt 1) Store One;
    MkArgument ["--image-shape"; "-S"] TInt false (VTuple [3; 550; 550]%Z)
               Store OneOrMore;
    MkArgument ["--save-dir"; "-s"] TStr false (VStr "./exported_models")
               Store One;
    MkArgument ["--name"; "-n"] TStr false VNone Store One ].

(** the table the parser works with: the help option comes first *)
Definition table : list Argument := Argparse.help_argument :: arguments.

Definition opt_str (v : Value) : option (option string) :=
  match v with
  | VNone => Some None
  | VStr s => Some (Some s)
  | _ => None
  end.

(** [ExportArgs] built from the keywords of [vars(args)]: they must be
    exactly the eight fields of the dataclass *)
Definition kwargs (d : gmap string Value) : outcome Namespace :=
  match d !! "checkpoint", d !! "config", d !! "recipe", d !! "no_qat",
        d !! "batch_size", d !! "image_shape", d !! "save_dir", d !! "name"
  with
  | Some (VStr ck), Some (VStr cf), Some rc, Some (VBool nq),
    Some (VInt bs), Some sh, Some (VStr sd), Some nm =>
      match opt_str rc, opt_str nm,
            (match sh with
             | VTuple l | VList l => Some l
             | _ => None
             end),
            Nat.eqb (size d) 8 with
      | Some rc', Some nm', Some sh', true =>
          Ok (MkNamespace ck cf rc' nq bs sh' sd nm')
      | _, _, _, _ => Raised ByLibrary TypeError
      end
  | _, _, _, _, _, _, _, _ => Raised ByLibrary TypeError
  end.

(** the keyword arguments [parse_args] gets from the command line *)
Definition parse_namespace (argv : list string) : outcome Namespace :=
  obind (Argparse.parse arguments argv) kwargs.

(** [parse_args] on the command line [argv] *)
Definition parse_args (fs : gmap Path kind) (argv : list string)
  : outcome (gmap Path kind * ExportArgs) :=
  obind (parse_namespace argv) (fun ns => ExportPy.post_init fs ns).

(** the long option strings of an argument *)
Definition long_flags (a : Argument) : list string :=
  List.filter Argparse.is_long (flags a).

End ExportCli.

(** ** export.py: [export] *)

Inductive exportE : Type -> Type :=
| SetCfg (config_name : string) : exportE unit
| NewYolact : exportE NNModule
| ManagerFromYaml (file_path : string) : exportE Manager
| ManagerApplyTo (m : Manager) (module : NNModule) : exportE unit
| LoggingDebug (msg : string) : exportE unit
| LoggingInfo (msg : string) : exportE unit
| TorchLoad (f : Path) : exportE PyObj
| LoadStateDict (module : NNModule) (state : PyObj) : exportE unit
| TorchRandn (shape : list Z) : exportE PyObj
| ExportOnnx (module : NNModule) (sample_batch : PyObj)
             (file_path : string) (convert_qat : bool) : exportE unit.

(** The three library operations [export] is made of. *)
Inductive step : Type := ApplyRecipe | LoadWeights | ExportModel.

Module ExportRun.

(** which of the three operations a call is; configuration, model
    construction, file reading, sampling and logging are none of them *)
Definition step_of (en : entry exportE) : option step :=
  match en with
  | Entry ev _ =>
      match ev with
      | ManagerApplyTo _ _ => Some ApplyRecipe
      | LoadStateDict _ _ => Some LoadWeights
      | ExportOnnx _ _ _ _ => Some ExportModel
      | _ => None
      end
  end.

(** [export(args)] *)
Definition export (args : ExportArgs) : prog exportE unit :=
  let batch_shape := batch_size args :: image_shape args in
  call (SetCfg (config args));;
  mdl ← call NewYolact;
  match recipe args with
  | Some r =>
      mgr ← call (ManagerFromYaml r);
      call (ManagerApplyTo mgr mdl)
  | None => Ret tt
  end;;
  call (LoggingDebug ("Loading state dict from checkpoint "
                        ++ Pathlib.to_str (checkpoint args)));;
  state ← call (TorchLoad (checkpoint args));
  call (LoadStateDict mdl state);;
  sample ← call (TorchRandn batch_shape);
  call (ExportOnnx mdl sample (Pathlib.to_str (name args))
                   (negb (no_qat args)));;
  call (LoggingInfo ("Model checkpoint exported to "
                       ++ Pathlib.to_str (name args))).

End ExportRun.


(** ** Sample inputs *)

Module Samples.

Definition fs0 : gmap Path kind :=
  <[Pathlib.of_str "ckpt/model.pth" := File]>
  (<[Pathlib.of_str "out/model.onnx" := File]>
  (<[Pathlib.of_str "out/model-1.onnx" := File]>
  (<[Pathlib.of_str "out" := Dir]> ∅))).

Definition ns0 : Namespace :=
  MkNamespace "ckpt/model.pth" "yolact_base_config" None false 1
              [3; 550; 550]%Z "out" None.

Definition quant : Manager :=
  MkManager "quant" [] [] [] [MkModifier 2 5; MkModifier (3 # 2) 4] 10
            "modifiers: []".

(** an environment for [SparseMLWrapper] in which every call returns *)
Definition sparse_env : handler sparseE unit :=
  fun X ev s =>
    match ev in sparseE T return outcome T * unit with
    | FromYaml _ => (Ok quant, s)
    | ManagerApply _ _ => (Ok tt, s)
    | ManagerInitialize _ _ _ => (Ok tt, s)
    | ManagerInitializeLoggers _ _ => (Ok tt, s)
    | ManagerModify _ _ _ _ _ => (Ok (Obj "wrapped"), s)
    | LoggerInfo _ _ => (Ok tt, s)
    | WandbArtifact _ _ _ => (Ok (Obj "artifact"), s)
    | ArtifactWriteFile _ _ _ => (Ok tt, s)
    | WandbLogArtifact _ _ => (Ok tt, s)
    end.

Definition disabled0 : SparseMLWrapper :=
  MkSparseMLWrapper false (PlainModule "yolact") None None None.

Definition enabled0 : SparseMLWrapper :=
  MkSparseMLWrapper true (PlainModule "yolact") (Some "recipe.yaml")
                    (Some quant) None.

(** an environment for [DeepsparseWrapper]: the engine answers with the
    five arrays of a Yolact graph *)
Definition engine_env : handler wrapperE unit :=
  fun X ev s =>
    match ev in wrapperE T return outcome T * unit with
    | CpuNumpy (Obj i) => (Ok (Obj ("np:" ++ i)), s)
    | MappedRun _ _ =>
        (Ok [("output_0", Obj "a0"); ("output_1", Obj "a1");
             ("output_2", Obj "a2"); ("output_3", Obj "a3");
             ("output_4", Obj "a4")], s)
    | FromNumpy (Obj i) => (Ok (Obj ("torch:" ++ i)), s)
    | Detect _ _ _ => (Ok (Obj "detections"), s)
    end.

Definition ds0 : DeepsparseWrapper :=
  MkDeepsparseWrapper (Obj "engine") (Obj "detect") (Obj "maskiou").

(** an environment for [export] in which every call returns *)
Definition export_env : handler exportE unit :=
  fun X ev s =>
    match ev in exportE T return outcome T * unit with
    | SetCfg _ => (Ok tt, s)
    | NewYolact => (Ok (PlainModule "yolact"), s)
    | ManagerFromYaml _ => (Ok quant, s)
    | ManagerApplyTo _ _ => (Ok tt, s)
    | LoggingDebug _ => (Ok tt, s)
    | LoggingInfo _ => (Ok tt, s)
    | TorchLoad _ => (Ok (Obj "state_dict"), s)
    | LoadStateDict _ _ => (Ok tt, s)
    | TorchRandn _ => (Ok (Obj "sample"), s)
    | ExportOnnx _ _ _ _ => (Ok tt, s)
    end.

(** an environment for [export] in which the checkpoint cannot be read *)
Definition unreadable_env : handler exportE unit :=
  fun X ev s =>
    match ev in exportE T return outcome T * unit with
    | TorchLoad _ => (Raised ByLibrary ValueError, s)
    | ev' => export_env _ ev' s
    end.

Definition args0 : ExportArgs :=
  MkExportArgs (Pathlib.of_str "ckpt/model.pth") "yolact_base_config"
               (Some "recipe.yaml") false 1 [3; 550; 550]%Z
               (Pathlib.of_str "out") (Pathlib.of_str "out/model-2.onnx").

End Samples.

(** ** What programs return *)

(** every value the program can return satisfies [P] *)
Fixpoint returns_only {E : Type -> Type} {R : Type} (P : R -> Prop)
         (p : prog E R) : Prop :=
  match p with
  | Ret r => P r
  | Throw _ _ => True
  | Vis ev k => forall x, returns_only P (k x)
  end.

(** the call was answered with a value *)
Definition answered {E : Type -> Type} (en : entry E) : bool :=
  match en with
  | Entry _ (Ok _) => true
  | Entry _ _ => false
  end.

(** [m] is a largest element of [l] *)
Definition largest (l : list Q) (m : Q) : Prop :=
  In m l /\ forall x : Q, In x l -> (x <= m)%Q.

(** ** The script as a whole *)

Module Script.

(** the file system once a regular file has been written at [p], as
    [export_onnx] does with the output name *)
Definition written (fs : gmap Path kind) (p : Path) : gmap Path kind :=
  <[p := File]> fs.

(** a path as [Path(...)] builds them: one of the three roots, and
    components without separator *)
Definition well_formed (p : Path) : Prop :=
  (root p = "" \/ root p = "/" \/ root p = "//") /\
  Forall Pathlib.component (parts p).

(** the values a field of the namespace can hold while the command line
    is read: what the [type] and [nargs] of its option produce, or its
    default *)
Definition field_value (k : string) (v : Value) : bool :=
  if String.eqb k "checkpoint" || String.eqb k "recipe" || String.eqb k "name"
  then match v with VNone | VStr _ => true | _ => false end
  else if String.eqb k "config" || String.eqb k "save_dir"
  then match v with VStr _ => true | _ => false end
  else if String.eqb k "no_qat"
  then match v with VBool _ => true | _ => false end
  else if String.eqb k "batch_size"
  then match v with VInt _ => true | _ => false end
  else if String.eqb k "image_shape"
  then match v with VTuple _ | VList _ => true | _ => false end
  else false.

(** the state of the parser fits the dataclass: the namespace has the
    fields the parser started with, each holds a value of its kind, and
    the checkpoint is a string once [--checkpoint] has been seen *)
Definition fits (st : Argparse.pstate) : Prop :=
  dom (Argparse.values st) = dom (Argparse.defaults ExportCli.table) /\
  (forall (k : string) (v : Value),
     Argparse.values st !! k = Some v -> field_value k v = true) /\
  (In "checkpoint" (Argparse.seen st) ->
   exists s : string, Argparse.values st !! "checkpoint" = Some (VStr s)).

(** an option that waits for its value is one of the table and stores *)
Definition mode_stores (m : Argparse.mode) : Prop :=
  match m with
  | Argparse.Idle => True
  | Argparse.Need1 a | Argparse.Many a _ =>
      In a ExportCli.table /\ action a = Store
  end.

(** the [__main__] block: [export(parse_args())]; the result, the file
    system left by the construction of the arguments (when the arguments
    were constructed), the state of the environment and the library calls
    made *)
Definition main {S : Type} (h : handler exportE S) (fs : gmap Path kind)
           (argv : list string) (s : S)
  : outcome unit * option (gmap Path kind) * S * list (entry exportE) :=
  match ExportCli.parse_args fs argv with
  | Ok (fs', args) =>
      let '(r, s', tr) := run h (ExportRun.export args) s in
      (r, Some fs', s', tr)
  | Raised o e => (Raised o e, None, s, [])
  | OutOfFuel => (OutOfFuel, None, s, [])
  end.

End Script.

(** * Properties *)

(** ** Running programs *)

Lemma run_bind {E : Type -> Type} {R T S : Type} (h : handler E S)
      (p : prog E R) (f : R -> prog E T) (s : S) :
  run h (bind p f) s =
  match run h p s with
  | (Ok a, s1, tr1) =>
      let '(r, s2, tr2) := run h (f a) s1 in (r, s2, (tr1 ++ tr2)%list)
  | (Raised o e, s1, tr1) => (Raised o e, s1, tr1)
  | (OutOfFuel, s1, tr1) => (OutOfFuel, s1, tr1)
  end.
Proof.
  revert s. induction p as [r | o e | X ev k IH]; intros s; simpl.
  - destruct (run h (f r) s) as [[r' s'] tr']. reflexivity.
  - reflexivity.
  - destruct (h X ev s) as [[x | o e |] s1]; try reflexivity.
    rewrite IH.
    destruct (run h (k x) s1) as [[[a | o e |] s2] tr1]; try reflexivity.
    destruct (run h (f a) s2) as [[r' s'] tr']. reflexivity.
Qed.

Lemma run_call_ret {E : Type -> Type} {X R S : Type} (h : handler E S)
      (ev : E X) (f : X -> R) (s : S) :
  run h (bind (call ev) (fun x => Ret (f x))) s = single h ev f s.
Proof.
  unfold single. simpl. destruct (h X ev s) as [[x | o e |] s1]; reflexivity.
Qed.

(** ** Strings *)

Lemma sapp_nil (b : string) : ("" ++ b)%string = b.
Proof. reflexivity. Qed.

Lemma sapp_cons (x : ascii) (a b : string) :
  (String x a ++ b)%string = String x (a ++ b).
Proof. reflexivity. Qed.

Lemma str_length_app (a b : string) :
  String.length (a ++ b) = String.length a + String.length b.
Proof.
  induction a as [| c a IH]; [reflexivity |].
  rewrite sapp_cons. simpl. rewrite IH. reflexivity.
Qed.

Lemma str_app_assoc (a b c : string) : ((a ++ b) ++ c = a ++ (b ++ c))%string.
Proof.
  induction a as [| x a IH]; [reflexivity |].
  rewrite !sapp_cons, IH. reflexivity.
Qed.

Lemma str_app_inv_tail (t a b : string) :
  (a ++ t = b ++ t)%string -> a = b.
Proof.
  revert b. induction a as [| x a IH]; intros [| y b] H;
    rewrite ?sapp_cons, ?sapp_nil in H.
  - reflexivity.
  - exfalso. apply (f_equal String.length) in H. simpl in H.
    rewrite str_length_app in H. lia.
  - exfalso. apply (f_equal String.length) in H. simpl in H.
    rewrite str_length_app in H. lia.
  - injection H as -> H. f_equal. apply IH. exact H.
Qed.

Lemma take_app (a b : string) : PyStr.take (String.length a) (a ++ b) = a.
Proof.
  induction a as [| x a IH].
  - rewrite sapp_nil. destruct b; reflexivity.
  - rewrite sapp_cons. simpl. rewrite IH. reflexivity.
Qed.

Lemma take_drop (i : nat) (s : string) :
  (PyStr.take i s ++ PyStr.drop i s)%string = s.
Proof.
  revert i. induction s as [| x s IH]; intros [| i]; simpl; try reflexivity.
  rewrite sapp_cons, IH. reflexivity.
Qed.

Lemma length_take (i : nat) (s : string) :
  String.length (PyStr.take i s) = Nat.min i (String.length s).
Proof.
  revert i. induction s as [| x s IH]; intros [| i]; simpl; try reflexivity.
  rewrite IH. reflexivity.
Qed.

Lemma length_drop (i : nat) (s : string) :
  String.length (PyStr.drop i s) = String.length s - i.
Proof.
  revert i. induction s as [| x s IH]; intros [| i]; simpl; try reflexivity.
  apply IH.
Qed.

Lemma contains_app (c : ascii) (a b : string) :
  PyStr.contains c (a ++ b) = PyStr.contains c a || PyStr.contains c b.
Proof.
  induction a as [| x a IH]; [reflexivity |].
  rewrite sapp_cons. simpl. rewrite IH. apply orb_assoc.
Qed.

Lemma contains_take (c : ascii) (i : nat) (s : string) :
  PyStr.contains c s = false -> PyStr.contains c (PyStr.take i s) = false.
Proof.
  revert i. induction s as [| x s IH]; intros [| i] H; simpl in *;
    try reflexivity.
  apply orb_false_iff in H as [-> H]. simpl. apply IH. exact H.
Qed.

Lemma rfind_app (c : ascii) (a b : string) :
  PyStr.rfind c (a ++ b) =
  match PyStr.rfind c b with
  | Some j => Some (String.length a + j)
  | None => PyStr.rfind c a
  end.
Proof.
  induction a as [| x a IH].
  - rewrite sapp_nil. destruct (PyStr.rfind c b); reflexivity.
  - rewrite sapp_cons. simpl. rewrite IH.
    destruct (PyStr.rfind c b); reflexivity.
Qed.

Lemma rfind_lt (c : ascii) (s : string) (i : nat) :
  PyStr.rfind c s = Some i -> i < String.length s.
Proof.
  revert i. induction s as [| x s IH]; intros i; simpl; [discriminate |].
  destruct (PyStr.rfind c s) as [j |].
  - intros [= <-]. specialize (IH j eq_refl). lia.
  - destruct (Ascii.eqb x c); [intros [= <-]; lia | discriminate].
Qed.

Lemma split_no_sep (c : ascii) (s : string) :
  PyStr.contains c s = false -> PyStr.split c s = [s].
Proof.
  induction s as [| x s IH]; simpl; [reflexivity |].
  intros H. apply orb_false_iff in H as [-> H]. rewrite (IH H). reflexivity.
Qed.

Lemma split_parts (c : ascii) (s : string) :
  Forall (fun x => PyStr.contains c x = false) (PyStr.split c s).
Proof.
  induction s as [| x s IH]; simpl.
  - constructor; [reflexivity | constructor].
  - destruct (Ascii.eqb x c) eqn:E.
    + constructor; [reflexivity | exact IH].
    + destruct (PyStr.split c s) as [| w ws]; constructor.
      * simpl. rewrite E. reflexivity.
      * constructor.
      * simpl. rewrite E. simpl. inversion IH; assumption.
      * inversion IH; assumption.
Qed.

Lemma pretty_go_no_sep (x : N) (s : string) :
  PyStr.contains Pathlib.sep s = false ->
  PyStr.contains Pathlib.sep (pretty_N_go x s) = false.
Proof.
  revert s. induction (N.lt_wf_0 x) as [x _ IH]. intros s Hs.
  destruct (decide (x = 0%N)) as [-> | Hx].
  - rewrite pretty_N_go_0. exact Hs.
  - rewrite pretty_N_go_step by lia. apply IH.
    + apply N.div_lt; lia.
    + rewrite ?sapp_cons, ?sapp_nil; simpl. rewrite Hs, orb_false_r.
      unfold pretty_N_char. repeat case_match; reflexivity.
Qed.

Lemma pretty_no_sep (k : N) : PyStr.contains Pathlib.sep (pretty k) = false.
Proof.
  unfold pretty, pretty_N. case_decide; [reflexivity |].
  apply pretty_go_no_sep. reflexivity.
Qed.

(** ** Paths *)

Lemma of_str_parts (s : string) :
  Forall Pathlib.component (parts (Pathlib.of_str s)).
Proof.
  unfold Pathlib.of_str. destruct (Pathlib.splitroot s) as [r rel]. cbn.
  pose proof (split_parts Pathlib.sep rel) as H.
  induction H as [| x l Hx Hl IH]; cbn; [constructor |].
  destruct (Pathlib.keep x) eqn:E; [| exact IH].
  constructor; [| exact IH].
  unfold Pathlib.keep in E. apply andb_true_iff in E as [E1 E2].
  repeat split; [exact Hx | |].
  - intros ->. discriminate.
  - intros ->. discriminate.
Qed.

Lemma of_str_component (x : string) :
  Pathlib.component x -> Pathlib.of_str x = MkPath "" [x].
Proof.
  intros (Hsep & Hne & Hdot). unfold Pathlib.of_str.
  assert (Pathlib.splitroot x = ("", x)) as ->.
  { destruct x as [| a x]; [reflexivity |]. cbn in *.
    apply orb_false_iff in Hsep as [-> _]. reflexivity. }
  rewrite (split_no_sep _ _ Hsep). cbn. unfold Pathlib.keep.
  destruct x as [| a x]; [congruence |]. cbn [PyStr.truthy andb].
  destruct (String.eqb_spec (String a x) "."); [congruence | reflexivity].
Qed.

Lemma truediv_component (p : Path) (x : string) :
  Pathlib.component x ->
  Pathlib.truediv p x = MkPath (root p) (parts p ++ [x]).
Proof.
  intros H. unfold Pathlib.truediv. rewrite (of_str_component _ H). reflexivity.
Qed.

Lemma parent_snoc (r : string) (ps : list string) (x : string) :
  Pathlib.parent (MkPath r (ps ++ [x])) = MkPath r ps.
Proof. unfold Pathlib.parent. cbn. rewrite removelast_last. reflexivity. Qed.

Lemma name_snoc (r : string) (ps : list string) (x : string) :
  Pathlib.name (MkPath r (ps ++ [x])) = x.
Proof. unfold Pathlib.name. cbn [parts]. apply last_last. Qed.

Lemma name_component (p : Path) :
  Forall Pathlib.component (parts p) ->
  Pathlib.name p = "" \/ Pathlib.component (Pathlib.name p).
Proof.
  unfold Pathlib.name. destruct p as [r ps]. cbn.
  induction ps as [| x ps IH] using rev_ind; intros H; [left; reflexivity |].
  right. rewrite last_last. apply Forall_app in H as [_ H].
  inversion H; assumption.
Qed.

Lemma name_no_sep (p : Path) :
  Forall Pathlib.component (parts p) ->
  PyStr.contains Pathlib.sep (Pathlib.name p) = false.
Proof.
  intros H. destruct (name_component p H) as [-> | (Hs & _)];
    [reflexivity | exact Hs].
Qed.

Lemma stem_no_sep (p : Path) :
  Forall Pathlib.component (parts p) ->
  PyStr.contains Pathlib.sep (Pathlib.stem p) = false.
Proof.
  intros H. unfold Pathlib.stem.
  destruct (Pathlib.suffix_pos _); [apply contains_take |]; apply name_no_sep, H.
Qed.

Lemma onnx_component (x : string) :
  PyStr.contains Pathlib.sep x = false -> Pathlib.component (x ++ ".onnx").
Proof.
  intros H. repeat split.
  - rewrite contains_app, H. reflexivity.
  - intros E. apply (f_equal String.length) in E.
    rewrite str_length_app in E. cbn in E. lia.
  - intros E. apply (f_equal String.length) in E.
    rewrite str_length_app in E. cbn in E. lia.
Qed.

Lemma candidate_component (f : string) (k : N) :
  PyStr.contains Pathlib.sep f = false ->
  Pathlib.component (ExportPy.candidate f k).
Proof.
  intros H. unfold ExportPy.candidate. destruct k as [| k].
  - apply onnx_component, H.
  - replace (f ++ "-" ++ pretty (N.pos k) ++ ".onnx")%string
      with ((f ++ "-" ++ pretty (N.pos k)) ++ ".onnx")%string
      by (rewrite !str_app_assoc; reflexivity).
    apply onnx_component. rewrite !contains_app, H, pretty_no_sep. reflexivity.
Qed.

Lemma candidate_inj (f : string) (j k : N) :
  j <> 0%N -> k <> 0%N ->
  ExportPy.candidate f j = ExportPy.candidate f k -> j = k.
Proof.
  intros Hj Hk. destruct j as [| j], k as [| k]; try congruence.
  unfold ExportPy.candidate. intros H.
  apply String.app_inj in H. apply String.app_inj in H.
  apply str_app_inv_tail in H. apply (inj pretty) in H. exact H.
Qed.

Lemma endswith_app (a t : string) : PyStr.endswith t (a ++ t) = true.
Proof.
  unfold PyStr.endswith. rewrite str_length_app.
  replace (String.length a + String.length t - String.length t)
    with (String.length a) by lia.
  apply String.eqb_eq. apply (String.app_inj (PyStr.take (String.length a) (a ++ t))).
  rewrite take_drop, take_app. reflexivity.
Qed.

Lemma candidate_endswith (f : string) (k : N) :
  PyStr.endswith ".onnx" (ExportPy.candidate f k) = true.
Proof.
  unfold ExportPy.candidate. destruct k as [| k].
  - apply endswith_app.
  - replace (f ++ "-" ++ pretty (N.pos k) ++ ".onnx")%string
      with ((f ++ "-" ++ pretty (N.pos k)) ++ ".onnx")%string
      by (rewrite !str_app_assoc; reflexivity).
    apply endswith_app.
Qed.

(** ** The file system *)

Lemma parts_parent (p : Path) :
  parts p <> [] ->
  parts p = (parts (Pathlib.parent p) ++ [Pathlib.name p])%list.
Proof. intros H. cbn. apply app_removelast_last. exact H. Qed.

Lemma length_parent (p : Path) :
  parts p <> [] -> S (length (parts (Pathlib.parent p))) = length (parts p).
Proof.
  intros H. pose proof (parts_parent p H) as E.
  apply (f_equal (@length string)) in E. rewrite length_app in E.
  change (length [Pathlib.name p]) with 1 in E. lia.
Qed.

Lemma parent_neq (p : Path) : parts p <> [] -> Pathlib.parent p <> p.
Proof.
  intros H E. pose proof (length_parent p H) as Hl.
  rewrite E in Hl. lia.
Qed.

Lemma above_refl (p : Path) : Pathlib.above p p.
Proof. split; reflexivity. Qed.

Lemma above_parent (q p : Path) :
  Pathlib.above q (Pathlib.parent p) -> Pathlib.above q p.
Proof.
  intros [Hr Hp]. split; [exact Hr |].
  destruct (parts p) as [| x l] eqn:E.
  - cbn in Hp. rewrite E in Hp. exact Hp.
  - assert (parts p <> []) as Hne by (rewrite E; discriminate).
    rewrite <- E, (parts_parent p Hne).
    apply prefix_app_r. exact Hp.
Qed.

Lemma not_above_parent (p : Path) :
  parts p <> [] -> ~ Pathlib.above p (Pathlib.parent p).
Proof.
  intros H [_ Hp]. apply prefix_length in Hp.
  pose proof (length_parent p H). lia.
Qed.

Lemma node_nil (fs : gmap Path kind) (p : Path) :
  parts p = [] -> FS.node fs p = Some Dir.
Proof. unfold FS.node. intros ->. reflexivity. Qed.

Lemma node_none (fs : gmap Path kind) (p : Path) :
  FS.node fs p = None -> parts p <> [] /\ fs !! p = None.
Proof.
  unfold FS.node. destruct (parts p); [discriminate |].
  intros H. split; [discriminate | exact H].
Qed.

Lemma node_insert (fs : gmap Path kind) (p q : Path) :
  parts p <> [] ->
  FS.node (<[p := Dir]> fs) q = if decide (q = p) then Some Dir else FS.node fs q.
Proof.
  intros Hp. unfold FS.node. case_decide as E.
  - subst q. destruct (parts p); [congruence |]. apply lookup_insert_eq.
  - destruct (parts q); [reflexivity |]. apply lookup_insert_ne. congruence.
Qed.

Lemma extends_refl (fs : gmap Path kind) (p : Path) : FS.extends fs fs p.
Proof. split; [auto | intros q H1 H2; congruence]. Qed.

Lemma extends_insert (fs : gmap Path kind) (p : Path) :
  FS.node fs p = None -> FS.extends fs (<[p := Dir]> fs) p.
Proof.
  intros Hn. destruct (node_none _ _ Hn) as [Hp _]. split.
  - intros q k Hq. rewrite node_insert by exact Hp.
    case_decide; [subst; congruence | exact Hq].
  - intros q Hq. rewrite node_insert by exact Hp.
    case_decide; [subst; intros _; split; [reflexivity | apply above_refl] |].
    congruence.
Qed.

Lemma extends_step (fs fs1 fs2 : gmap Path kind) (p : Path) :
  FS.extends fs fs1 (Pathlib.parent p) -> FS.extends fs1 fs2 p ->
  FS.extends fs fs2 p.
Proof.
  intros [A1 A2] [B1 B2]. split.
  - intros q k Hq. apply B1, A1, Hq.
  - intros q Hq Hq2. destruct (FS.node fs1 q) as [k |] eqn:E.
    + destruct (A2 q Hq) as [Hd Ha]; [congruence |].
      split; [| apply above_parent, Ha].
      apply B1. congruence.
    + apply B2; assumption.
Qed.

Lemma tree_insert (fs : gmap Path kind) (p : Path) :
  FS.node fs p = None -> FS.node fs (Pathlib.parent p) = Some Dir ->
  FS.tree fs -> FS.tree (<[p := Dir]> fs).
Proof.
  intros Hn Hpar Ht q Hq. destruct (node_none _ _ Hn) as [Hp _].
  unfold FS.is_dir. rewrite node_insert in Hq by exact Hp.
  rewrite node_insert by exact Hp.
  case_decide as E1.
  - subst q. case_decide; [reflexivity |]. rewrite Hpar. reflexivity.
  - case_decide as E2; [reflexivity |].
    specialize (Ht q Hq). exact Ht.
Qed.

(** What [mkdir(parents=True, exist_ok=True)] does, whatever the depth of
    the path: it ends; when it returns, the path is a directory, nothing
    that existed was touched and a tree stays a tree; when it raises, the
    path or one of its parents is a regular file. *)
Lemma mkdir_parents_spec (n : nat) :
  forall (fs : gmap Path kind) (p : Path),
    length (parts p) <= n ->
    match FS.mkdir_parents n fs p with
    | Ok fs' =>
        FS.is_dir fs' p = true /\ FS.extends fs fs' p /\
        (FS.tree fs -> FS.tree fs')
    | Raised o e =>
        o = ByLibrary /\ (e = FileExistsError \/ e = NotADirectoryError) /\
        exists q, Pathlib.above q p /\ FS.node fs q = Some File
    | OutOfFuel => False
    end.
Proof.
  induction n as [| n IH]; intros fs p Hlen.
  - assert (parts p = []) as Hnil by (destruct (parts p); [reflexivity | cbn in Hlen; lia]).
    cbn [FS.mkdir_parents]. unfold FS.os_mkdir, FS.is_dir.
    rewrite !(node_nil fs p Hnil).
    split; [reflexivity | split; [apply extends_refl | auto]].
  - cbn [FS.mkdir_parents]. unfold FS.os_mkdir.
    destruct (FS.node fs p) as [k |] eqn:Hp.
    + unfold FS.is_dir. rewrite Hp. destruct k.
      * repeat split; auto. exists p. split; [apply above_refl | exact Hp].
      * split; [rewrite ?Hp; reflexivity | split; [apply extends_refl | auto]].
    + destruct (node_none _ _ Hp) as [Hne _].
      destruct (FS.node fs (Pathlib.parent p)) as [k |] eqn:Hpar.
      * destruct k.
        -- unfold FS.is_dir. rewrite Hp. repeat split; auto.
           exists (Pathlib.parent p). split; [| exact Hpar].
           apply above_parent, above_refl.
        -- split; [| split].
           ++ unfold FS.is_dir. rewrite node_insert by exact Hne.
              case_decide; [reflexivity | congruence].
           ++ apply extends_insert, Hp.
           ++ apply tree_insert; assumption.
      * case_decide as E; [exfalso; exact (parent_neq p Hne E) |].
        pose proof (length_parent p Hne) as Hl.
        specialize (IH fs (Pathlib.parent p) ltac:(lia)).
        destruct (FS.mkdir_parents n fs (Pathlib.parent p)) as [fs1 | o e |];
          cbn [obind]; [| | exact IH].
        -- destruct IH as (Hd & Hext & Ht).
           assert (FS.node fs1 p = None) as Hp1.
           { destruct (FS.node fs1 p) eqn:E1; [| reflexivity].
             exfalso. destruct Hext as [_ Hnew].
             destruct (Hnew p Hp) as [_ Ha]; [congruence |].
             exact (not_above_parent p Hne Ha). }
           unfold FS.mkdir_exist_ok, FS.os_mkdir. rewrite Hp1.
           unfold FS.is_dir in Hd.
           destruct (FS.node fs1 (Pathlib.parent p)) as [[|] |] eqn:Hpar1;
             try discriminate Hd.
           split; [| split].
           ++ unfold FS.is_dir. rewrite node_insert by exact Hne.
              case_decide; [reflexivity | congruence].
           ++ eapply extends_step; [exact Hext |].
              apply extends_insert, Hp1.
           ++ intros Ht0. apply tree_insert; auto.
        -- destruct IH as (Ho & He & q & Ha & Hq).
           repeat split; auto. exists q. split; [apply above_parent, Ha | exact Hq].
Qed.

Lemma mkdir_spec (fs : gmap Path kind) (p : Path) :
  match FS.mkdir fs p with
  | Ok fs' =>
      FS.is_dir fs' p = true /\ FS.extends fs fs' p /\
      (FS.tree fs -> FS.tree fs')
  | Raised o e =>
      o = ByLibrary /\ (e = FileExistsError \/ e = NotADirectoryError) /\
      exists q, Pathlib.above q p /\ FS.node fs q = Some File
  | OutOfFuel => False
  end.
Proof. apply mkdir_parents_spec. reflexivity. Qed.

Lemma mkdir_existing (fs : gmap Path kind) (p : Path) :
  FS.is_dir fs p = true -> FS.mkdir fs p = Ok fs.
Proof.
  unfold FS.mkdir, FS.is_dir. intros H.
  destruct (length (parts p)); cbn; unfold FS.os_mkdir, FS.is_dir;
    destruct (FS.node fs p) as [[|] |]; try discriminate H; reflexivity.
Qed.

(** in a tree, everything above a directory is a directory *)
Lemma tree_above (fs : gmap Path kind) (p q : Path) :
  FS.tree fs -> FS.is_dir fs p = true -> Pathlib.above q p ->
  FS.is_dir fs q = true.
Proof.
  intros Ht. remember (length (parts p)) as n eqn:Hn.
  revert p Hn. induction n as [| n IH]; intros p Hn Hd [Hr [k Hk]].
  - destruct (parts p) eqn:E; [| discriminate Hn].
    symmetry in Hk. apply app_eq_nil in Hk as [Hq _].
    unfold FS.is_dir. rewrite node_nil by exact Hq. reflexivity.
  - assert (parts p <> []) as Hne by (intros E; rewrite E in Hn; discriminate).
    destruct k as [| x k] using rev_ind.
    + rewrite app_nil_r in Hk.
      assert (q = p) as -> by (destruct q, p; cbn in *; congruence).
      exact Hd.
    + apply (IH (Pathlib.parent p)).
      * pose proof (length_parent p Hne). lia.
      * apply Ht. unfold FS.is_dir in Hd.
        destruct (FS.node fs p); [eexists; reflexivity | discriminate].
      * split; [exact Hr |]. exists k. cbn.
        rewrite Hk, app_assoc, removelast_last. reflexivity.
Qed.

(** ** SparseMLWrapper *)

Lemma init_consistent {S : Type} (h : handler sparseE S) (s s' : S)
      (m : NNModule) (r : option string) (w : SparseMLWrapper)
      (tr : list (entry sparseE)) :
  run h (Sparse.init m r) s = (Ok w, s', tr) ->
  enabled w = Sparse.recipe_truthy r /\
  (enabled w = true -> manager w <> None) /\
  (enabled w = false -> manager w = None).
Proof.
  unfold Sparse.init. cbn.
  destruct (Sparse.recipe_truthy r); cbn.
  - destruct (h _ _ s) as [[x | o e |] s1]; cbn; intros H; inversion H; subst.
    cbn. repeat split; congruence.
  - intros H; inversion H; subst. cbn. repeat split; congruence.
Qed.

(** C3, as stated, fails: on a wrapper built without a recipe,
    [initialize_loggers] changes the state of the wrapper, whose [logger]
    attribute goes from [None] to the logger passed. *)
Lemma initialize_loggers_disabled_not_noop :
  run Samples.sparse_env (Sparse.init (PlainModule "yolact") None) tt
    = (Ok Samples.disabled0, tt, []) /\
  exists w',
    run Samples.sparse_env
        (Sparse.initialize_loggers Samples.disabled0 (Some (Obj "logger"))
           (Obj "tb") None 0%Z) tt = (Ok (tt, w'), tt, []) /\
    w' <> Samples.disabled0.
Proof.
  split; [reflexivity |].
  eexists. split; [reflexivity |]. discriminate.
Qed.

(** C3 (amended): a wrapper constructed with an empty or [None] recipe is
    disabled and has no manager, and construction calls no library.  On a
    disabled wrapper every method runs without a single external call and
    without an exception, in every environment; [state_dict] returns the
    recipe [None], [apply] and [initialize] return nothing, [modify],
    [check_lr_override] and [check_epoch_override] return their argument,
    [qat_active] and [reset_best] return [False], and all of them leave
    the wrapper as it was.  [initialize_loggers] stores the logger it is
    given in the [logger] attribute and changes nothing else. *)
Theorem disabled_wrapper_methods {S : Type} (h : handler sparseE S) (s : S)
        (m : NNModule) (r : option string) (w : SparseMLWrapper)
        (lg : option PyObj) (tb scaler optimizer : PyObj)
        (wl : option WandbLogger) (rank : Z) (mdl : NNModule)
        (dl : Dataloader) (sch : option PyObj) (epochs : Z) (epoch : Q) :
  Sparse.recipe_truthy r = false ->
  enabled w = false ->
  run h (Sparse.init m r) s
    = (Ok (MkSparseMLWrapper false
             (if Sparse.is_parallel m then Sparse.module_of m else m)
             r None None), s, []) /\
  run h (Sparse.state_dict w) s = (Ok ([("recipe", None)], w), s, []) /\
  run h (Sparse.apply w) s = (Ok (tt, w), s, []) /\
  run h (Sparse.initialize w epoch) s = (Ok (tt, w), s, []) /\
  run h (Sparse.initialize_loggers w lg tb wl rank) s
    = (Ok (tt, with_logger w lg), s, []) /\
  enabled (with_logger w lg) = enabled w /\
  model (with_logger w lg) = model w /\
  sw_recipe (with_logger w lg) = sw_recipe w /\
  manager (with_logger w lg) = manager w /\
  logger (with_logger w lg) = lg /\
  run h (Sparse.modify w scaler optimizer mdl dl) s = (Ok (scaler, w), s, []) /\
  run h (Sparse.check_lr_override w sch) s = (Ok (sch, w), s, []) /\
  run h (Sparse.check_epoch_override w epochs) s = (Ok (epochs, w), s, []) /\
  run h (Sparse.qat_active w epoch) s = (Ok (false, w), s, []) /\
  run h (Sparse.reset_best w epoch) s = (Ok (false, w), s, []).
Proof.
  intros Hr Hw.
  unfold Sparse.init, Sparse.state_dict, Sparse.apply, Sparse.initialize,
    Sparse.initialize_loggers, Sparse.modify, Sparse.check_lr_override,
    Sparse.check_epoch_override, Sparse.qat_active, Sparse.reset_best.
  cbn. rewrite Hr, Hw. cbn. repeat split; reflexivity.
Qed.

Lemma disabled_wrapper_methods_witness :
  Sparse.recipe_truthy (Some "") = false /\
  enabled Samples.disabled0 = false /\
  run Samples.sparse_env
      (Sparse.modify Samples.disabled0 (Obj "scaler") (Obj "sgd")
                     (PlainModule "yolact") (MkDataloader "train" 100)) tt
    = (Ok (Obj "scaler", Samples.disabled0), tt, []).
Proof.
  split; [reflexivity |]. split; [reflexivity |].
  apply (disabled_wrapper_methods Samples.sparse_env tt (PlainModule "yolact")
           (Some "") Samples.disabled0 None (Obj "tb") (Obj "scaler")
           (Obj "sgd") None 0%Z (PlainModule "yolact")
           (MkDataloader "train" 100) None 0%Z 0%Q); reflexivity.
Defined.

(** C7: on an enabled wrapper each lifecycle method is one call to the
    manager.  Construction with a non-empty recipe is the single call
    [from_yaml(recipe)], whose answer becomes the manager of an enabled
    wrapper.  [apply()] is the single call [manager.apply(self.model)],
    [initialize(start_epoch)] the single call
    [manager.initialize(self.model, start_epoch)], and [modify] the single
    call [manager.modify(model, optimizer, steps_per_epoch=len(dataloader),
    wrap_optim=scaler)] whose answer it returns; the wrapper is left as it
    was and an exception of the manager propagates. *)
Theorem enabled_wrapper_delegates {S : Type} (h : handler sparseE S) (s : S)
        (m : NNModule) (r : string) (w : SparseMLWrapper) (mgr : Manager)
        (epoch : Q) (scaler optimizer : PyObj) (mdl : NNModule)
        (dl : Dataloader) :
  PyStr.truthy r = true ->
  enabled w = true ->
  manager w = Some mgr ->
  run h (Sparse.init m (Some r)) s
    = single h (FromYaml r)
        (fun mg => MkSparseMLWrapper true
                     (if Sparse.is_parallel m then Sparse.module_of m else m)
                     (Some r) (Some mg) None) s /\
  run h (Sparse.apply w) s
    = single h (ManagerApply mgr (model w)) (fun _ => (tt, w)) s /\
  run h (Sparse.initialize w epoch) s
    = single h (ManagerInitialize mgr (model w) epoch) (fun _ => (tt, w)) s /\
  run h (Sparse.modify w scaler optimizer mdl dl) s
    = single h (ManagerModify mgr mdl optimizer (dl_len dl) scaler)
        (fun x => (x, w)) s.
Proof.
  intros Hr Hen Hm.
  unfold Sparse.init, Sparse.apply, Sparse.initialize, Sparse.modify,
    Sparse.the_manager, Sparse.recipe_truthy.
  rewrite Hr, Hen, Hm. unfold single. cbn.
  repeat split;
    match goal with
    | |- context [h ?X ?ev s] =>
        destruct (h X ev s) as [[x | o e |] s1]; reflexivity
    end.
Qed.

Lemma enabled_wrapper_delegates_witness :
  PyStr.truthy "recipe.yaml" = true /\
  enabled Samples.enabled0 = true /\
  manager Samples.enabled0 = Some Samples.quant /\
  run Samples.sparse_env
      (Sparse.modify Samples.enabled0 (Obj "scaler") (Obj "sgd")
                     (DataParallel (PlainModule "yolact"))
                     (MkDataloader "train" 100)) tt
    = (Ok (Obj "wrapped", Samples.enabled0), tt,
       [Entry (ManagerModify Samples.quant
                 (DataParallel (PlainModule "yolact")) (Obj "sgd") 100
                 (Obj "scaler")) (Ok (Obj "wrapped"))]).
Proof.
  repeat (split; [reflexivity |]).
  destruct (enabled_wrapper_delegates Samples.sparse_env tt
              (PlainModule "yolact") "recipe.yaml" Samples.enabled0
              Samples.quant 0%Q (Obj "scaler") (Obj "sgd")
              (DataParallel (PlainModule "yolact"))
              (MkDataloader "train" 100) eq_refl eq_refl eq_refl)
    as (_ & _ & _ & H).
  exact H.
Defined.

(** *** The smallest start epoch *)

Lemma qltb_true (a b : Q) : Sparse.qltb a b = true <-> (a < b)%Q.
Proof.
  unfold Sparse.qltb. rewrite negb_true_iff.
  split.
  - intros H. apply Qnot_le_lt. intros Hle.
    apply Qle_bool_iff in Hle. congruence.
  - intros H. destruct (Qle_bool b a) eqn:E; [| reflexivity].
    apply Qle_bool_iff in E. exfalso. exact (Qlt_not_le _ _ H E).
Qed.

Lemma fold_min_spec (xs : list Q) (x : Q) :
  let m := fold_left (fun m y => if Sparse.qltb y m then y else m) xs x in
  In m (x :: xs) /\ forall y, In y (x :: xs) -> (m <= y)%Q.
Proof.
  revert x. induction xs as [| a xs IH]; intros x; cbn.
  - split; [left; reflexivity |].
    intros y [<- | []]. apply Qle_refl.
  - destruct (Sparse.qltb a x) eqn:E.
    + destruct (IH a) as [Hin Hle]. split.
      * right. exact Hin.
      * intros y [<- | Hy]; [| apply Hle; exact Hy].
        apply qltb_true in E.
        eapply Qle_trans; [apply Hle; left; reflexivity |].
        apply Qlt_le_weak. exact E.
    + destruct (IH x) as [Hin Hle]. split.
      * destruct Hin as [Hin | Hin]; [left; exact Hin | right; right; exact Hin].
      * intros y [<- | [<- | Hy]].
        -- apply Hle. left. reflexivity.
        -- eapply Qle_trans; [apply Hle; left; reflexivity |].
           apply Qnot_lt_le. intros Hlt. apply qltb_true in Hlt. congruence.
        -- apply Hle. right. exact Hy.
Qed.

Lemma py_min_spec (l : list Q) (m : Q) :
  Sparse.py_min l = Some m ->
  In m l /\ forall y, In y l -> (m <= y)%Q.
Proof.
  destruct l as [| x xs]; cbn; [discriminate |].
  intros [= <-]. apply fold_min_spec.
Qed.

(** C10: [qat_active(epoch)] calls nothing and leaves the wrapper alone;
    it answers [True] exactly when the wrapper is enabled, the manager has
    a quantization modifier and the smallest [start_epoch] of these
    modifiers is strictly below [epoch + 1], and [False] otherwise. *)
Theorem qat_active_iff {S : Type} (h : handler sparseE S) (s : S)
        (w : SparseMLWrapper) (epoch : Q) :
  (enabled w = true -> manager w <> None) ->
  exists b : bool,
    run h (Sparse.qat_active w epoch) s = (Ok (b, w), s, []) /\
    (b = true <->
     enabled w = true /\
     exists (mgr : Manager) (q : Q),
       manager w = Some mgr /\
       quantization_modifiers mgr <> [] /\
       In q (List.map start_epoch (quantization_modifiers mgr)) /\
       (forall x, In x (List.map start_epoch (quantization_modifiers mgr)) ->
                  (q <= x)%Q) /\
       (q < epoch + 1)%Q).
Proof.
  intros Hc. unfold Sparse.qat_active, Sparse.the_manager.
  destruct (enabled w) eqn:Hen; cbn.
  - destruct (manager w) as [mgr |] eqn:Hm; [| exfalso; apply Hc; reflexivity].
    cbn. destruct (quantization_modifiers mgr) as [| q0 qs] eqn:Hq; cbn.
    + exists false. split; [reflexivity |]. split; [discriminate |].
      intros (_ & mgr' & q & [= <-] & Hne & _). congruence.
    + pose proof (fold_min_spec (List.map start_epoch qs) (start_epoch q0))
        as [Hin Hle]. cbn zeta in Hin, Hle.
      set (mn := fold_left _ _ _) in *.
      exists (Sparse.qltb mn (epoch + 1)). split; [reflexivity |].
      rewrite qltb_true. split.
      * intros Hlt. split; [reflexivity |].
        exists mgr, mn. rewrite Hq. cbn.
        repeat split; try assumption. discriminate.
      * intros (_ & mgr' & q & [= <-] & _ & Hqin & Hqle & Hlt).
        rewrite Hq in Hqin, Hqle. cbn in Hqin, Hqle.
        eapply Qle_lt_trans; [apply Hle; exact Hqin | exact Hlt].
  - exists false. split; [reflexivity |]. split; [discriminate |].
    intros [? _]. discriminate.
Qed.

Lemma qat_active_iff_witness :
  (enabled Samples.enabled0 = true -> manager Samples.enabled0 <> None) /\
  exists b : bool,
    run Samples.sparse_env (Sparse.qat_active Samples.enabled0 1) tt
      = (Ok (b, Samples.enabled0), tt, []) /\
    (b = true <->
     enabled Samples.enabled0 = true /\
     exists (mgr : Manager) (q : Q),
       manager Samples.enabled0 = Some mgr /\
       quantization_modifiers mgr <> [] /\
       In q (List.map start_epoch (quantization_modifiers mgr)) /\
       (forall x, In x (List.map start_epoch (quantization_modifiers mgr)) ->
                  (q <= x)%Q) /\
       (q < 1 + 1)%Q).
Proof.
  split; [discriminate |].
  apply (qat_active_iff Samples.sparse_env tt Samples.enabled0 1).
  discriminate.
Defined.

(** ** DeepsparseWrapper *)

Lemma run_call {E : Type -> Type} {X S : Type} (h : handler E S)
      (ev : E X) (s : S) :
  run h (call ev) s = single h ev (fun x => x) s.
Proof.
  unfold single. cbn. destruct (h X ev s) as [[x | o e |] s1]; reflexivity.
Qed.

(** One step of a successful run: the next call was answered. *)
Ltac answer h H :=
  unfold mbind, prog_bind in H;
  rewrite run_bind, run_call in H; unfold single in H;
  match type of H with
  | context [h ?X ?ev ?s] =>
      let x := fresh "x" in
      let s1 := fresh "s" in
      destruct (h X ev s) as [[x | ? ? |] s1];
      cbn [outcome_map obind app] in H; try discriminate H
  end.

Lemma run_zip_map {S : Type} (h : handler wrapperE S) (ks : list string) :
  forall (vals : list PyObj) (s s' : S) (pairs : list (string * PyObj))
         (tr : list (entry wrapperE)),
    run h (Wrapper.zip_map ks vals) s = (Ok pairs, s', tr) ->
    exists tensors : list PyObj,
      length tensors = Nat.min (length ks) (length vals) /\
      pairs = combine ks tensors /\
      tr = Wrapper.from_numpy_entries vals tensors.
Proof.
  induction ks as [| k ks IH]; intros vals s s' pairs tr H.
  - cbn in H. inversion H; subst. exists []. repeat split.
    destruct vals; reflexivity.
  - destruct vals as [| v vals]; cbn [Wrapper.zip_map] in H.
    + cbn in H. inversion H; subst. exists []. repeat split.
    + answer h H.
      rewrite run_bind in H.
      destruct (run h (Wrapper.zip_map ks vals) s0) as [[[ps | ? ? |] s2] tr2]
        eqn:E; cbn in H; try discriminate H.
      inversion H; subst.
      destruct (IH _ _ _ _ _ E) as (ts & Hlen & -> & ->).
      exists (x :: ts). cbn. rewrite Hlen, app_nil_r. repeat split.
Qed.

Lemma dict_of_keys (tensors : list PyObj) (i : nat) (k : string) :
  length tensors <= 5 ->
  Wrapper.keys !! i = Some k ->
  Wrapper.dict_get (Wrapper.dict (combine Wrapper.keys tensors)) k
    = tensors !! i.
Proof.
  intros Hlen Hk.
  destruct tensors as [| t0 [| t1 [| t2 [| t3 [| t4 [| t5 ts]]]]]];
    cbn in Hlen; try lia;
    do 5 (destruct i as [| i]; [inversion Hk; subst; reflexivity |]);
    discriminate Hk.
Qed.

Lemma dict_keys_order (tensors : list PyObj) :
  length tensors <= 5 ->
  List.map fst (Wrapper.dict (combine Wrapper.keys tensors))
    = firstn (length tensors) Wrapper.keys.
Proof.
  intros Hlen.
  destruct tensors as [| t0 [| t1 [| t2 [| t3 [| t4 [| t5 ts]]]]]];
    cbn in Hlen; try lia; reflexivity.
Qed.

(** C4: in every run of [__call__] that returns, the calls made are, in
    this order: [inputs.cpu().numpy()], answered by [batch];
    [engine.mapped_run([batch])], answered by [outs]; [torch.from_numpy] on
    the values of [outs], one per name; and the detection routine on the
    dictionary built from them and on the wrapper itself, whose answer is
    the value returned.  The dictionary lists the names loc, conf, mask,
    priors, proto in that order, the i-th name bound to the tensor made
    from the i-th output of the engine. *)
Theorem deepsparse_call_sequence {S : Type} (h : handler wrapperE S)
        (w : DeepsparseWrapper) (inputs r : PyObj) (s s' : S)
        (tr : list (entry wrapperE)) :
  run h (Wrapper.call_ w inputs) s = (Ok r, s', tr) ->
  exists (batch : PyObj) (outs d : list (string * PyObj))
         (tensors : list PyObj),
    tr = (Entry (CpuNumpy inputs) (Ok batch)
          :: Entry (MappedRun (engine w) [batch]) (Ok outs)
          :: Wrapper.from_numpy_entries (List.map snd outs) tensors
          ++ [Entry (Detect (detect w) d w) (Ok r)])%list /\
    length tensors = Nat.min 5 (length outs) /\
    List.map fst d = firstn (length tensors) Wrapper.keys /\
    forall (i : nat) (k : string),
      Wrapper.keys !! i = Some k -> Wrapper.dict_get d k = tensors !! i.
Proof.
  intros H. unfold Wrapper.call_ in H.
  answer h H. answer h H.
  rewrite run_bind in H.
  destruct (run h (Wrapper.zip_map Wrapper.keys (List.map snd x0)) s1)
    as [[[ps | ? ? |] s2] tr2] eqn:E; try discriminate H.
  rewrite run_call in H. unfold single in H.
  destruct (h _ _ s2) as [[y | ? ? |] s3]; cbn in H; try discriminate H.
  inversion H; subst.
  destruct (run_zip_map _ _ _ _ _ _ _ E) as (ts & Hlen & -> & ->).
  rewrite length_map in Hlen.
  change (length Wrapper.keys) with 5 in Hlen.
  assert (length ts <= 5) by lia.
  exists x, x0, (Wrapper.dict (combine Wrapper.keys ts)), ts.
  split; [| split; [exact Hlen | split]].
  - reflexivity.
  - apply dict_keys_order. assumption.
  - intros i k. apply dict_of_keys. assumption.
Qed.

Lemma deepsparse_call_sequence_witness :
  run Samples.engine_env (Wrapper.call_ Samples.ds0 (Obj "img")) tt
    = (Ok (Obj "detections"), tt,
       [Entry (CpuNumpy (Obj "img")) (Ok (Obj "np:img"));
        Entry (MappedRun (Obj "engine") [Obj "np:img"])
              (Ok [("output_0", Obj "a0"); ("output_1", Obj "a1");
                   ("output_2", Obj "a2"); ("output_3", Obj "a3");
                   ("output_4", Obj "a4")]);
        Entry (FromNumpy (Obj "a0")) (Ok (Obj "torch:a0"));
        Entry (FromNumpy (Obj "a1")) (Ok (Obj "torch:a1"));
        Entry (FromNumpy (Obj "a2")) (Ok (Obj "torch:a2"));
        Entry (FromNumpy (Obj "a3")) (Ok (Obj "torch:a3"));
        Entry (FromNumpy (Obj "a4")) (Ok (Obj "torch:a4"));
        Entry (Detect (Obj "detect")
                 [("loc", Obj "torch:a0"); ("conf", Obj "torch:a1");
                  ("mask", Obj "torch:a2"); ("priors", Obj "torch:a3");
                  ("proto", Obj "torch:a4")] Samples.ds0)
              (Ok (Obj "detections"))]) /\
  exists (batch : PyObj) (outs d : list (string * PyObj))
         (tensors : list PyObj),
    length tensors = Nat.min 5 (length outs) /\
    List.map fst d = firstn (length tensors) Wrapper.keys /\
    forall (i : nat) (k : string),
      Wrapper.keys !! i = Some k -> Wrapper.dict_get d k = tensors !! i.
Proof.
  split; [reflexivity |].
  destruct (deepsparse_call_sequence Samples.engine_env Samples.ds0
              (Obj "img") (Obj "detections") tt tt _ eq_refl)
    as (batch & outs & d & tensors & _ & H).
  exists batch, outs, d, tensors. exact H.
Defined.

(** ** export *)

(** C5: in every run of [export] that returns, the library calls are, in
    this order: the configuration is selected and a fresh model is built;
    the recipe is loaded and applied to that model, if and only if the
    recipe argument is not [None]; the checkpoint is loaded and its
    weights are put into the model; a sample batch of shape
    [(batch_size, *image_shape)] is drawn and the model is exported to the
    output name with [convert_qat = not no_qat].  Of these calls, the
    three operations of the export are the application of the recipe
    (when there is one), the loading of the weights and the export, in
    that order: the weights are loaded after the recipe is applied and
    before the export. *)
Theorem export_call_sequence {S : Type} (h : handler exportE S)
        (args : ExportArgs) (s s' : S) (u : unit)
        (tr : list (entry exportE)) :
  run h (ExportRun.export args) s = (Ok u, s', tr) ->
  exists (mdl : NNModule) (state sample : PyObj)
         (applied : list (entry exportE)),
    tr = ([Entry (SetCfg (config args)) (Ok tt);
           Entry NewYolact (Ok mdl)]
          ++ applied
          ++ [Entry (LoggingDebug ("Loading state dict from checkpoint "
                                     ++ Pathlib.to_str (checkpoint args))%string)
                    (Ok tt);
              Entry (TorchLoad (checkpoint args)) (Ok state);
              Entry (LoadStateDict mdl state) (Ok tt);
              Entry (TorchRandn (batch_size args :: image_shape args))
                    (Ok sample);
              Entry (ExportOnnx mdl sample (Pathlib.to_str (name args))
                                (negb (no_qat args))) (Ok tt);
              Entry (LoggingInfo ("Model checkpoint exported to "
                                    ++ Pathlib.to_str (name args))%string)
                    (Ok tt)])%list /\
    match recipe args with
    | None => applied = []
    | Some file =>
        exists mgr : Manager,
          applied = [Entry (ManagerFromYaml file) (Ok mgr);
                     Entry (ManagerApplyTo mgr mdl) (Ok tt)]
    end /\
    omap ExportRun.step_of tr
      = (match recipe args with
         | Some _ => [ApplyRecipe]
         | None => []
         end ++ [LoadWeights; ExportModel])%list.
Proof.
  intros H. unfold ExportRun.export in H.
  answer h H. answer h H.
  unfold mbind, prog_bind in H. rewrite run_bind in H.
  destruct (recipe args) as [file |].
  - answer h H. rewrite run_call in H. unfold single in H.
    destruct (h _ (ManagerApplyTo _ _) _) as [[y | ? ? |] s3];
      cbn [outcome_map obind app] in H; try discriminate H.
    do 5 answer h H.
    rewrite run_call in H. unfold single in H.
    destruct (h _ (LoggingInfo _) _) as [[z | ? ? |] s9];
      cbn [outcome_map obind app] in H; try discriminate H.
    inversion H; subst.
    repeat match goal with v : unit |- _ => destruct v end.
    eexists _, _, _, _.
    split; [| split; [eexists; reflexivity | reflexivity]]. reflexivity.
  - cbn [run] in H. do 5 answer h H.
    rewrite run_call in H. unfold single in H.
    destruct (h _ (LoggingInfo _) _) as [[z | ? ? |] s9];
      cbn [outcome_map obind app] in H; try discriminate H.
    inversion H; subst.
    repeat match goal with v : unit |- _ => destruct v end.
    eexists _, _, _, _.
    split; [| split; reflexivity]. reflexivity.
Qed.

Lemma export_call_sequence_witness :
  run Samples.export_env (ExportRun.export Samples.args0) tt
    = (Ok tt, tt,
       [Entry (SetCfg "yolact_base_config") (Ok tt);
        Entry NewYolact (Ok (PlainModule "yolact"));
        Entry (ManagerFromYaml "recipe.yaml") (Ok Samples.quant);
        Entry (ManagerApplyTo Samples.quant (PlainModule "yolact")) (Ok tt);
        Entry (LoggingDebug
                 "Loading state dict from checkpoint ckpt/model.pth") (Ok tt);
        Entry (TorchLoad (MkPath "" ["ckpt"; "model.pth"]))
              (Ok (Obj "state_dict"));
        Entry (LoadStateDict (PlainModule "yolact") (Obj "state_dict"))
              (Ok tt);
        Entry (TorchRandn [1; 3; 550; 550]%Z) (Ok (Obj "sample"));
        Entry (ExportOnnx (PlainModule "yolact") (Obj "sample")
                 "out/model-2.onnx" true) (Ok tt);
        Entry (LoggingInfo "Model checkpoint exported to out/model-2.onnx")
              (Ok tt)]) /\
  exists (mdl : NNModule) (applied : list (entry exportE)),
    match recipe Samples.args0 with
    | None => applied = []
    | Some file =>
        exists mgr : Manager,
          applied = [Entry (ManagerFromYaml file) (Ok mgr);
                     Entry (ManagerApplyTo mgr mdl) (Ok tt)]
    end.
Proof.
  split; [reflexivity |].
  destruct (export_call_sequence Samples.export_env Samples.args0 tt tt tt _
              eq_refl) as (mdl & state & sample & applied & _ & H & _).
  exists mdl, applied. exact H.
Defined.

(** ** The output name *)

Lemma exists_candidate (fs : gmap Path kind) (sdir : Path) (f : string) (k : N) :
  FS.exists_ fs (ExportPy.candidate_path sdir f k) = true <->
  is_Some (fs !! ExportPy.candidate_path sdir f k).
Proof.
  unfold FS.exists_, FS.node, ExportPy.candidate_path. cbn [parts].
  destruct (parts sdir ++ [ExportPy.candidate f k])%list eqn:E.
  - apply app_eq_nil in E as [_ E]. discriminate E.
  - destruct (fs !! _); split; intros H; try reflexivity; try discriminate H.
    + eexists; reflexivity.
    + destruct H as [? H]. discriminate H.
Qed.

Lemma candidate_path_inj (sdir : Path) (f : string) (j k : N) :
  j <> 0%N -> k <> 0%N ->
  ExportPy.candidate_path sdir f j = ExportPy.candidate_path sdir f k -> j = k.
Proof.
  intros Hj Hk H. injection H as H. apply app_inj_tail in H as [_ H].
  exact (candidate_inj f j k Hj Hk H).
Qed.

(** A finite file system cannot hold all of the names [f-1.onnx], ...,
    [f-(n+1).onnx] when it has [n] entries. *)
Lemma free_candidate (fs : gmap Path kind) (sdir : Path) (f : string) :
  exists j : N,
    (1 <= j <= N.of_nat (S (size fs)))%N /\
    FS.exists_ fs (ExportPy.candidate_path sdir f j) = false.
Proof.
  set (g := fun i : nat => ExportPy.candidate_path sdir f (N.of_nat (S i))).
  set (l := g <$> seq 0 (S (size fs))).
  destruct (Forall_Exists_dec (fun p => is_Some (fs !! p))
              (fun p => fs !! p = None)
              (fun p => match fs !! p as o
                              return {is_Some o} + {o = None} with
                        | Some x => left (ex_intro _ x eq_refl)
                        | None => right eq_refl
                        end) l) as [Hall | Hex].
  - exfalso.
    assert (NoDup l) as Hnd.
    { apply NoDup_fmap_2_strong; [| apply NoDup_seq].
      intros x y _ _ E. apply candidate_path_inj in E; lia. }
    assert (l ⊆+ elements (dom fs)) as Hsub.
    { apply NoDup_submseteq; [exact Hnd |].
      intros p Hp. apply elem_of_elements, elem_of_dom.
      rewrite Forall_forall in Hall. apply Hall. exact Hp. }
    apply submseteq_length in Hsub.
    unfold l in Hsub. rewrite length_fmap, length_seq in Hsub.
    change (length (elements (dom fs))) with (size (dom fs)) in Hsub.
    rewrite size_dom in Hsub. lia.
  - apply Exists_exists in Hex as (p & Hp & Hnone).
    apply list_elem_of_fmap in Hp as (i & -> & Hi).
    apply elem_of_seq in Hi.
    exists (N.of_nat (S i)). split; [lia |].
    destruct (FS.exists_ fs (g i)) eqn:E; [| exact E].
    apply exists_candidate in E. destruct E as [x E].
    unfold g in Hnone. congruence.
Qed.

Lemma candidate_succ (f : string) (k : N) :
  ExportPy.candidate f (k + 1) = (f ++ "-" ++ pretty (k + 1)%N ++ ".onnx")%string.
Proof.
  unfold ExportPy.candidate. destruct (k + 1)%N eqn:E; [lia | reflexivity].
Qed.

Lemma next_name (sdir : Path) (f : string) (k : N) :
  PyStr.contains Pathlib.sep f = false ->
  Pathlib.truediv (Pathlib.parent (ExportPy.candidate_path sdir f k))
    (f ++ "-" ++ pretty (k + 1)%N ++ ".onnx")
  = ExportPy.candidate_path sdir f (k + 1).
Proof.
  intros Hf. unfold ExportPy.candidate_path. rewrite parent_snoc.
  rewrite <- candidate_succ.
  rewrite truediv_component by (apply candidate_component, Hf).
  reflexivity.
Qed.

(** The loop stops at the first counter whose name is free, provided one
    is within reach of the iterations allowed. *)
Lemma safe_loop_spec (fs : gmap Path kind) (sdir : Path) (f : string) :
  PyStr.contains Pathlib.sep f = false ->
  forall (fuel : nat) (k : N),
    (exists j : N, (k <= j <= k + N.of_nat fuel)%N /\
                   FS.exists_ fs (ExportPy.candidate_path sdir f j) = false) ->
    exists j : N,
      (k <= j)%N /\
      ExportPy.safe_loop fuel fs f (ExportPy.candidate_path sdir f k) k
        = Ok (ExportPy.candidate_path sdir f j) /\
      FS.exists_ fs (ExportPy.candidate_path sdir f j) = false /\
      forall i : N, (k <= i < j)%N ->
                    FS.exists_ fs (ExportPy.candidate_path sdir f i) = true.
Proof.
  intros Hf. induction fuel as [| fuel IH]; intros k (j & Hj & Hfree).
  - assert (j = k) as -> by lia.
    exists k. cbn. rewrite Hfree.
    split; [lia | split; [reflexivity | split; [reflexivity | intros; lia]]].
  - cbn [ExportPy.safe_loop].
    destruct (FS.exists_ fs (ExportPy.candidate_path sdir f k)) eqn:E.
    + rewrite next_name by exact Hf.
      destruct (IH (k + 1)%N) as (j' & Hj' & Hrun & Hfree' & Hbusy).
      { exists j. split; [| exact Hfree].
        assert (j <> k) by (intros ->; congruence). lia. }
      exists j'.
      split; [lia | split; [exact Hrun | split; [exact Hfree' |]]].
      intros i Hi. destruct (decide (i = k)) as [-> | Hne]; [exact E |].
      apply Hbusy. lia.
    + exists k.
      split; [lia | split; [reflexivity | split; [exact E | intros; lia]]].
Qed.

Lemma filename_no_sep (ckpt : Path) (nm : option string) (f : string) :
  ExportPy.filename_of ckpt nm = Ok f ->
  PyStr.contains Pathlib.sep f = false.
Proof.
  unfold ExportPy.filename_of. intros H.
  assert (exists s, f = Pathlib.stem (Pathlib.of_str s)) as [s ->].
  { destruct nm as [s |]; [destruct (PyStr.truthy s) |];
      cbn [obind] in H;
      try (destruct (Pathlib.with_suffix ckpt ".onnx") as [q | |];
           cbn [obind] in H; try discriminate H);
      injection H as <-; eexists; reflexivity. }
  apply stem_no_sep, of_str_parts.
Qed.

Lemma filename_errors (ckpt : Path) (nm : option string) :
  match ExportPy.filename_of ckpt nm with
  | Ok _ => True
  | Raised o e => o = ByLibrary /\ e = ValueError
  | OutOfFuel => False
  end.
Proof.
  unfold ExportPy.filename_of, Pathlib.with_suffix.
  destruct nm as [s |]; [destruct (PyStr.truthy s) |]; cbn [obind]; auto;
    destruct (negb (PyStr.truthy (Pathlib.name ckpt))); cbn [obind]; auto.
Qed.

(** [get_safe_name] always ends: with the least counter whose name is
    free, unless the stem cannot be computed. *)
Lemma get_safe_name_spec (fs : gmap Path kind) (ckpt sdir : Path)
      (nm : option string) :
  match ExportPy.filename_of ckpt nm with
  | Ok f =>
      exists k : N,
        ExportPy.get_safe_name fs ckpt sdir nm
          = Ok (ExportPy.candidate_path sdir f k) /\
        FS.exists_ fs (ExportPy.candidate_path sdir f k) = false /\
        forall j : N, (j < k)%N ->
                      FS.exists_ fs (ExportPy.candidate_path sdir f j) = true
  | Raised o e =>
      ExportPy.get_safe_name fs ckpt sdir nm = Raised o e /\
      o = ByLibrary /\ e = ValueError
  | OutOfFuel => False
  end.
Proof.
  pose proof (filename_errors ckpt nm) as He.
  unfold ExportPy.get_safe_name, ExportPy.get_safe_name_fuel.
  destruct (ExportPy.filename_of ckpt nm) as [f | o e |] eqn:Hf;
    cbn [obind]; [| tauto | exact He].
  pose proof (filename_no_sep _ _ _ Hf) as Hsep.
  rewrite truediv_component by (apply onnx_component, Hsep).
  change (MkPath (root sdir) (parts sdir ++ [(f ++ ".onnx")%string])%list)
    with (ExportPy.candidate_path sdir f 0).
  destruct (free_candidate fs sdir f) as (j & Hj & Hfree).
  destruct (safe_loop_spec fs sdir f Hsep (S (size fs)) 0%N)
    as (k & _ & Hrun & Hk & Hbusy).
  { exists j. split; [lia | exact Hfree]. }
  exists k. split; [exact Hrun | split; [exact Hk |]].
  intros i Hi. apply Hbusy. lia.
Qed.

(** ** The default stem *)

Lemma str_app_nil_r (a : string) : (a ++ "")%string = a.
Proof.
  induction a as [| x a IH]; [reflexivity |]. rewrite sapp_cons, IH. reflexivity.
Qed.

Lemma truthy_nonempty (s : string) : PyStr.truthy s = true <-> s <> "".
Proof. destruct s; simpl; split; congruence. Qed.

Lemma suffix_pos_bounds (nm : string) (i : nat) :
  Pathlib.suffix_pos nm = Some i -> 0 < i /\ i < String.length nm - 1.
Proof.
  unfold Pathlib.suffix_pos. destruct (PyStr.rfind Pathlib.dot nm) as [j |];
    [| discriminate].
  destruct (Nat.ltb 0 j) eqn:E1; [| discriminate].
  destruct (Nat.ltb j (String.length nm - 1)) eqn:E2; [| discriminate].
  cbn. intros [= <-].
  apply Nat.ltb_lt in E1. apply Nat.ltb_lt in E2. lia.
Qed.

(** the stem of [base.onnx] is [base] *)
Lemma stem_onnx (base : string) :
  base <> "" -> PyStr.contains Pathlib.sep base = false ->
  Pathlib.stem (Pathlib.of_str (base ++ ".onnx")) = base.
Proof.
  intros Hne Hsep.
  rewrite of_str_component by (apply onnx_component, Hsep).
  unfold Pathlib.stem.
  change (Pathlib.name (MkPath "" [(base ++ ".onnx")%string]))
    with (base ++ ".onnx")%string.
  unfold Pathlib.suffix_pos. rewrite rfind_app. change (PyStr.rfind Pathlib.dot ".onnx") with (Some 0).
  rewrite str_length_app. change (String.length ".onnx") with 5.
  assert (0 < String.length base) as Hlen.
  { destruct base; [congruence | simpl; lia]. }
  rewrite Nat.add_0_r.
  destruct (Nat.ltb_spec 0 (String.length base)); [| lia].
  destruct (Nat.ltb_spec (String.length base) (String.length base + 5 - 1));
    [| lia].
  cbn [andb]. apply take_app.
Qed.

(** [with_suffix(".onnx")] followed by [name] and [stem] gives back the
    name without its suffix *)
Lemma with_suffix_stem (p q : Path) :
  Forall Pathlib.component (parts p) ->
  Pathlib.with_suffix p ".onnx" = Ok q ->
  exists base : string,
    Pathlib.stem (Pathlib.of_str (Pathlib.name q)) = base /\
    Pathlib.name p = (base ++ Pathlib.suffix p)%string /\
    Pathlib.name q = (base ++ ".onnx")%string /\
    base <> "".
Proof.
  intros Hp. unfold Pathlib.with_suffix.
  destruct (PyStr.truthy (Pathlib.name p)) eqn:Hn; cbn [negb]; [| discriminate].
  apply truthy_nonempty in Hn.
  pose proof (name_no_sep p Hp) as Hsep.
  intros [= <-]. rewrite !name_snoc.
  unfold Pathlib.suffix.
  destruct (Pathlib.suffix_pos (Pathlib.name p)) as [i |] eqn:Hpos.
  - destruct (suffix_pos_bounds _ _ Hpos) as [Hi1 Hi2].
    assert (PyStr.truthy (PyStr.drop i (Pathlib.name p)) = true) as ->.
    { apply truthy_nonempty. intros E. apply (f_equal String.length) in E.
      rewrite length_drop in E. simpl in E. lia. }
    cbn [negb]. rewrite length_drop.
    replace (String.length (Pathlib.name p) - (String.length (Pathlib.name p) - i))
      with i by lia.
    assert (PyStr.take i (Pathlib.name p) <> "") as Hb.
    { intros E. apply (f_equal String.length) in E.
      rewrite length_take in E. simpl in E. lia. }
    exists (PyStr.take i (Pathlib.name p)).
    split; [apply stem_onnx; [exact Hb | apply contains_take, Hsep] |].
    split; [symmetry; apply take_drop |]. split; [reflexivity | exact Hb].
  - cbn [PyStr.truthy negb]. exists (Pathlib.name p).
    split; [apply stem_onnx; assumption |].
    split; [symmetry; apply str_app_nil_r |]. split; [reflexivity | exact Hn].
Qed.

(** ** ExportArgs *)

Lemma post_init_ok (fs fs' : gmap Path kind) (ns : Namespace) (a : ExportArgs) :
  ExportPy.post_init fs ns = Ok (fs', a) ->
  FS.exists_ fs (Pathlib.of_str (ns_checkpoint ns)) = true /\
  FS.mkdir fs (Pathlib.of_str (ns_save_dir ns)) = Ok fs' /\
  checkpoint a = Pathlib.of_str (ns_checkpoint ns) /\
  save_dir a = Pathlib.of_str (ns_save_dir ns) /\
  ExportPy.get_safe_name fs' (checkpoint a) (save_dir a) (ns_name ns)
    = Ok (name a).
Proof.
  unfold ExportPy.post_init.
  destruct (FS.exists_ fs (Pathlib.of_str (ns_checkpoint ns)));
    cbn [negb]; [| discriminate].
  destruct (FS.mkdir fs (Pathlib.of_str (ns_save_dir ns))) as [fs1 | |];
    cbn [obind]; try discriminate.
  destruct (ExportPy.get_safe_name fs1 _ _ _) as [nm | |] eqn:E;
    cbn [obind]; try discriminate.
  intros [= <- <-]. cbn. auto.
Qed.

Lemma post_init_total (fs : gmap Path kind) (ns : Namespace) :
  ExportPy.post_init fs ns <> OutOfFuel.
Proof.
  unfold ExportPy.post_init.
  destruct (FS.exists_ fs _); cbn [negb]; [| discriminate].
  pose proof (mkdir_spec fs (Pathlib.of_str (ns_save_dir ns))) as Hm.
  destruct (FS.mkdir fs _) as [fs1 | |]; cbn [obind];
    [| discriminate | contradiction].
  pose proof (get_safe_name_spec fs1 (Pathlib.of_str (ns_checkpoint ns))
                (Pathlib.of_str (ns_save_dir ns)) (ns_name ns)) as Hg.
  destruct (ExportPy.filename_of _ _) as [f | o e |]; [| | contradiction].
  - destruct Hg as (k & -> & _). discriminate.
  - destruct Hg as (-> & _). discriminate.
Qed.

Lemma output_name_fresh_aux (fs fs' : gmap Path kind) (ns : Namespace)
      (a : ExportArgs) :
  ExportPy.post_init fs ns = Ok (fs', a) ->
  exists (f : string) (k : N),
    ExportPy.filename_of (checkpoint a) (ns_name ns) = Ok f /\
    name a = ExportPy.candidate_path (save_dir a) f k.
Proof.
  intros H. apply post_init_ok in H as (_ & _ & _ & _ & Hn).
  pose proof (get_safe_name_spec fs' (checkpoint a) (save_dir a) (ns_name ns))
    as Hg.
  destruct (ExportPy.filename_of _ _) as [f | o e |]; [| | contradiction].
  - destruct Hg as (k & Hrun & _). rewrite Hrun in Hn. injection Hn as Hn.
    exists f, k. split; [reflexivity | symmetry; exact Hn].
  - destruct Hg as (Hrun & _). congruence.
Qed.

(** C1: constructing [ExportArgs] always ends, and when it succeeds the
    output name is [save_dir/<stem>.onnx] or [save_dir/<stem>-k.onnx]: a
    path directly inside [save_dir], whose file name ends in [.onnx],
    that does not exist in the file system at the time of return.  The
    counter [k] is the least one whose name is free ([k = 0] stands for
    the name without counter), so an existing file is never chosen. *)
Theorem output_name_fresh (fs : gmap Path kind) (ns : Namespace) :
  ExportPy.post_init fs ns <> OutOfFuel /\
  forall (fs' : gmap Path kind) (a : ExportArgs),
    ExportPy.post_init fs ns = Ok (fs', a) ->
    exists (stem : string) (k : N),
      ExportPy.filename_of (checkpoint a) (ns_name ns) = Ok stem /\
      name a = ExportPy.candidate_path (save_dir a) stem k /\
      FS.exists_ fs' (name a) = false /\
      (forall j : N, (j < k)%N ->
         FS.exists_ fs' (ExportPy.candidate_path (save_dir a) stem j) = true) /\
      Pathlib.parent (name a) = save_dir a /\
      PyStr.endswith ".onnx" (Pathlib.name (name a)) = true.
Proof.
  split; [apply post_init_total |].
  intros fs' a H. apply post_init_ok in H as (_ & _ & _ & _ & Hn).
  pose proof (get_safe_name_spec fs' (checkpoint a) (save_dir a) (ns_name ns))
    as Hg.
  destruct (ExportPy.filename_of _ _) as [f | o e |]; [| | contradiction].
  - destruct Hg as (k & Hrun & Hfree & Hbusy).
    rewrite Hrun in Hn. injection Hn as Hn.
    exists f, k. rewrite <- Hn.
    split; [reflexivity |]. split; [reflexivity |].
    split; [exact Hfree |]. split; [exact Hbusy |].
    unfold ExportPy.candidate_path. rewrite parent_snoc, name_snoc.
    split; [destruct (save_dir a); reflexivity | apply candidate_endswith].
  - destruct Hg as (Hrun & _). congruence.
Qed.

Lemma output_name_fresh_witness :
  outcome_map (fun r => name (snd r))
              (ExportPy.post_init Samples.fs0 Samples.ns0)
    = Ok (MkPath "" ["out"; "model-2.onnx"]) /\
  exists (fs' : gmap Path kind) (a : ExportArgs) (stem : string) (k : N),
    ExportPy.post_init Samples.fs0 Samples.ns0 = Ok (fs', a) /\
    name a = ExportPy.candidate_path (save_dir a) stem k /\
    FS.exists_ fs' (name a) = false.
Proof.
  split; [vm_compute; reflexivity |].
  assert (is_ok (ExportPy.post_init Samples.fs0 Samples.ns0) = true) as Hok
    by (vm_compute; reflexivity).
  destruct (ExportPy.post_init Samples.fs0 Samples.ns0) as [[fs' a] | o e |]
    eqn:H; try discriminate Hok.
  destruct (output_name_fresh Samples.fs0 Samples.ns0) as [_ Hw].
  destruct (Hw fs' a H) as (stem & k & _ & Hn & Hfree & _).
  exists fs', a, stem, k. split; [reflexivity | split; [exact Hn | exact Hfree]].
Defined.

(** C8: a successful construction leaves [save_dir] as a directory of
    the file system; nothing that existed is changed, and what is new is a
    directory on the way to [save_dir] (in a tree-shaped file system every
    parent of [save_dir] is then a directory).  When [save_dir] already is
    a directory the construction does not fail for it and the file system
    stays as it was; when it is absent and no regular file is in the way,
    it is created and the construction succeeds. *)
Theorem save_dir_created (fs : gmap Path kind) (ns : Namespace) :
  (forall (fs' : gmap Path kind) (a : ExportArgs),
     ExportPy.post_init fs ns = Ok (fs', a) ->
     save_dir a = Pathlib.of_str (ns_save_dir ns) /\
     FS.is_dir fs' (save_dir a) = true /\
     FS.extends fs fs' (save_dir a) /\
     (FS.tree fs ->
      forall q : Path, Pathlib.above q (save_dir a) -> FS.is_dir fs' q = true)) /\
  (forall stem : string,
     FS.exists_ fs (Pathlib.of_str (ns_checkpoint ns)) = true ->
     ExportPy.filename_of (Pathlib.of_str (ns_checkpoint ns)) (ns_name ns)
       = Ok stem ->
     (FS.is_dir fs (Pathlib.of_str (ns_save_dir ns)) = true ->
      exists a : ExportArgs, ExportPy.post_init fs ns = Ok (fs, a)) /\
     ((forall q : Path, Pathlib.above q (Pathlib.of_str (ns_save_dir ns)) ->
                        FS.node fs q <> Some File) ->
      exists (fs' : gmap Path kind) (a : ExportArgs),
        ExportPy.post_init fs ns = Ok (fs', a))).
Proof.
  split.
  - intros fs' a H. apply post_init_ok in H as (_ & Hm & _ & Hs & _).
    pose proof (mkdir_spec fs (Pathlib.of_str (ns_save_dir ns))) as Hspec.
    rewrite Hm in Hspec. destruct Hspec as (Hd & Hext & Ht).
    rewrite Hs. split; [reflexivity | split; [exact Hd | split; [exact Hext |]]].
    intros Htree q Hq.
    eapply tree_above; [apply Ht, Htree | exact Hd | exact Hq].
  - intros stem Hck Hf.
    assert (forall fs1, FS.mkdir fs (Pathlib.of_str (ns_save_dir ns)) = Ok fs1 ->
                        exists a, ExportPy.post_init fs ns = Ok (fs1, a)) as Hgo.
    { intros fs1 Hm. unfold ExportPy.post_init. rewrite Hck, Hm. cbn [negb obind].
      pose proof (get_safe_name_spec fs1 (Pathlib.of_str (ns_checkpoint ns))
                    (Pathlib.of_str (ns_save_dir ns)) (ns_name ns)) as Hg.
      rewrite Hf in Hg. destruct Hg as (k & -> & _). cbn [obind].
      eexists. reflexivity. }
    split.
    + intros Hd. apply Hgo, mkdir_existing, Hd.
    + intros Hfree.
      pose proof (mkdir_spec fs (Pathlib.of_str (ns_save_dir ns))) as Hspec.
      destruct (FS.mkdir fs _) as [fs1 | o e |]; [| | contradiction].
      * exists fs1. apply Hgo. reflexivity.
      * exfalso. destruct Hspec as (_ & _ & q & Hq & Hfile).
        exact (Hfree q Hq Hfile).
Qed.

Lemma save_dir_created_witness :
  FS.is_dir Samples.fs0 (MkPath "" ["runs"; "exp"; "onnx"]) = false /\
  exists (fs' : gmap Path kind) (a : ExportArgs),
    ExportPy.post_init Samples.fs0
      (MkNamespace "ckpt/model.pth" "yolact_base_config" None false 1
                   [3; 550; 550]%Z "runs/exp/onnx" None) = Ok (fs', a) /\
    FS.is_dir fs' (MkPath "" ["runs"; "exp"; "onnx"]) = true.
Proof.
  split; [vm_compute; reflexivity |].
  set (ns := MkNamespace "ckpt/model.pth" "yolact_base_config" None false 1
                         [3; 550; 550]%Z "runs/exp/onnx" None).
  assert (is_ok (ExportPy.post_init Samples.fs0 ns) = true) as Hok
    by (vm_compute; reflexivity).
  destruct (ExportPy.post_init Samples.fs0 ns) as [[fs' a] | o e |] eqn:H;
    try discriminate Hok.
  destruct (save_dir_created Samples.fs0 ns) as [Hw _].
  destruct (Hw fs' a H) as (Hs & Hd & _).
  exists fs', a. split; [reflexivity |].
  rewrite Hs in Hd. exact Hd.
Defined.

(** C9: when no name is given ([None] or the empty string), the stem of
    the output name is the file name of the checkpoint without its
    suffix, so that the name tried first, [save_dir/<stem>.onnx], is the
    checkpoint's file name with its extension replaced by [.onnx], inside
    [save_dir]; when a name is given, the stem is the stem of that name
    and [.onnx] is appended.  The output name is that first name or one of
    its numbered variants. *)
Theorem default_output_name (fs fs' : gmap Path kind) (ns : Namespace)
        (a : ExportArgs) :
  ExportPy.post_init fs ns = Ok (fs', a) ->
  exists (stem : string) (k : N),
    name a = ExportPy.candidate_path (save_dir a) stem k /\
    ExportPy.candidate_path (save_dir a) stem 0
      = MkPath (root (save_dir a))
               (parts (save_dir a) ++ [(stem ++ ".onnx")%string])%list /\
    (ExportPy.name_given (ns_name ns) = false ->
     Pathlib.name (checkpoint a)
       = (stem ++ Pathlib.suffix (checkpoint a))%string /\
     Pathlib.with_suffix (checkpoint a) ".onnx"
       = Ok (MkPath (root (checkpoint a))
                    (removelast (parts (checkpoint a))
                       ++ [(stem ++ ".onnx")%string])%list)) /\
    (forall s : string,
       ns_name ns = Some s -> PyStr.truthy s = true ->
       stem = Pathlib.stem (Pathlib.of_str s)).
Proof.
  intros H. destruct (output_name_fresh_aux fs fs' ns a H) as (f & k & Hf & Hn).
  exists f, k. split; [exact Hn |]. split; [reflexivity |].
  apply post_init_ok in H as (_ & _ & Hc & _ & _).
  unfold ExportPy.filename_of in Hf. split.
  - intros Hg.
    assert (exists q, Pathlib.with_suffix (checkpoint a) ".onnx" = Ok q /\
                      f = Pathlib.stem (Pathlib.of_str (Pathlib.name q)))
      as (q & Hq & ->).
    { destruct (ns_name ns) as [s |]; cbn in Hg; [rewrite Hg in Hf |];
        destruct (Pathlib.with_suffix (checkpoint a) ".onnx") as [q0 | |];
        cbn [obind] in Hf; try discriminate Hf;
        injection Hf as <-; exists q0; split; reflexivity. }
    assert (Forall Pathlib.component (parts (checkpoint a))) as Hp
      by (rewrite Hc; apply of_str_parts).
    destruct (with_suffix_stem _ _ Hp Hq) as (base & Hb & Hname & Hq' & _).
    rewrite Hb. split; [exact Hname |].
    rewrite Hq. unfold Pathlib.with_suffix in Hq.
    destruct (negb (PyStr.truthy (Pathlib.name (checkpoint a))));
      [discriminate |].
    injection Hq as <-. rewrite name_snoc in Hq'. rewrite Hq'. reflexivity.
  - intros s Hs Ht. rewrite Hs, Ht in Hf. cbn [obind] in Hf.
    injection Hf as <-. reflexivity.
Qed.

Lemma default_output_name_witness :
  exists (fs' : gmap Path kind) (a : ExportArgs) (stem : string) (k : N),
    ExportPy.post_init Samples.fs0 Samples.ns0 = Ok (fs', a) /\
    name a = ExportPy.candidate_path (save_dir a) stem k /\
    Pathlib.name (checkpoint a) = (stem ++ Pathlib.suffix (checkpoint a))%string.
Proof.
  assert (is_ok (ExportPy.post_init Samples.fs0 Samples.ns0) = true) as Hok
    by (vm_compute; reflexivity).
  destruct (ExportPy.post_init Samples.fs0 Samples.ns0) as [[fs' a] | o e |]
    eqn:H; try discriminate Hok.
  destruct (default_output_name Samples.fs0 fs' Samples.ns0 a H)
    as (stem & k & Hn & _ & Hd & _).
  exists fs', a, stem, k.
  split; [reflexivity | split; [exact Hn | apply Hd; reflexivity]].
Defined.

(** ** The command line *)

Lemma library_error_bind {A B} (P : A -> Prop) (Q : B -> Prop)
      (x : outcome A) (f : A -> outcome B) :
  library_error P x ->
  (forall a, P a -> library_error Q (f a)) ->
  library_error Q (obind x f).
Proof.
  destruct x as [a | [|] e |]; cbn; auto; contradiction.
Qed.

Lemma convert_lib (ty : ArgType) (v : string) :
  library_error (fun _ => True) (Argparse.convert ty v).
Proof.
  unfold Argparse.convert. destruct ty; [exact I |].
  destruct (Argparse.py_int v); exact I.
Qed.

Lemma convert_ints_lib (l : list string) :
  library_error (fun _ => True) (Argparse.convert_ints l).
Proof.
  induction l as [| x l IH]; cbn [Argparse.convert_ints]; [exact I |].
  destruct (Argparse.py_int x); [| exact I].
  eapply library_error_bind; [exact IH |]. intros zs _. exact I.
Qed.

Section Invariant.

Variable tbl : list Argument.

(** the attribute names the parser may store *)
Variable ok : string -> Prop.

Hypothesis shorts_ok :
  forall (c : ascii) (a : Argument),
    Argparse.find_exact tbl (Argparse.short_flag c) = Some a ->
    ok (Argparse.dest a).

Let inv (st : Argparse.pstate) : Prop := Forall ok (Argparse.seen st).
Let inv2 (r : Argparse.pstate * Argparse.mode) : Prop :=
  inv (fst r) /\ Argparse.mode_ok ok (snd r).

Lemma store_inv (a : Argument) (vals : list string) (st : Argparse.pstate) :
  ok (Argparse.dest a) -> inv st ->
  library_error inv (Argparse.store a vals st).
Proof.
  intros Ha Hst. unfold Argparse.store.
  destruct (nargs a), vals as [| v [| v' vals]]; cbv beta iota;
    try exact I;
    destruct (Argparse.help_pending st); try exact I.
  - eapply library_error_bind; [apply convert_lib |].
    intros x _. constructor; assumption.
  - destruct (type_ a); [exact I |].
    eapply library_error_bind; [apply convert_ints_lib |].
    intros x _. constructor; assumption.
  - destruct (type_ a); [exact I |].
    eapply library_error_bind; [apply convert_ints_lib |].
    intros x _. constructor; assumption.
Qed.

Lemma flag_inv (a : Argument) (st : Argparse.pstate) :
  ok (Argparse.dest a) -> inv st -> inv (Argparse.flag a st).
Proof.
  intros Ha Hst. unfold Argparse.flag, inv.
  destruct (action a); cbn; try constructor; assumption.
Qed.

Lemma awaiting_ok (a : Argument) :
  ok (Argparse.dest a) -> Argparse.mode_ok ok (Argparse.awaiting a).
Proof. unfold Argparse.awaiting. destruct (nargs a); cbn; auto. Qed.

Lemma take_shorts_inv (rest : string) :
  forall (a : Argument) (st : Argparse.pstate),
    ok (Argparse.dest a) -> inv st ->
    library_error inv2 (Argparse.take_shorts tbl a rest st).
Proof.
  induction rest as [| c rest IH]; intros a st Ha Hst; cbn;
    destruct (action a) eqn:Hact; cbn.
  - split; [exact Hst | apply awaiting_ok, Ha].
  - split; [apply flag_inv; assumption | exact I].
  - split; [apply flag_inv; assumption | exact I].
  - eapply library_error_bind; [apply store_inv; assumption |].
    intros st' Hst'. split; [exact Hst' | exact I].
  - destruct (Argparse.find_exact tbl (Argparse.short_flag c)) as [a' |] eqn:E;
      cbn; auto.
    apply IH; [eapply shorts_ok, E | apply flag_inv; assumption].
  - destruct (Argparse.find_exact tbl (Argparse.short_flag c)) as [a' |] eqn:E;
      cbn; auto.
    apply IH; [eapply shorts_ok, E | apply flag_inv; assumption].
Qed.

Lemma take_option_inv (short : bool) (a : Argument) (expl : option string)
      (st : Argparse.pstate) :
  ok (Argparse.dest a) -> inv st ->
  library_error inv2 (Argparse.take_option tbl short a expl st).
Proof.
  intros Ha Hst. unfold Argparse.take_option.
  destruct expl as [v |]; [| apply take_shorts_inv; assumption].
  destruct (action a) eqn:Hact.
  - eapply library_error_bind; [apply store_inv; assumption |].
    intros st' Hst'. split; [exact Hst' | exact I].
  - destruct short; [| exact I].
    destruct v; [exact I | apply take_shorts_inv; assumption].
  - destruct short; [| exact I].
    destruct v; [exact I | apply take_shorts_inv; assumption].
Qed.

Lemma take_token_inv (t : string) (st : Argparse.pstate) :
  (forall d, Argparse.selects tbl t d -> ok d) -> inv st ->
  library_error inv2 (Argparse.take_token tbl t st).
Proof.
  intros Ht Hst. unfold Argparse.take_token.
  destruct (Argparse.resolve tbl t) as [| a expl | |] eqn:E; cbn; auto.
  - split; [exact Hst | exact I].
  - apply take_option_inv; [| exact Hst].
    apply Ht. exists a, expl. split; [exact E | reflexivity].
  - split; [exact Hst | exact I].
Qed.

Lemma consume_inv (ts : list string) :
  (forall t d, In t ts -> Argparse.selects tbl t d -> ok d) ->
  forall (m : Argparse.mode) (st : Argparse.pstate),
    Argparse.mode_ok ok m -> inv st ->
    library_error inv (Argparse.consume tbl ts m st).
Proof.
  induction ts as [| t ts IH]; intros Hts m st Hm Hst.
  - destruct m as [| a | a acc]; cbn.
    + destruct (Argparse.help_pending st); cbn; auto.
    + exact I.
    + apply store_inv; assumption.
  - assert (forall d, Argparse.selects tbl t d -> ok d) as Ht
        by (intros d; apply Hts; left; reflexivity).
    assert (forall t' d, In t' ts -> Argparse.selects tbl t' d -> ok d) as Hts'
        by (intros t' d Hin; apply Hts; right; exact Hin).
    destruct m as [| a | a acc]; cbn [Argparse.consume].
    + destruct (Argparse.help_pending st); cbn; auto.
      eapply library_error_bind; [apply take_token_inv; assumption |].
      intros [st' m'] [H1 H2]. apply IH; assumption.
    + destruct (Argparse.is_arg tbl t); cbn; auto.
      eapply library_error_bind; [apply store_inv; assumption |].
      intros st' Hst'. apply IH; [assumption | exact I | assumption].
    + destruct (Argparse.is_arg tbl t); cbn.
      * apply IH; assumption.
      * eapply library_error_bind; [apply store_inv; assumption |].
        intros st' Hst'.
        eapply library_error_bind; [apply take_token_inv; assumption |].
        intros [st'' m'] [H1 H2]. apply IH; assumption.
Qed.

End Invariant.

Lemma find_exact_in (tbl : list Argument) (s : string) (a : Argument) :
  Argparse.find_exact tbl s = Some a ->
  In a tbl /\ existsb (String.eqb s) (flags a) = true.
Proof. unfold Argparse.find_exact. intros H. apply find_some in H. exact H. Qed.

Lemma shorts_not_checkpoint (c : ascii) (a : Argument) :
  Argparse.find_exact ExportCli.table (Argparse.short_flag c) = Some a ->
  Argparse.dest a <> "checkpoint".
Proof.
  intros H. apply find_exact_in in H as [Hin Hex].
  unfold ExportCli.table, ExportCli.arguments in Hin. cbn [In] in Hin.
  repeat (destruct Hin as [<- | Hin]; [try (vm_compute; discriminate) |]);
    [| contradiction].
  unfold Argparse.short_flag in Hex. simpl in Hex.
  destruct (Ascii.eqb c "-"); simpl in Hex; discriminate Hex.
Qed.

Lemma not_seen (x : string) (l : list string) :
  Forall (fun d => d <> x) l -> existsb (String.eqb x) l = false.
Proof.
  induction 1 as [| d l Hd _ IH]; cbn; [reflexivity |].
  rewrite IH, orb_false_r. apply String.eqb_neq. congruence.
Qed.

(** Without a token that stands for [--checkpoint], the parser ends with
    an error. *)
Lemma parse_requires_checkpoint (argv : list string) :
  (forall t, In t argv -> ~ Argparse.selects ExportCli.table t "checkpoint") ->
  exists e : exn, Argparse.parse ExportCli.arguments argv = Raised ByLibrary e.
Proof.
  intros Hargv. unfold Argparse.parse. fold ExportCli.table.
  destruct (existsb (Argparse.ambiguous ExportCli.table) argv);
    [eexists; reflexivity |].
  pose proof (consume_inv ExportCli.table (fun d => d <> "checkpoint")
                shorts_not_checkpoint argv) as Hc.
  cbv zeta in Hc.
  specialize (Hc (fun t d Hin Hsel E => Hargv t Hin
                    (eq_ind d (Argparse.selects ExportCli.table t) Hsel _ E))
                 Argparse.Idle
                 (Argparse.MkPstate (Argparse.defaults ExportCli.table) [] false false)
                 I ltac:(constructor)).
  destruct (Argparse.consume ExportCli.table argv Argparse.Idle _)
    as [st | [|] e |]; cbn [library_error obind] in *; try contradiction.
  - assert (Argparse.missing_required ExportCli.table st = true) as ->.
    { unfold Argparse.missing_required, ExportCli.table, ExportCli.arguments.
      cbn [existsb required Argparse.help_argument andb orb].
      change (Argparse.dest (MkArgument ["--checkpoint"] TStr true VNone Store One))
        with "checkpoint".
      rewrite (not_seen _ _ Hc). reflexivity. }
    eexists; reflexivity.
  - eexists; reflexivity.
Qed.

Lemma plain_is_arg (tbl : list Argument) (p : string) :
  String.prefix "-" p = false ->
  Argparse.resolve tbl p = Argparse.RPositional.
Proof. intros H. unfold Argparse.resolve. rewrite H. reflexivity. Qed.

(** The command line [--checkpoint p] gives [p] as checkpoint and every
    other argument its default. *)
Lemma parse_checkpoint_only (p : string) :
  String.prefix "-" p = false ->
  ExportCli.parse_namespace ["--checkpoint"; p]
    = Ok (MkNamespace p "yolact_base_config" None false 1 [3; 550; 550]%Z
                      "./exported_models" None).
Proof.
  intros Hp. unfold ExportCli.parse_namespace, Argparse.parse.
  fold ExportCli.table.
  pose proof (plain_is_arg ExportCli.table p Hp) as Hr.
  assert (existsb (Argparse.ambiguous ExportCli.table) ["--checkpoint"; p] = false)
    as ->.
  { cbn [existsb]. unfold Argparse.ambiguous at 2. rewrite Hr.
    vm_compute. reflexivity. }
  cbn [Argparse.consume Argparse.help_pending].
  unfold Argparse.take_token.
  assert (Argparse.resolve ExportCli.table "--checkpoint"
          = Argparse.ROption
              (MkArgument ["--checkpoint"] TStr true VNone Store One) None)
    as -> by (vm_compute; reflexivity).
  cbn [Argparse.take_option Argparse.take_shorts action obind fst snd
       Argparse.awaiting nargs Argparse.consume].
  unfold Argparse.is_arg. rewrite Hr.
  cbn [Argparse.store nargs Argparse.help_pending type_ Argparse.convert obind
       Argparse.consume Argparse.values Argparse.seen Argparse.extras].
  change (Argparse.dest (MkArgument ["--checkpoint"] TStr true VNone Store One))
    with "checkpoint".
  assert (Argparse.missing_required ExportCli.table
            (Argparse.MkPstate
               (<["checkpoint" := VStr p]> (Argparse.defaults ExportCli.table))
               ["checkpoint"] false false) = false) as ->
    by (vm_compute; reflexivity).
  cbn [Argparse.extras Argparse.values].
  vm_compute. reflexivity.
Qed.

(** C6: the parser of the export script defines the long options
    [--checkpoint], [--config], [--recipe], [--no-qat], [--batch-size],
    [--image-shape], [--save-dir] and [--name], these and no other, and
    [--checkpoint] is the only required one.  A command line without a
    token that stands for [--checkpoint] is refused; the command line
    [--checkpoint p] is accepted and gives every other argument its
    default. *)
Theorem export_command_line (argv : list string) (p : string) :
  List.flat_map ExportCli.long_flags ExportCli.arguments
    = ["--checkpoint"; "--config"; "--recipe"; "--no-qat"; "--batch-size";
       "--image-shape"; "--save-dir"; "--name"] /\
  List.map ExportCli.long_flags (List.filter required ExportCli.arguments)
    = [["--checkpoint"]] /\
  ((forall t, In t argv -> ~ Argparse.selects ExportCli.table t "checkpoint") ->
   exists e : exn, ExportCli.parse_namespace argv = Raised ByLibrary e) /\
  (String.prefix "-" p = false ->
   ExportCli.parse_namespace ["--checkpoint"; p]
     = Ok (MkNamespace p "yolact_base_config" None false 1 [3; 550; 550]%Z
                       "./exported_models" None)).
Proof.
  split; [reflexivity |]. split; [reflexivity |]. split.
  - intros H. destruct (parse_requires_checkpoint argv H) as [e He].
    exists e. unfold ExportCli.parse_namespace. rewrite He. reflexivity.
  - apply parse_checkpoint_only.
Qed.

Lemma no_checkpoint_token (t : string) :
  In t ["--config"; "yolact_resnet50_config"; "-b"; "4"] ->
  ~ Argparse.selects ExportCli.table t "checkpoint".
Proof.
  intros Hin (a & expl & Hr & Hd).
  cbn [In] in Hin.
  repeat (destruct Hin as [<- | Hin];
          [vm_compute in Hr; first [discriminate Hr
            | injection Hr as <- _; vm_compute in Hd; discriminate Hd] |]).
  contradiction.
Qed.

Lemma export_command_line_witness :
  (exists e : exn,
     ExportCli.parse_namespace ["--config"; "yolact_resnet50_config"; "-b"; "4"]
       = Raised ByLibrary e) /\
  ExportCli.parse_namespace ["--checkpoint"; "weights/yolact_base_54.pth"]
    = Ok (MkNamespace "weights/yolact_base_54.pth" "yolact_base_config" None
                      false 1 [3; 550; 550]%Z "./exported_models" None).
Proof.
  destruct (export_command_line
              ["--config"; "yolact_resnet50_config"; "-b"; "4"]
              "weights/yolact_base_54.pth") as (_ & _ & H1 & H2).
  split; [apply H1, no_checkpoint_token | apply H2; reflexivity].
Defined.

(** ** The only explicit error *)

Lemma kwargs_lib (d : gmap string Value) :
  library_error (fun _ => True) (ExportCli.kwargs d).
Proof. unfold ExportCli.kwargs. repeat case_match; exact I. Qed.

Lemma parse_namespace_lib (argv : list string) :
  library_error (fun _ => True) (ExportCli.parse_namespace argv).
Proof.
  unfold ExportCli.parse_namespace, Argparse.parse. fold ExportCli.table.
  destruct (existsb _ argv); [exact I |].
  apply (library_error_bind (fun _ => True));
    [| intros d _; apply kwargs_lib].
  apply (library_error_bind
           (fun st => Forall (fun _ : string => True) (Argparse.seen st))).
  - apply (consume_inv ExportCli.table (fun _ => True)); try (intros; exact I).
    constructor.
  - intros st _. destruct (Argparse.missing_required _ _); [exact I |].
    destruct (Argparse.extras st); exact I.
Qed.

Lemma post_init_raised (fs : gmap Path kind) (ns : Namespace) (o : origin)
      (e : exn) :
  ExportPy.post_init fs ns = Raised o e ->
  (o = ByScript /\ e = FileNotFoundError /\
   FS.exists_ fs (Pathlib.of_str (ns_checkpoint ns)) = false) \/
  (o = ByLibrary /\ e <> FileNotFoundError /\
   FS.exists_ fs (Pathlib.of_str (ns_checkpoint ns)) = true).
Proof.
  unfold ExportPy.post_init.
  destruct (FS.exists_ fs (Pathlib.of_str (ns_checkpoint ns))); cbn [negb].
  - intros H. right.
    pose proof (mkdir_spec fs (Pathlib.of_str (ns_save_dir ns))) as Hm.
    destruct (FS.mkdir fs _) as [fs1 | o1 e1 |]; cbn [obind] in H;
      [| | discriminate H].
    + pose proof (get_safe_name_spec fs1 (Pathlib.of_str (ns_checkpoint ns))
                    (Pathlib.of_str (ns_save_dir ns)) (ns_name ns)) as Hg.
      destruct (ExportPy.filename_of _ _) as [f | o2 e2 |]; [| | contradiction].
      * destruct Hg as (k & Hrun & _). rewrite Hrun in H. discriminate H.
      * destruct Hg as (Hrun & -> & ->). rewrite Hrun in H.
        injection H as <- <-. repeat split; discriminate.
    + injection H as <- <-. destruct Hm as (-> & [-> | ->] & _);
        repeat split; discriminate.
  - intros [= <- <-]. left. repeat split.
Qed.

(** C2: constructing [ExportArgs] with a checkpoint path that does not
    exist raises [FileNotFoundError], by the [raise] statement of the
    script; with a checkpoint that exists no [FileNotFoundError] is raised
    at all.  That [raise] is the only one of the script: an exception
    raised by the script itself while constructing the arguments or
    parsing the command line is this one, and [export] has no [raise]. *)
Theorem checkpoint_must_exist (fs : gmap Path kind) (ns : Namespace) :
  (FS.exists_ fs (Pathlib.of_str (ns_checkpoint ns)) = false ->
   ExportPy.post_init fs ns = Raised ByScript FileNotFoundError) /\
  (FS.exists_ fs (Pathlib.of_str (ns_checkpoint ns)) = true ->
   forall o : origin, ExportPy.post_init fs ns <> Raised o FileNotFoundError) /\
  (forall e : exn,
     ExportPy.post_init fs ns = Raised ByScript e ->
     e = FileNotFoundError /\
     FS.exists_ fs (Pathlib.of_str (ns_checkpoint ns)) = false) /\
  (forall (argv : list string) (e : exn),
     ExportCli.parse_args fs argv = Raised ByScript e ->
     e = FileNotFoundError) /\
  (forall (args : ExportArgs) (e : exn),
     ~ throws (ExportRun.export args) ByScript e).
Proof.
  split; [| split; [| split; [| split]]].
  - intros H. unfold ExportPy.post_init. rewrite H. reflexivity.
  - intros H o Hr. apply post_init_raised in Hr as [(_ & _ & E) | (_ & E & _)];
      congruence.
  - intros e Hr. apply post_init_raised in Hr as [(_ & E1 & E2) | (E & _)];
      [split; assumption | discriminate E].
  - intros argv e. unfold ExportCli.parse_args.
    pose proof (parse_namespace_lib argv) as Hl.
    destruct (ExportCli.parse_namespace argv) as [ns' | [|] e' |];
      cbn [library_error obind] in *; try contradiction; try discriminate.
    intros Hr. apply post_init_raised in Hr as [(_ & E & _) | (E & _)];
      [exact E | discriminate E].
  - intros args e. unfold ExportRun.export.
    destruct (recipe args); cbn; intros H;
      repeat match type of H with
             | exists _, _ => destruct H as [? H]
             | _ /\ _ => destruct H as [H _]
             end; try contradiction; discriminate H.
Qed.

Lemma checkpoint_must_exist_witness :
  FS.exists_ Samples.fs0 (Pathlib.of_str "ckpt/missing.pth") = false /\
  ExportPy.post_init Samples.fs0
    (MkNamespace "ckpt/missing.pth" "yolact_base_config" None false 1
                 [3; 550; 550]%Z "out" None)
    = Raised ByScript FileNotFoundError /\
  FS.exists_ Samples.fs0 (Pathlib.of_str "ckpt/model.pth") = true /\
  ExportPy.post_init Samples.fs0 Samples.ns0
    <> Raised ByLibrary FileNotFoundError.
Proof.
  split; [vm_compute; reflexivity |]. split.
  - apply (checkpoint_must_exist Samples.fs0
             (MkNamespace "ckpt/missing.pth" "yolact_base_config" None false 1
                          [3; 550; 550]%Z "out" None)).
    vm_compute. reflexivity.
  - split; [vm_compute; reflexivity |].
    destruct (checkpoint_must_exist Samples.fs0 Samples.ns0) as (_ & H & _).
    apply H. vm_compute. reflexivity.
Defined.


(** * Further properties *)

(** ** Construction of the arguments *)

Lemma node_written (fs : gmap Path kind) (p q : Path) :
  parts p <> [] ->
  FS.node (Script.written fs p) q
    = if decide (q = p) then Some File else FS.node fs q.
Proof.
  intros Hp. unfold FS.node, Script.written. case_decide as E.
  - subst q. destruct (parts p); [congruence |]. apply lookup_insert_eq.
  - destruct (parts q); [reflexivity |]. apply lookup_insert_ne. congruence.
Qed.

Lemma exists_kept (fs fs' : gmap Path kind) (p q : Path) :
  FS.extends fs fs' p -> FS.exists_ fs q = true -> FS.exists_ fs' q = true.
Proof.
  intros [Hk _]. unfold FS.exists_.
  destruct (FS.node fs q) as [k |] eqn:E; [| discriminate].
  rewrite (Hk q k E). reflexivity.
Qed.

Lemma candidate_path_parts (sdir : Path) (f : string) (k : N) :
  parts (ExportPy.candidate_path sdir f k) <> [].
Proof.
  unfold ExportPy.candidate_path. cbn [parts]. intros E.
  apply app_eq_nil in E as [_ E]. discriminate E.
Qed.

Lemma candidate_path_parent (sdir : Path) (f : string) (k : N) :
  Pathlib.parent (ExportPy.candidate_path sdir f k) = sdir.
Proof.
  unfold ExportPy.candidate_path. rewrite parent_snoc.
  destruct sdir; reflexivity.
Qed.

(** What a successful construction found and left. *)
Lemma post_init_facts (fs fs' : gmap Path kind) (ns : Namespace)
      (a : ExportArgs) :
  ExportPy.post_init fs ns = Ok (fs', a) ->
  exists (f : string) (k : N),
    ExportPy.filename_of (checkpoint a) (ns_name ns) = Ok f /\
    name a = ExportPy.candidate_path (save_dir a) f k /\
    FS.exists_ fs' (name a) = false /\
    (forall j : N, (j < k)%N ->
       FS.exists_ fs' (ExportPy.candidate_path (save_dir a) f j) = true) /\
    FS.exists_ fs' (checkpoint a) = true /\
    FS.is_dir fs' (save_dir a) = true /\
    FS.extends fs fs' (save_dir a).
Proof.
  intros H. apply post_init_ok in H as (Hck & Hm & Hc & Hs & Hn).
  pose proof (mkdir_spec fs (Pathlib.of_str (ns_save_dir ns))) as Hspec.
  rewrite Hm in Hspec. destruct Hspec as (Hd & Hext & _).
  rewrite <- Hs in Hd, Hext. rewrite <- Hc in Hck.
  pose proof (get_safe_name_spec fs' (checkpoint a) (save_dir a) (ns_name ns))
    as Hg.
  destruct (ExportPy.filename_of _ _) as [f | o e |]; [| | contradiction].
  - destruct Hg as (k & Hrun & Hfree & Hbusy).
    rewrite Hrun in Hn. injection Hn as Hn.
    exists f, k. rewrite <- Hn.
    split; [reflexivity |]. split; [reflexivity |].
    split; [exact Hfree |]. split; [exact Hbusy |].
    split; [eapply exists_kept; eassumption |]. split; assumption.
  - destruct Hg as (Hrun & _). congruence.
Qed.

(** X1: the output name is never the checkpoint: after a successful
    construction the checkpoint is still there and the output name is a
    different path, so the export cannot overwrite the weights it reads. *)
Theorem output_is_not_checkpoint (fs fs' : gmap Path kind) (ns : Namespace)
        (a : ExportArgs) :
  ExportPy.post_init fs ns = Ok (fs', a) ->
  FS.exists_ fs' (checkpoint a) = true /\ name a <> checkpoint a.
Proof.
  intros H.
  destruct (post_init_facts _ _ _ _ H) as (f & k & _ & _ & Hfree & _ & Hck & _).
  split; [exact Hck |]. intros E. rewrite E in Hfree. congruence.
Qed.

Lemma output_is_not_checkpoint_witness :
  exists (fs' : gmap Path kind) (a : ExportArgs),
    ExportPy.post_init Samples.fs0
      (MkNamespace "out/model.onnx" "yolact_base_config" None false 1
                   [3; 550; 550]%Z "out" None) = Ok (fs', a) /\
    FS.exists_ fs' (checkpoint a) = true /\ name a <> checkpoint a.
Proof.
  set (ns := MkNamespace "out/model.onnx" "yolact_base_config" None false 1
                         [3; 550; 550]%Z "out" None).
  assert (is_ok (ExportPy.post_init Samples.fs0 ns) = true) as Hok
    by (vm_compute; reflexivity).
  destruct (ExportPy.post_init Samples.fs0 ns) as [[fs' a] | o e |] eqn:H;
    try discriminate Hok.
  exists fs', a. split; [reflexivity |].
  exact (output_is_not_checkpoint Samples.fs0 fs' ns a H).
Defined.

Lemma post_init_fields (fs fs' : gmap Path kind) (ns : Namespace)
      (a : ExportArgs) :
  ExportPy.post_init fs ns = Ok (fs', a) ->
  config a = ns_config ns /\ recipe a = ns_recipe ns /\
  no_qat a = ns_no_qat ns /\ batch_size a = ns_batch_size ns /\
  image_shape a = ns_image_shape ns.
Proof.
  unfold ExportPy.post_init.
  destruct (FS.exists_ fs _); cbn [negb]; [| discriminate].
  destruct (FS.mkdir fs _) as [fs1 | |]; cbn [obind]; try discriminate.
  destruct (ExportPy.get_safe_name fs1 _ _ _) as [nm | |]; cbn [obind];
    try discriminate.
  intros [= <- <-]. cbn. auto.
Qed.

(** X2: constructing the arguments again on the file system the first
    construction left, before anything is written, gives the same
    arguments and changes nothing: the save directory is not created
    twice and the same output name is chosen. *)
Theorem construction_repeats (fs fs' : gmap Path kind) (ns : Namespace)
        (a : ExportArgs) :
  ExportPy.post_init fs ns = Ok (fs', a) ->
  ExportPy.post_init fs' ns = Ok (fs', a).
Proof.
  intros H.
  destruct (post_init_facts _ _ _ _ H) as (f & k & _ & _ & _ & _ & Hck & Hd & _).
  destruct (post_init_fields _ _ _ _ H) as (F1 & F2 & F3 & F4 & F5).
  apply post_init_ok in H as (_ & _ & Hc & Hs & Hn).
  unfold ExportPy.post_init.
  rewrite <- Hc, <- Hs, Hck. cbn [negb].
  rewrite (mkdir_existing fs' (save_dir a) Hd). cbn [obind].
  rewrite Hn. cbn [obind].
  rewrite <- F1, <- F2, <- F3, <- F4, <- F5. destruct a; reflexivity.
Qed.

Lemma construction_repeats_witness :
  exists (fs' : gmap Path kind) (a : ExportArgs),
    ExportPy.post_init Samples.fs0 Samples.ns0 = Ok (fs', a) /\
    ExportPy.post_init fs' Samples.ns0 = Ok (fs', a).
Proof.
  assert (is_ok (ExportPy.post_init Samples.fs0 Samples.ns0) = true) as Hok
    by (vm_compute; reflexivity).
  destruct (ExportPy.post_init Samples.fs0 Samples.ns0) as [[fs' a] | o e |]
    eqn:H; try discriminate Hok.
  exists fs', a. split; [reflexivity |].
  exact (construction_repeats Samples.fs0 fs' Samples.ns0 a H).
Defined.

Lemma exists_written (fs : gmap Path kind) (p q : Path) :
  parts p <> [] ->
  FS.exists_ (Script.written fs p) q
    = if decide (q = p) then true else FS.exists_ fs q.
Proof.
  intros Hp. unfold FS.exists_. rewrite node_written by exact Hp.
  case_decide; reflexivity.
Qed.

(** X3: once the exported file has been written under the output name,
    constructing the arguments again for the same command line succeeds
    without touching the file system and chooses a name with a strictly
    larger counter in the same directory: a second export does not
    overwrite the first. *)
Theorem next_export_moves_on (fs fs' : gmap Path kind) (ns : Namespace)
        (a : ExportArgs) :
  ExportPy.post_init fs ns = Ok (fs', a) ->
  exists (a2 : ExportArgs) (stem : string) (k k2 : N),
    ExportPy.post_init (Script.written fs' (name a)) ns
      = Ok (Script.written fs' (name a), a2) /\
    save_dir a2 = save_dir a /\
    name a = ExportPy.candidate_path (save_dir a) stem k /\
    name a2 = ExportPy.candidate_path (save_dir a) stem k2 /\
    (k < k2)%N /\
    FS.exists_ (Script.written fs' (name a)) (name a2) = false.
Proof.
  intros H.
  destruct (post_init_facts _ _ _ _ H)
    as (f & k & Hf & Hn & Hfree & Hbusy & Hck & Hd & _).
  destruct (post_init_fields _ _ _ _ H) as (F1 & F2 & F3 & F4 & F5).
  apply post_init_ok in H as (_ & _ & Hc & Hs & _).
  assert (parts (name a) <> []) as Hparts
    by (rewrite Hn; apply candidate_path_parts).
  assert (checkpoint a <> name a) as Hne1.
  { intros E. rewrite E in Hck. congruence. }
  assert (save_dir a <> name a) as Hne2.
  { intros E. apply (parent_neq (name a) Hparts).
    rewrite Hn at 1. rewrite candidate_path_parent. exact E. }
  set (fs2 := Script.written fs' (name a)).
  pose proof (get_safe_name_spec fs2 (checkpoint a) (save_dir a) (ns_name ns))
    as Hg.
  rewrite Hf in Hg. destruct Hg as (k2 & Hrun & Hfree2 & Hbusy2).
  exists (MkExportArgs (checkpoint a) (ns_config ns) (ns_recipe ns)
            (ns_no_qat ns) (ns_batch_size ns) (ns_image_shape ns)
            (save_dir a) (ExportPy.candidate_path (save_dir a) f k2)),
    f, k, k2.
  split; [| split; [reflexivity | split; [exact Hn | split; [reflexivity |]]]].
  - unfold ExportPy.post_init. rewrite <- Hc, <- Hs.
    assert (FS.exists_ fs2 (checkpoint a) = true) as ->.
    { unfold fs2. rewrite exists_written by exact Hparts.
      case_decide; [reflexivity | exact Hck]. }
    cbn [negb].
    assert (FS.is_dir fs2 (save_dir a) = true) as Hd2.
    { unfold fs2, FS.is_dir. rewrite node_written by exact Hparts.
      case_decide; [contradiction | exact Hd]. }
    rewrite (mkdir_existing fs2 (save_dir a) Hd2). cbn [obind].
    rewrite Hrun. reflexivity.
  - split; [| exact Hfree2].
    destruct (N.lt_trichotomy k2 k) as [Hlt | [-> | Hgt]]; [| | exact Hgt];
      exfalso.
    + specialize (Hbusy k2 Hlt).
      unfold fs2 in Hfree2. rewrite exists_written in Hfree2 by exact Hparts.
      case_decide; congruence.
    + unfold fs2 in Hfree2. rewrite exists_written in Hfree2 by exact Hparts.
      rewrite <- Hn in Hfree2. case_decide; congruence.
Qed.

Lemma next_export_moves_on_witness :
  exists (fs' : gmap Path kind) (a a2 : ExportArgs) (stem : string) (k k2 : N),
    ExportPy.post_init Samples.fs0 Samples.ns0 = Ok (fs', a) /\
    ExportPy.post_init (Script.written fs' (name a)) Samples.ns0
      = Ok (Script.written fs' (name a), a2) /\
    name a = ExportPy.candidate_path (save_dir a) stem k /\
    name a2 = ExportPy.candidate_path (save_dir a) stem k2 /\
    (k < k2)%N.
Proof.
  assert (is_ok (ExportPy.post_init Samples.fs0 Samples.ns0) = true) as Hok
    by (vm_compute; reflexivity).
  destruct (ExportPy.post_init Samples.fs0 Samples.ns0) as [[fs' a] | o e |]
    eqn:H; try discriminate Hok.
  destruct (next_export_moves_on Samples.fs0 fs' Samples.ns0 a H)
    as (a2 & stem & k & k2 & H1 & _ & H2 & H3 & H4 & _).
  exists fs', a, a2, stem, k, k2.
  split; [reflexivity |]. repeat split; assumption.
Defined.



(** ** Paths and their text *)

Lemma split_sep_cons (c : ascii) (x rest : string) :
  PyStr.contains c x = false ->
  PyStr.split c (x ++ String c rest) = x :: PyStr.split c rest.
Proof.
  induction x as [| a x IH]; intros H.
  - rewrite sapp_nil. simpl. rewrite Ascii.eqb_refl. reflexivity.
  - rewrite sapp_cons. simpl in *. apply orb_false_iff in H as [Ha H].
    rewrite Ha, (IH H). reflexivity.
Qed.

Lemma split_concat (ps : list string) :
  Forall Pathlib.component ps -> ps <> [] ->
  PyStr.split Pathlib.sep (String.concat "/" ps) = ps.
Proof.
  induction 1 as [| x l Hx Hl IH]; intros Hne; [congruence |].
  destruct l as [| y l].
  - simpl. apply split_no_sep, Hx.
  - change (String.concat "/" (x :: y :: l))
      with (x ++ String Pathlib.sep (String.concat "/" (y :: l)))%string.
    rewrite split_sep_cons by apply Hx. rewrite IH by discriminate.
    reflexivity.
Qed.

Lemma filter_keep (ps : list string) :
  Forall Pathlib.component ps -> List.filter Pathlib.keep ps = ps.
Proof.
  induction 1 as [| x l (Hs & Hne & Hdot) Hl IH]; [reflexivity |].
  assert (Pathlib.keep x = true) as Hk.
  { unfold Pathlib.keep. apply andb_true_iff. split.
    - destruct x; [congruence | reflexivity].
    - apply negb_true_iff, String.eqb_neq. exact Hdot. }
  change (List.filter Pathlib.keep (x :: l))
    with (if Pathlib.keep x then x :: List.filter Pathlib.keep l
          else List.filter Pathlib.keep l).
  rewrite Hk, IH. reflexivity.
Qed.

(** the text of a non-empty list of components starts with a character
    that is no separator *)
Lemma concat_head (ps : list string) :
  Forall Pathlib.component ps -> ps <> [] ->
  exists (a : ascii) (t : string),
    String.concat "/" ps = String a t /\ Ascii.eqb a Pathlib.sep = false.
Proof.
  intros H Hne. destruct H as [| x l (Hs & Hx & _) Hl]; [congruence |].
  destruct x as [| a x]; [congruence |].
  simpl in Hs. apply orb_false_iff in Hs as [Ha _].
  destruct l as [| y l].
  - exists a, x. split; [reflexivity | exact Ha].
  - exists a, (x ++ String Pathlib.sep (String.concat "/" (y :: l)))%string.
    split; [reflexivity | exact Ha].
Qed.

Lemma splitroot_root (s : string) :
  fst (Pathlib.splitroot s) = "" \/ fst (Pathlib.splitroot s) = "/" \/
  fst (Pathlib.splitroot s) = "//".
Proof.
  unfold Pathlib.splitroot. destruct s as [| a s]; [left; reflexivity |].
  destruct (Ascii.eqb a Pathlib.sep); [| left; reflexivity].
  destruct (Nat.eqb _ 2); [right; right | right; left]; reflexivity.
Qed.

Lemma of_str_well_formed (s : string) : Script.well_formed (Pathlib.of_str s).
Proof.
  split; [| apply of_str_parts].
  pose proof (splitroot_root s) as H. unfold Pathlib.of_str.
  destruct (Pathlib.splitroot s) as [r rel]. exact H.
Qed.

(** Printing a path and parsing the text gives the path back. *)
Lemma of_str_to_str (p : Path) :
  Script.well_formed p -> Pathlib.of_str (Pathlib.to_str p) = p.
Proof.
  destruct p as [r ps]. intros [Hr Hps]. cbn [root parts] in *.
  unfold Pathlib.to_str. cbn [root parts].
  destruct ps as [| x l].
  - destruct Hr as [-> | [-> | ->]]; reflexivity.
  - assert (x :: l <> []) as Hne by discriminate.
    destruct (concat_head _ Hps Hne) as (a & t & Hc & Ha).
    pose proof (split_concat _ Hps Hne) as Hsplit.
    unfold Pathlib.of_str.
    assert (Pathlib.splitroot (r ++ String.concat "/" (x :: l))
            = (r, String.concat "/" (x :: l))) as ->.
    { rewrite Hc.
      destruct Hr as [-> | [-> | ->]]; unfold Pathlib.splitroot;
        rewrite ?sapp_cons, ?sapp_nil; simpl; rewrite Ha; simpl.
      - reflexivity.
      - replace (S (String.length t) - String.length t) with 1 by lia.
        reflexivity.
      - replace (S (S (String.length t)) - String.length t) with 2 by lia.
        reflexivity. }
    rewrite Hsplit, (filter_keep _ Hps). reflexivity.
Qed.

Lemma candidate_path_well_formed (sdir : Path) (f : string) (k : N) :
  Script.well_formed sdir -> PyStr.contains Pathlib.sep f = false ->
  Script.well_formed (ExportPy.candidate_path sdir f k).
Proof.
  intros [Hr Hps] Hf. split; [exact Hr |].
  unfold ExportPy.candidate_path. cbn [parts].
  apply Forall_app. split; [exact Hps |].
  constructor; [apply candidate_component, Hf | constructor].
Qed.

(** X5: the paths kept in the constructed arguments survive printing:
    parsing [str(args.name)], the text [export] hands to [export_onnx] and
    writes to the log, gives the output name back, and so for the
    checkpoint and the save directory.  The file named in the call is
    therefore the one found free. *)
Theorem printed_paths_parse_back (fs fs' : gmap Path kind) (ns : Namespace)
        (a : ExportArgs) :
  ExportPy.post_init fs ns = Ok (fs', a) ->
  Pathlib.of_str (Pathlib.to_str (name a)) = name a /\
  Pathlib.of_str (Pathlib.to_str (checkpoint a)) = checkpoint a /\
  Pathlib.of_str (Pathlib.to_str (save_dir a)) = save_dir a /\
  FS.exists_ fs' (Pathlib.of_str (Pathlib.to_str (name a))) = false.
Proof.
  intros H.
  destruct (post_init_facts _ _ _ _ H) as (f & k & Hf & Hn & Hfree & _).
  apply post_init_ok in H as (_ & _ & Hc & Hs & _).
  assert (Script.well_formed (save_dir a)) as Hws
    by (rewrite Hs; apply of_str_well_formed).
  assert (Pathlib.of_str (Pathlib.to_str (name a)) = name a) as E.
  { rewrite Hn. apply of_str_to_str, candidate_path_well_formed;
      [exact Hws | eapply filename_no_sep, Hf]. }
  split; [exact E |].
  split; [rewrite Hc; apply of_str_to_str, of_str_well_formed |].
  split; [apply of_str_to_str, Hws |].
  rewrite E. exact Hfree.
Qed.

Lemma printed_paths_parse_back_witness :
  exists (fs' : gmap Path kind) (a : ExportArgs),
    ExportPy.post_init Samples.fs0 Samples.ns0 = Ok (fs', a) /\
    Pathlib.of_str (Pathlib.to_str (name a)) = name a.
Proof.
  assert (is_ok (ExportPy.post_init Samples.fs0 Samples.ns0) = true) as Hok
    by (vm_compute; reflexivity).
  destruct (ExportPy.post_init Samples.fs0 Samples.ns0) as [[fs' a] | o e |]
    eqn:H; try discriminate Hok.
  exists fs', a. split; [reflexivity |].
  apply (printed_paths_parse_back Samples.fs0 fs' Samples.ns0 a H).
Defined.

(** ** Arguments the parser does not know *)

Section Leftover.

Variable tbl : list Argument.










End Leftover.



(** ** The namespace fits the dataclass *)

Lemma fits_insert (st : Argparse.pstate) (k : string) (v : Value)
      (e h : bool) :
  Script.fits st ->
  k ∈ dom (Argparse.defaults ExportCli.table) ->
  Script.field_value k v = true ->
  (k = "checkpoint" -> exists s : string, v = VStr s) ->
  Script.fits (Argparse.MkPstate (<[k := v]> (Argparse.values st))
                                 (k :: Argparse.seen st) e h).
Proof.
  intros (Hd & Ht & Hc) Hk Hv Hck. unfold Script.fits.
  cbn [Argparse.values Argparse.seen].
  remember (dom (Argparse.defaults ExportCli.table)) as D eqn:HD.
  clear HD. split; [| split].
  - rewrite dom_insert_L, Hd. apply subseteq_union_1_L.
    apply singleton_subseteq_l. exact Hk.
  - intros k0 v0. destruct (decide (k0 = k)) as [-> | Hne].
    + rewrite lookup_insert_eq. intros [= <-]. exact Hv.
    + rewrite lookup_insert_ne by congruence. apply Ht.
  - intros Hin. destruct (decide (k = "checkpoint")) as [E | Hne].
    + destruct (Hck E) as [s ->]. exists s. rewrite E.
      apply lookup_insert_eq.
    + rewrite lookup_insert_ne by exact Hne. apply Hc.
      destruct Hin as [E | Hin]; [contradiction | exact Hin].
Qed.

(** what the options of the table store *)
Lemma table_stores (a : Argument) :
  In a ExportCli.table -> action a = Store ->
  Argparse.dest a ∈ dom (Argparse.defaults ExportCli.table) /\
  (Argparse.dest a = "checkpoint" -> type_ a = TStr /\ nargs a = One) /\
  (forall s, type_ a = TStr -> nargs a = One ->
             Script.field_value (Argparse.dest a) (VStr s) = true) /\
  (forall z, type_ a = TInt -> nargs a = One ->
             Script.field_value (Argparse.dest a) (VInt z) = true) /\
  (forall l, type_ a = TInt -> nargs a = OneOrMore ->
             Script.field_value (Argparse.dest a) (VList l) = true).
Proof.
  intros Hin Hact. unfold ExportCli.table, ExportCli.arguments in Hin.
  cbn [In] in Hin.
  repeat (destruct Hin as [<- | Hin];
          [first
             [ discriminate Hact
             | split; [apply elem_of_dom; vm_compute; eexists; reflexivity |];
               split; [vm_compute; intros E; first [discriminate E | auto] |];
               split; [intros s H1 H2;
                       first [discriminate H1 | discriminate H2 | reflexivity] |];
               split; intros z H1 H2;
               first [discriminate H1 | discriminate H2 | reflexivity] ] |]).
  destruct Hin.
Qed.

Lemma table_flags (a : Argument) :
  In a ExportCli.table -> action a = StoreTrue ->
  Argparse.dest a = "no_qat" /\
  Argparse.dest a ∈ dom (Argparse.defaults ExportCli.table).
Proof.
  intros Hin Hact. unfold ExportCli.table, ExportCli.arguments in Hin.
  cbn [In] in Hin.
  repeat (destruct Hin as [<- | Hin];
          [first
             [ discriminate Hact
             | split; [reflexivity
                      | apply elem_of_dom; vm_compute; eexists; reflexivity] ] |]).
  destruct Hin.
Qed.

Lemma store_fits (a : Argument) (vals : list string) (st : Argparse.pstate) :
  In a ExportCli.table -> action a = Store -> Script.fits st ->
  library_error Script.fits (Argparse.store a vals st).
Proof.
  intros Hin Hact Hst.
  destruct (table_stores a Hin Hact) as (Hd & Hck & Hs & Hi & Hl).
  unfold Argparse.store.
  destruct (nargs a) eqn:Hn, vals as [| v [| v' vals]]; cbv beta iota;
    try exact I;
    destruct (Argparse.help_pending st); try exact I.
  - unfold Argparse.convert. destruct (type_ a) eqn:Hty; cbn [obind].
    + apply fits_insert; auto. intros _. eexists; reflexivity.
    + destruct (Argparse.py_int v); [| exact I]. cbn [obind library_error].
      apply fits_insert; auto.
      intros E. destruct (Hck E) as [E' _]. discriminate E'.
  - destruct (type_ a) eqn:Hty; [exact I |].
    apply (library_error_bind (fun _ => True)); [apply convert_ints_lib |].
    intros zs _. apply fits_insert; auto.
    intros E. destruct (Hck E) as [E' _]. discriminate E'.
  - destruct (type_ a) eqn:Hty; [exact I |].
    apply (library_error_bind (fun _ => True)); [apply convert_ints_lib |].
    intros zs _. apply fits_insert; auto.
    intros E. destruct (Hck E) as [E' _]. discriminate E'.
Qed.

Lemma flag_fits (a : Argument) (st : Argparse.pstate) :
  In a ExportCli.table -> action a <> Store -> Script.fits st ->
  Script.fits (Argparse.flag a st).
Proof.
  intros Hin Hact Hst. unfold Argparse.flag.
  destruct (action a) eqn:E; [congruence | |].
  - destruct (table_flags a Hin E) as [Hd Hdom].
    apply fits_insert; auto.
    + rewrite Hd. reflexivity.
    + rewrite Hd. discriminate.
  - exact Hst.
Qed.

Lemma awaiting_stores (a : Argument) :
  In a ExportCli.table -> action a = Store ->
  Script.mode_stores (Argparse.awaiting a).
Proof. unfold Argparse.awaiting. destruct (nargs a); cbn; auto. Qed.

Lemma take_shorts_fits (rest : string) :
  forall (a : Argument) (st : Argparse.pstate),
    In a ExportCli.table -> Script.fits st ->
    library_error (fun r => Script.fits (fst r) /\ Script.mode_stores (snd r))
                  (Argparse.take_shorts ExportCli.table a rest st).
Proof.
  induction rest as [| c rest IH]; intros a st Hin Hst;
    cbn [Argparse.take_shorts]; destruct (action a) eqn:Hact.
  - split; [exact Hst | apply awaiting_stores; assumption].
  - split; [apply flag_fits; auto; congruence | exact I].
  - split; [apply flag_fits; auto; congruence | exact I].
  - apply (library_error_bind Script.fits); [apply store_fits; assumption |].
    intros st1 H. split; [exact H | exact I].
  - destruct (Argparse.find_exact ExportCli.table (Argparse.short_flag c))
      as [a1 |] eqn:E; [| exact I].
    apply IH; [apply (find_exact_in _ _ _ E) | apply flag_fits; auto; congruence].
  - destruct (Argparse.find_exact ExportCli.table (Argparse.short_flag c))
      as [a1 |] eqn:E; [| exact I].
    apply IH; [apply (find_exact_in _ _ _ E) | apply flag_fits; auto; congruence].
Qed.

Lemma option_tuples_in (tbl : list Argument) (t : string) (a : Argument)
      (e : option string) :
  In (a, e) (Argparse.option_tuples tbl t) -> In a tbl.
Proof.
  unfold Argparse.option_tuples.
  destruct (String.prefix "--" t).
  - destruct (Argparse.partition "="%char t) as [pre expl].
    intros H. apply in_flat_map in H as (b & Hb & H).
    apply in_map_iff in H as (f & [= <- _] & _). exact Hb.
  - intros H. apply in_flat_map in H as (b & Hb & H).
    apply in_flat_map in H as (f & _ & H).
    destruct (String.eqb f _); [destruct H as [[= <- _] | []]; exact Hb |].
    destruct (String.prefix t f); [| destruct H].
    destruct H as [[= <- _] | []]. exact Hb.
Qed.

Lemma resolve_in (tbl : list Argument) (t : string) (a : Argument)
      (e : option string) :
  Argparse.resolve tbl t = Argparse.ROption a e -> In a tbl.
Proof.
  unfold Argparse.resolve.
  destruct (negb (String.prefix "-" t)); [discriminate |].
  destruct (Argparse.find_exact tbl t) as [a0 |] eqn:E0.
  { intros [= <- _]. apply (find_exact_in _ _ _ E0). }
  destruct (Nat.eqb (String.length t) 1); [discriminate |].
  destruct (Argparse.partition "="%char t) as [opt [expl |]].
  - destruct (Argparse.find_exact tbl opt) as [a1 |] eqn:E1; cbn.
    + intros [= <- _]. apply (find_exact_in _ _ _ E1).
    + destruct (Argparse.option_tuples tbl t) as [| [a2 e2] [| ? ?]] eqn:E2;
        try discriminate.
      * destruct (Argparse.is_negative_number t); [discriminate |].
        destruct (PyStr.contains _ t); discriminate.
      * intros [= <- <-]. apply (option_tuples_in tbl t a2 e2).
        rewrite E2. left. reflexivity.
  - destruct (Argparse.option_tuples tbl t) as [| [a2 e2] [| ? ?]] eqn:E2;
      try discriminate.
    + destruct (Argparse.is_negative_number t); [discriminate |].
      destruct (PyStr.contains _ t); discriminate.
    + intros [= <- <-]. apply (option_tuples_in tbl t a2 e2).
      rewrite E2. left. reflexivity.
Qed.

Lemma take_token_fits (t : string) (st : Argparse.pstate) :
  Script.fits st ->
  library_error (fun r => Script.fits (fst r) /\ Script.mode_stores (snd r))
                (Argparse.take_token ExportCli.table t st).
Proof.
  intros Hst. unfold Argparse.take_token.
  destruct (Argparse.resolve ExportCli.table t) as [| a expl | |] eqn:E;
    try exact I; try (split; [exact Hst | exact I]).
  pose proof (resolve_in _ _ _ _ E) as Hin.
  unfold Argparse.take_option.
  destruct expl as [v |]; [| apply take_shorts_fits; assumption].
  destruct (action a) eqn:Hact.
  - apply (library_error_bind Script.fits); [apply store_fits; assumption |].
    intros st1 H. split; [exact H | exact I].
  - destruct (negb _); [| exact I].
    destruct v; [exact I | apply take_shorts_fits; assumption].
  - destruct (negb _); [| exact I].
    destruct v; [exact I | apply take_shorts_fits; assumption].
Qed.

Lemma consume_fits (ts : list string) :
  forall (m : Argparse.mode) (st : Argparse.pstate),
    Script.mode_stores m -> Script.fits st ->
    library_error Script.fits (Argparse.consume ExportCli.table ts m st).
Proof.
  induction ts as [| t ts IH]; intros m st Hm Hst;
    destruct m as [| a | a acc]; cbn [Argparse.consume].
  - destruct (Argparse.help_pending st); [exact I | exact Hst].
  - exact I.
  - destruct Hm. apply store_fits; assumption.
  - destruct (Argparse.help_pending st); [exact I |].
    eapply library_error_bind; [apply take_token_fits, Hst |].
    intros [st1 m1] [H1 H2]. apply IH; assumption.
  - destruct Hm. destruct (Argparse.is_arg _ t); [| exact I].
    apply (library_error_bind Script.fits); [apply store_fits; assumption |].
    intros st1 H1. apply IH; [exact I | exact H1].
  - destruct (Argparse.is_arg _ t); [apply IH; assumption |].
    destruct Hm.
    apply (library_error_bind Script.fits); [apply store_fits; assumption |].
    intros st1 H1.
    eapply library_error_bind; [apply take_token_fits, H1 |].
    intros [st2 m2] [H2 H3]. apply IH; assumption.
Qed.

Lemma defaults_fit :
  Script.fits (Argparse.MkPstate (Argparse.defaults ExportCli.table) []
                                 false false).
Proof.
  split; [reflexivity |]. split; [| intros []].
  cbn [Argparse.values]. intros k v H.
  assert (k ∈ dom (Argparse.defaults ExportCli.table)) as Hk
    by (apply elem_of_dom; eexists; exact H).
  revert v H.
  change (dom (Argparse.defaults ExportCli.table))
    with (dom (<["name" := VNone]>
                 (<["save_dir" := VStr "./exported_models"]>
                 (<["image_shape" := VTuple [3; 550; 550]%Z]>
                 (<["batch_size" := VInt 1]>
                 (<["no_qat" := VBool false]>
                 (<["recipe" := VNone]>
                 (<["config" := VStr "yolact_base_config"]>
                 (<["checkpoint" := VNone]> (∅ : gmap string Value)))))))))) in Hk.
  rewrite !dom_insert_L, dom_empty_L in Hk.
  repeat (apply elem_of_union in Hk as [Hk | Hk];
          [apply elem_of_singleton in Hk; subst k; intros v H;
           vm_compute in H; injection H as <-; reflexivity |]).
  apply elem_of_empty in Hk. contradiction.
Qed.

Lemma fits_field (st : Argparse.pstate) (k : string) :
  Script.fits st ->
  k ∈ dom (Argparse.defaults ExportCli.table) ->
  exists v : Value,
    Argparse.values st !! k = Some v /\ Script.field_value k v = true.
Proof.
  intros (Hd & Ht & _) Hk. rewrite <- Hd in Hk.
  apply elem_of_dom in Hk as [v Hv]. exists v. split; [exact Hv | eauto].
Qed.

Lemma default_field (k : string) (v : Value) :
  Argparse.defaults ExportCli.table !! k = Some v ->
  k ∈ dom (Argparse.defaults ExportCli.table).
Proof. intros H. apply elem_of_dom. eexists. exact H. Qed.

Lemma checkpoint_seen (st : Argparse.pstate) :
  Argparse.missing_required ExportCli.table st = false ->
  In "checkpoint" (Argparse.seen st).
Proof.
  intros H.
  destruct (existsb (String.eqb "checkpoint") (Argparse.seen st)) eqn:E.
  - apply existsb_exists in E as (x & Hx & E).
    apply String.eqb_eq in E. subst x. exact Hx.
  - exfalso. revert H.
    unfold Argparse.missing_required, ExportCli.table, ExportCli.arguments.
    cbn [existsb required Argparse.help_argument andb orb].
    change (Argparse.dest (MkArgument ["--checkpoint"] TStr true VNone Store One))
      with "checkpoint".
    rewrite E. discriminate.
Qed.

(** X7: whatever the command line, a namespace the parser returns can be
    turned into [ExportArgs]: it has exactly the eight fields of the
    dataclass, each with a value of the kind its option produces, and the
    checkpoint is the string given on the command line.  The keyword
    construction in [parse_args] thus never fails for a missing or an
    unexpected keyword. *)
Theorem parsed_namespace_fits (argv : list string) (d : gmap string Value) :
  Argparse.parse ExportCli.arguments argv = Ok d ->
  exists ns : Namespace,
    ExportCli.kwargs d = Ok ns /\
    d !! "checkpoint" = Some (VStr (ns_checkpoint ns)).
Proof.
  unfold Argparse.parse. fold ExportCli.table.
  destruct (existsb _ argv); [discriminate |].
  pose proof (consume_fits argv Argparse.Idle _ I defaults_fit) as Hc.
  destruct (Argparse.consume ExportCli.table argv Argparse.Idle _)
    as [st | |]; cbn [obind library_error] in *; try discriminate.
  destruct (Argparse.missing_required ExportCli.table st) eqn:Hreq;
    [discriminate |].
  destruct (Argparse.extras st); [discriminate |].
  intros [= <-].
  pose proof (checkpoint_seen st Hreq) as Hseen.
  pose proof Hc as (Hd & _ & Hck). destruct (Hck Hseen) as [ck Eck].
  assert (size (Argparse.values st) = 8) as Hsize.
  { rewrite <- size_dom, Hd, size_dom. vm_compute. reflexivity. }
  destruct (fits_field st "config" Hc
              (default_field "config" (VStr "yolact_base_config") ltac:(vm_compute; reflexivity)))
    as (cf & Ecf & Tcf).
  destruct (fits_field st "recipe" Hc
              (default_field "recipe" VNone ltac:(vm_compute; reflexivity)))
    as (rc & Erc & Trc).
  destruct (fits_field st "no_qat" Hc
              (default_field "no_qat" (VBool false) ltac:(vm_compute; reflexivity)))
    as (nq & Enq & Tnq).
  destruct (fits_field st "batch_size" Hc
              (default_field "batch_size" (VInt 1) ltac:(vm_compute; reflexivity)))
    as (bs & Ebs & Tbs).
  destruct (fits_field st "image_shape" Hc
              (default_field "image_shape" (VTuple [3; 550; 550]%Z) ltac:(vm_compute; reflexivity)))
    as (sh & Esh & Tsh).
  destruct (fits_field st "save_dir" Hc
              (default_field "save_dir" (VStr "./exported_models") ltac:(vm_compute; reflexivity)))
    as (sd & Esd & Tsd).
  destruct (fits_field st "name" Hc
              (default_field "name" VNone ltac:(vm_compute; reflexivity)))
    as (nm & Enm & Tnm).
  unfold ExportCli.kwargs. rewrite Eck, Ecf, Erc, Enq, Ebs, Esh, Esd, Enm, Hsize.
  destruct cf; try discriminate Tcf.
  destruct rc; try discriminate Trc;
    destruct nq; try discriminate Tnq;
    destruct bs; try discriminate Tbs;
    destruct sh; try discriminate Tsh;
    destruct sd; try discriminate Tsd;
    destruct nm; try discriminate Tnm;
    eexists; (split; [reflexivity | reflexivity]).
Qed.

Lemma parsed_namespace_fits_witness :
  is_ok (Argparse.parse ExportCli.arguments
           ["--checkpoint"; "w.pth"; "-S"; "3"; "512"; "512"; "-Nb4"]) = true /\
  ExportCli.parse_namespace
    ["--checkpoint"; "w.pth"; "-S"; "3"; "512"; "512"; "-Nb4"]
    = Ok (MkNamespace "w.pth" "yolact_base_config" None true 4
                      [3; 512; 512]%Z "./exported_models" None) /\
  exists ns : Namespace,
    ExportCli.parse_namespace
      ["--checkpoint"; "w.pth"; "-S"; "3"; "512"; "512"; "-Nb4"] = Ok ns.
Proof.
  split; [vm_compute; reflexivity |]. split; [vm_compute; reflexivity |].
  unfold ExportCli.parse_namespace.
  destruct (Argparse.parse ExportCli.arguments
              ["--checkpoint"; "w.pth"; "-S"; "3"; "512"; "512"; "-Nb4"])
    as [d | o e |] eqn:H.
  - destruct (parsed_namespace_fits _ d H) as (ns & Hk & _).
    exists ns. exact Hk.
  - exfalso. apply (f_equal is_ok) in H. vm_compute in H. discriminate H.
  - exfalso. apply (f_equal is_ok) in H. vm_compute in H. discriminate H.
Defined.

(** ** The script run with its defaults *)

Lemma export_without_recipe {S : Type} (h : handler exportE S)
      (args : ExportArgs) (s s' : S) (u : unit) (tr : list (entry exportE)) :
  recipe args = None ->
  run h (ExportRun.export args) s = (Ok u, s', tr) ->
  exists (mdl : NNModule) (state sample : PyObj),
    tr = [Entry (SetCfg (config args)) (Ok tt);
          Entry NewYolact (Ok mdl);
          Entry (LoggingDebug ("Loading state dict from checkpoint "
                                 ++ Pathlib.to_str (checkpoint args))%string)
                (Ok tt);
          Entry (TorchLoad (checkpoint args)) (Ok state);
          Entry (LoadStateDict mdl state) (Ok tt);
          Entry (TorchRandn (batch_size args :: image_shape args)) (Ok sample);
          Entry (ExportOnnx mdl sample (Pathlib.to_str (name args))
                            (negb (no_qat args))) (Ok tt);
          Entry (LoggingInfo ("Model checkpoint exported to "
                                ++ Pathlib.to_str (name args))%string)
                (Ok tt)].
Proof.
  intros Hr H. unfold ExportRun.export in H. rewrite Hr in H.
  answer h H. answer h H.
  unfold mbind, prog_bind in H. rewrite run_bind in H.
  cbn [run] in H. do 5 answer h H.
  rewrite run_call in H. unfold single in H.
  destruct (h _ (LoggingInfo _) _) as [[z | ? ? |] s9];
    cbn [outcome_map obind app] in H; try discriminate H.
  inversion H; subst.
  repeat match goal with v : unit |- _ => destruct v end.
  eexists _, _, _. reflexivity.
Qed.

(** X8: the script run with [--checkpoint p] alone.  When it ends
    normally, the arguments were constructed from [p] and the defaults of
    the parser; the save directory is [exported_models] under the current
    directory and exists afterwards; no recipe is loaded or applied; the
    configuration selected is [yolact_base_config]; the sample batch has
    shape [(1, 3, 550, 550)] and the model is exported with
    [convert_qat=True] to the output name. *)
Theorem default_run {S : Type} (h : handler exportE S)
        (fs fs' : gmap Path kind) (p : string) (s s' : S) (u : unit)
        (tr : list (entry exportE)) :
  String.prefix "-" p = false ->
  Script.main h fs ["--checkpoint"; p] s = (Ok u, Some fs', s', tr) ->
  exists (a : ExportArgs) (mdl : NNModule) (state sample : PyObj),
    ExportPy.post_init fs
      (MkNamespace p "yolact_base_config" None false 1 [3; 550; 550]%Z
                   "./exported_models" None) = Ok (fs', a) /\
    checkpoint a = Pathlib.of_str p /\
    save_dir a = MkPath "" ["exported_models"] /\
    FS.is_dir fs' (MkPath "" ["exported_models"]) = true /\
    tr = [Entry (SetCfg "yolact_base_config") (Ok tt);
          Entry NewYolact (Ok mdl);
          Entry (LoggingDebug ("Loading state dict from checkpoint "
                                 ++ Pathlib.to_str (Pathlib.of_str p))%string)
                (Ok tt);
          Entry (TorchLoad (Pathlib.of_str p)) (Ok state);
          Entry (LoadStateDict mdl state) (Ok tt);
          Entry (TorchRandn [1; 3; 550; 550]%Z) (Ok sample);
          Entry (ExportOnnx mdl sample (Pathlib.to_str (name a)) true) (Ok tt);
          Entry (LoggingInfo ("Model checkpoint exported to "
                                ++ Pathlib.to_str (name a))%string)
                (Ok tt)].
Proof.
  intros Hp. unfold Script.main, ExportCli.parse_args.
  rewrite (parse_checkpoint_only p Hp). cbn [obind].
  set (ns := MkNamespace p "yolact_base_config" None false 1 [3; 550; 550]%Z
                         "./exported_models" None).
  destruct (ExportPy.post_init fs ns) as [[fs1 a] | o e |] eqn:Hpost;
    try discriminate.
  destruct (run h (ExportRun.export a) s) as [[r s1] tr1] eqn:Hrun.
  intros [= -> <- <- <-].
  destruct (post_init_fields _ _ _ _ Hpost) as (F1 & F2 & F3 & F4 & F5).
  destruct (post_init_facts _ _ _ _ Hpost) as (_ & _ & _ & _ & _ & _ & _ & Hd & _).
  pose proof Hpost as Hok.
  apply post_init_ok in Hok as (_ & _ & Hc & Hs & _).
  cbn [ns ns_config ns_recipe ns_no_qat ns_batch_size ns_image_shape
       ns_checkpoint ns_save_dir] in *.
  destruct (export_without_recipe h a s s1 u tr1 F2 Hrun)
    as (mdl & state & sample & ->).
  change (Pathlib.of_str "./exported_models")
    with (MkPath "" ["exported_models"]) in Hs.
  exists a, mdl, state, sample.
  rewrite Hs in Hd. rewrite F1, F3, F4, F5, Hc.
  split; [reflexivity |]. split; [reflexivity |]. split; [exact Hs |].
  split; [exact Hd | reflexivity].
Qed.

Lemma default_run_witness :
  String.prefix "-" "ckpt/model.pth" = false /\
  exists (fs' : gmap Path kind) (tr : list (entry exportE)) (a : ExportArgs),
    Script.main Samples.export_env Samples.fs0 ["--checkpoint"; "ckpt/model.pth"]
                tt = (Ok tt, Some fs', tt, tr) /\
    save_dir a = MkPath "" ["exported_models"] /\
    FS.is_dir fs' (MkPath "" ["exported_models"]) = true.
Proof.
  split; [reflexivity |].
  assert (is_ok (ExportCli.parse_args Samples.fs0
                   ["--checkpoint"; "ckpt/model.pth"]) = true) as Hok
    by (vm_compute; reflexivity).
  destruct (ExportCli.parse_args Samples.fs0 ["--checkpoint"; "ckpt/model.pth"])
    as [[fs1 a0] | |] eqn:Hp; try discriminate Hok.
  assert (Script.main Samples.export_env Samples.fs0
            ["--checkpoint"; "ckpt/model.pth"] tt
          = (Ok tt, Some fs1, tt,
             snd (run Samples.export_env (ExportRun.export a0) tt))) as H.
  { unfold Script.main. rewrite Hp.
    destruct a0 as [c cf [r |] q b i sd n]; reflexivity. }
  destruct (default_run Samples.export_env Samples.fs0 fs1 "ckpt/model.pth"
              tt tt tt _ eq_refl H) as (a & _ & _ & _ & _ & _ & Hs & Hd & _).
  eexists fs1, _, a. split; [exact H | split; assumption].
Defined.

(** ** The wrapper over its life *)

Lemma returns_only_bind {E : Type -> Type} {R T : Type} (P : R -> Prop)
      (Q : T -> Prop) (p : prog E R) (f : R -> prog E T) :
  returns_only P p ->
  (forall r, P r -> returns_only Q (f r)) ->
  returns_only Q (bind p f).
Proof.
  induction p as [r | o e | X ev k IH]; cbn; intros Hp Hf; auto.
Qed.

Lemma returns_only_run {E : Type -> Type} {R S : Type} (P : R -> Prop)
      (h : handler E S) (p : prog E R) :
  returns_only P p ->
  forall (s s' : S) (r : R) (tr : list (entry E)),
    run h p s = (Ok r, s', tr) -> P r.
Proof.
  induction p as [r0 | o e | X ev k IH]; cbn; intros Hp s s' r tr H.
  - injection H as <- _ _. exact Hp.
  - discriminate H.
  - destruct (h X ev s) as [[x | o e |] s1]; try discriminate H.
    destruct (run h (k x) s1) as [[r1 s2] tr1] eqn:Hk.
    injection H as -> _ _. eapply IH; [apply Hp | exact Hk].
Qed.

(** the results of the methods carry the wrapper they were called on *)
Ltac wrapper_kept :=
  repeat first
    [ progress unfold mbind, prog_bind, Sparse.the_manager, Sparse.the_logger,
        Sparse.lift, call
    | progress cbn [returns_only bind snd]
    | match goal with
      | |- True => exact I
      | |- ?x = ?x => reflexivity
      | |- forall _, _ => intro
      | |- context [match ?x with _ => _ end] => destruct x
      end ].

Lemma methods_keep_wrapper (w : SparseMLWrapper) :
  returns_only (fun r => snd r = w) (Sparse.state_dict w) /\
  returns_only (fun r => snd r = w) (Sparse.apply w) /\
  (forall epoch, returns_only (fun r => snd r = w) (Sparse.initialize w epoch)) /\
  (forall lg tb wl rank,
     returns_only (fun r => snd r = with_logger w lg)
                  (Sparse.initialize_loggers w lg tb wl rank)) /\
  (forall scaler optimizer mdl dl,
     returns_only (fun r => snd r = w)
                  (Sparse.modify w scaler optimizer mdl dl)) /\
  (forall sch,
     returns_only (fun r => snd r = w) (Sparse.check_lr_override w sch)) /\
  (forall n,
     returns_only (fun r => snd r = w) (Sparse.check_epoch_override w n)) /\
  (forall epoch, returns_only (fun r => snd r = w) (Sparse.qat_active w epoch)) /\
  (forall epoch, returns_only (fun r => snd r = w) (Sparse.reset_best w epoch)).
Proof.
  repeat split; intros;
    unfold Sparse.state_dict, Sparse.apply, Sparse.initialize,
      Sparse.initialize_loggers, Sparse.modify, Sparse.check_lr_override,
      Sparse.check_epoch_override, Sparse.qat_active, Sparse.reset_best;
    wrapper_kept.
Qed.

(** X9: the constructor decides once and for all.  After [__init__] the
    wrapper is enabled exactly when the recipe is non-empty, it has a
    manager exactly when it is enabled, it has no logger, and the model it
    keeps is the module inside a [DataParallel] or
    [DistributedDataParallel] container.  Afterwards no method changes
    the wrapper, whatever the libraries answer, except
    [initialize_loggers], which replaces the [logger] attribute and
    nothing else. *)
Theorem wrapper_setup_is_stable {S : Type} (h : handler sparseE S)
        (s s' : S) (tr : list (entry sparseE)) (w w' : SparseMLWrapper) :
  (forall (m : NNModule) (r : option string),
     run h (Sparse.init m r) s = (Ok w', s', tr) ->
     enabled w' = Sparse.recipe_truthy r /\
     (enabled w' = true <-> manager w' <> None) /\
     model w' = Sparse.module_of m /\ logger w' = None) /\
  (forall x, run h (Sparse.state_dict w) s = (Ok (x, w'), s', tr) -> w' = w) /\
  (forall x, run h (Sparse.apply w) s = (Ok (x, w'), s', tr) -> w' = w) /\
  (forall x epoch,
     run h (Sparse.initialize w epoch) s = (Ok (x, w'), s', tr) -> w' = w) /\
  (forall x lg tb wl rank,
     run h (Sparse.initialize_loggers w lg tb wl rank) s
       = (Ok (x, w'), s', tr) ->
     w' = with_logger w lg) /\
  (forall x scaler optimizer mdl dl,
     run h (Sparse.modify w scaler optimizer mdl dl) s
       = (Ok (x, w'), s', tr) -> w' = w) /\
  (forall x sch,
     run h (Sparse.check_lr_override w sch) s = (Ok (x, w'), s', tr) ->
     w' = w) /\
  (forall x n,
     run h (Sparse.check_epoch_override w n) s = (Ok (x, w'), s', tr) ->
     w' = w) /\
  (forall x epoch,
     run h (Sparse.qat_active w epoch) s = (Ok (x, w'), s', tr) -> w' = w) /\
  (forall x epoch,
     run h (Sparse.reset_best w epoch) s = (Ok (x, w'), s', tr) -> w' = w).
Proof.
  destruct (methods_keep_wrapper w)
    as (M1 & M2 & M3 & M4 & M5 & M6 & M7 & M8 & M9).
  split.
  { intros m r H. unfold Sparse.init in H. cbn in H.
    destruct (Sparse.recipe_truthy r) eqn:Hr; cbn in H.
    - destruct (h _ _ s) as [[x | o e |] s1]; cbn in H; inversion H; subst.
      cbn. split; [reflexivity |]. split; [split; congruence |].
      split; [destruct m; reflexivity | reflexivity].
    - inversion H; subst. cbn. split; [reflexivity |].
      split; [split; congruence |].
      split; [destruct m; reflexivity | reflexivity]. }
  split; [intros x H; exact (returns_only_run _ h _ M1 _ _ _ _ H) |].
  split; [intros x H; exact (returns_only_run _ h _ M2 _ _ _ _ H) |].
  split; [intros x e H; exact (returns_only_run _ h _ (M3 e) _ _ _ _ H) |].
  split; [intros x lg tb wl rank H;
          exact (returns_only_run _ h _ (M4 lg tb wl rank) _ _ _ _ H) |].
  split; [intros x sc op mdl dl H;
          exact (returns_only_run _ h _ (M5 sc op mdl dl) _ _ _ _ H) |].
  split; [intros x sch H; exact (returns_only_run _ h _ (M6 sch) _ _ _ _ H) |].
  split; [intros x n H; exact (returns_only_run _ h _ (M7 n) _ _ _ _ H) |].
  split; [intros x e H; exact (returns_only_run _ h _ (M8 e) _ _ _ _ H) |].
  intros x e H. exact (returns_only_run _ h _ (M9 e) _ _ _ _ H).
Qed.

Lemma wrapper_setup_is_stable_witness :
  run Samples.sparse_env
      (Sparse.init (DataParallel (PlainModule "yolact")) (Some "recipe.yaml"))
      tt
    = (Ok Samples.enabled0, tt,
       [Entry (FromYaml "recipe.yaml") (Ok Samples.quant)]) /\
  model Samples.enabled0 = PlainModule "yolact" /\
  run Samples.sparse_env
      (Sparse.initialize_loggers Samples.enabled0 (Some (Obj "log"))
         (Obj "tb") None 1%Z) tt
    = (Ok (tt, with_logger Samples.enabled0 (Some (Obj "log"))), tt, []).
Proof.
  split; [reflexivity |].
  destruct (wrapper_setup_is_stable Samples.sparse_env tt tt
              [Entry (FromYaml "recipe.yaml") (Ok Samples.quant)]
              Samples.enabled0 Samples.enabled0) as (H & _).
  destruct (H (DataParallel (PlainModule "yolact")) (Some "recipe.yaml")
              eq_refl) as (_ & _ & Hm & _).
  split; [exact Hm | reflexivity].
Defined.

(** ** Quantization and the best checkpoint *)

(** X10: quantization-aware training, once active, stays active: if
    [qat_active] answers [True] at an epoch, it answers [True] at every
    later epoch. *)
Theorem qat_active_stays {S : Type} (h : handler sparseE S) (s : S)
        (w : SparseMLWrapper) (e1 e2 : Q) :
  (e1 <= e2)%Q ->
  run h (Sparse.qat_active w e1) s = (Ok (true, w), s, []) ->
  run h (Sparse.qat_active w e2) s = (Ok (true, w), s, []).
Proof.
  intros Hle. unfold Sparse.qat_active, Sparse.the_manager.
  destruct (enabled w); cbn; [| discriminate].
  destruct (manager w) as [mgr |]; cbn; [| discriminate].
  destruct (quantization_modifiers mgr) as [| q0 qs]; cbn; [discriminate |].
  set (mn := fold_left _ _ _).
  intros [= H]. apply qltb_true in H.
  assert (Sparse.qltb mn (e2 + 1) = true) as ->; [| reflexivity].
  apply qltb_true. eapply Qlt_le_trans; [exact H |].
  apply Qplus_le_compat; [exact Hle | apply Qle_refl].
Qed.

Lemma qat_active_stays_witness :
  (1 <= 7)%Q /\
  run Samples.sparse_env (Sparse.qat_active Samples.enabled0 1) tt
    = (Ok (true, Samples.enabled0), tt, []) /\
  run Samples.sparse_env (Sparse.qat_active Samples.enabled0 0) tt
    = (Ok (false, Samples.enabled0), tt, []) /\
  run Samples.sparse_env (Sparse.qat_active Samples.enabled0 7) tt
    = (Ok (true, Samples.enabled0), tt, []).
Proof.
  assert (1 <= 7)%Q as Hle by (vm_compute; discriminate).
  split; [exact Hle |]. split; [reflexivity |]. split; [reflexivity |].
  apply (qat_active_stays Samples.sparse_env tt Samples.enabled0 1 7 Hle).
  reflexivity.
Defined.

Lemma fold_max_spec (xs : list Q) (x : Q) :
  let m := fold_left (fun m y => if Sparse.qltb m y then y else m) xs x in
  In m (x :: xs) /\ forall y, In y (x :: xs) -> (y <= m)%Q.
Proof.
  revert x. induction xs as [| a xs IH]; intros x; cbn.
  - split; [left; reflexivity |].
    intros y [<- | []]. apply Qle_refl.
  - destruct (Sparse.qltb x a) eqn:E.
    + destruct (IH a) as [Hin Hle]. split.
      * right. exact Hin.
      * intros y [<- | Hy]; [| apply Hle; exact Hy].
        apply qltb_true in E.
        eapply Qle_trans; [apply Qlt_le_weak; exact E |].
        apply Hle. left. reflexivity.
    + destruct (IH x) as [Hin Hle]. split.
      * destruct Hin as [Hin | Hin]; [left; exact Hin | right; right; exact Hin].
      * intros y [<- | [<- | Hy]].
        -- apply Hle. left. reflexivity.
        -- eapply Qle_trans; [| apply Hle; left; reflexivity].
           apply Qnot_lt_le. intros Hlt. apply qltb_true in Hlt. congruence.
        -- apply Hle. right. exact Hy.
Qed.

Lemma py_max_largest (l : list Q) (m : Q) :
  Sparse.py_max l = Some m -> largest l m.
Proof.
  destruct l as [| x xs]; cbn; [discriminate |].
  intros [= <-]. apply fold_max_spec.
Qed.

Lemma largest_unique (l : list Q) (m m' : Q) :
  largest l m -> largest l m' -> (m == m')%Q.
Proof.
  intros [Hi Hl] [Hi' Hl']. apply Qle_antisym; auto.
Qed.

Lemma py_max_some (l : list Q) : l <> [] -> exists m, Sparse.py_max l = Some m.
Proof. destruct l; [congruence | eexists; reflexivity]. Qed.

Lemma qleb_true (a b : Q) : Sparse.qleb a b = true <-> (a <= b)%Q.
Proof. apply Qle_bool_iff. Qed.

(** the three epochs [reset_best] compares with: [-1] without modifiers *)
Lemma between_true (a b : Z) (e : Q) :
  Sparse.qleb (inject_Z a) e && Sparse.qleb e (inject_Z b) = true <->
  (inject_Z a <= e)%Q /\ (e <= inject_Z b)%Q.
Proof. rewrite andb_true_iff, !qleb_true. reflexivity. Qed.

Lemma minus_one_only (e : Q) :
  (inject_Z (-1)%Z <= e)%Q /\ (e <= inject_Z (-1)%Z)%Q <-> (e == inject_Z (-1)%Z)%Q.
Proof.
  split.
  - intros [H1 H2]. apply Qle_antisym; assumption.
  - intros H. rewrite H. split; apply Qle_refl.
Qed.

Lemma floor_largest (l : list Q) (m m' : Q) :
  largest l m -> largest l m' -> Qfloor m = Qfloor m'.
Proof. intros H H'. apply Qfloor_comp, (largest_unique l); assumption. Qed.

Lemma ceiling_largest (l : list Q) (m m' : Q) :
  largest l m -> largest l m' -> Qceiling m = Qceiling m'.
Proof. intros H H'. apply Qceiling_comp, (largest_unique l); assumption. Qed.

(** X11: on an enabled wrapper [reset_best(epoch)] makes no library call
    and answers [True] exactly in two cases.  The first: [epoch] lies
    between the floor of the largest [start_epoch] and the ceiling of the
    largest [end_epoch] of the pruning modifiers (the window opens with
    the modifier that starts last).  The second: [epoch] is the floor of
    the largest [start_epoch] of the quantization modifiers.  A missing
    kind of modifier counts as epoch [-1], so that without modifiers the
    answer is [True] for [epoch = -1] only. *)
Theorem reset_best_window {S : Type} (h : handler sparseE S) (s : S)
        (w : SparseMLWrapper) (mgr : Manager) (epoch : Q) :
  enabled w = true ->
  manager w = Some mgr ->
  exists b : bool,
    run h (Sparse.reset_best w epoch) s = (Ok (b, w), s, []) /\
    (b = true <->
     match pruning_modifiers mgr with
     | [] => (epoch == inject_Z (-1)%Z)%Q
     | _ :: _ =>
         exists ps pe : Q,
           largest (List.map start_epoch (pruning_modifiers mgr)) ps /\
           largest (List.map end_epoch (pruning_modifiers mgr)) pe /\
           (inject_Z (Qfloor ps) <= epoch)%Q /\
           (epoch <= inject_Z (Qceiling pe))%Q
     end \/
     match quantization_modifiers mgr with
     | [] => (epoch == inject_Z (-1)%Z)%Q
     | _ :: _ =>
         exists qs : Q,
           largest (List.map start_epoch (quantization_modifiers mgr)) qs /\
           (epoch == inject_Z (Qfloor qs))%Q
     end).
Proof.
  intros Hen Hm. unfold Sparse.reset_best, Sparse.the_manager.
  rewrite Hen, Hm. cbn [negb].
  destruct (pruning_modifiers mgr) as [| p0 ps] eqn:Hp;
    destruct (quantization_modifiers mgr) as [| q0 qs] eqn:Hq;
    cbn [Sparse.nonempty List.map Sparse.py_max Sparse.lift mbind prog_bind
         bind run]; eexists; (split; [reflexivity |]);
    rewrite orb_true_iff, between_true, Qeq_bool_iff.
  - pose proof (minus_one_only epoch) as Hmo. tauto.
  - pose proof (minus_one_only epoch) as Hmo.
    pose proof (fold_max_spec (List.map start_epoch qs) (start_epoch q0)) as Hl.
    cbv zeta in Hl. set (mq := fold_left _ _ _) in *.
    split; (intros [H | H]; [left; apply Hmo, H | right]).
    + exists mq. split; [exact Hl | exact H].
    + destruct H as (q & Hq' & ->).
      rewrite (floor_largest _ _ _ Hl Hq'). reflexivity.
  - pose proof (minus_one_only epoch) as Hmo.
    pose proof (fold_max_spec (List.map start_epoch ps) (start_epoch p0)) as Hs.
    pose proof (fold_max_spec (List.map end_epoch ps) (end_epoch p0)) as He.
    cbv zeta in Hs, He.
    set (ms := fold_left _ (List.map start_epoch ps) _) in *.
    set (me := fold_left _ (List.map end_epoch ps) _) in *.
    split; (intros [H | H]; [left | right; exact H]).
    + exists ms, me. split; [exact Hs | split; [exact He | exact H]].
    + destruct H as (a & b & Ha & Hb & H1 & H2).
      rewrite (floor_largest _ _ _ Hs Ha), (ceiling_largest _ _ _ He Hb).
      split; assumption.
  - pose proof (fold_max_spec (List.map start_epoch ps) (start_epoch p0)) as Hs.
    pose proof (fold_max_spec (List.map end_epoch ps) (end_epoch p0)) as He.
    pose proof (fold_max_spec (List.map start_epoch qs) (start_epoch q0)) as Hl.
    cbv zeta in Hs, He, Hl.
    set (ms := fold_left _ (List.map start_epoch ps) _) in *.
    set (me := fold_left _ (List.map end_epoch ps) _) in *.
    set (mq := fold_left _ (List.map start_epoch qs) _) in *.
    split; (intros [H | H]; [left | right]).
    + exists ms, me. split; [exact Hs | split; [exact He | exact H]].
    + exists mq. split; [exact Hl | exact H].
    + destruct H as (a & b & Ha & Hb & H1 & H2).
      rewrite (floor_largest _ _ _ Hs Ha), (ceiling_largest _ _ _ He Hb).
      split; assumption.
    + destruct H as (q & Hq' & ->).
      rewrite (floor_largest _ _ _ Hl Hq'). reflexivity.
Qed.

Lemma reset_best_window_witness :
  enabled Samples.enabled0 = true /\
  manager Samples.enabled0 = Some Samples.quant /\
  run Samples.sparse_env (Sparse.reset_best Samples.enabled0 2) tt
    = (Ok (true, Samples.enabled0), tt, []) /\
  run Samples.sparse_env (Sparse.reset_best Samples.enabled0 1) tt
    = (Ok (false, Samples.enabled0), tt, []) /\
  exists b : bool,
    run Samples.sparse_env (Sparse.reset_best Samples.enabled0 (-1)) tt
      = (Ok (b, Samples.enabled0), tt, []).
Proof.
  split; [reflexivity |]. split; [reflexivity |].
  split; [reflexivity |]. split; [reflexivity |].
  destruct (reset_best_window Samples.sparse_env tt Samples.enabled0
              Samples.quant (-1) eq_refl eq_refl) as (b & H & _).
  exists b. exact H.
Defined.

(** ** The hooks of the training loop *)

(** X12: the two override hooks write to [self.logger], which
    [__init__] leaves as [None].  On an enabled wrapper whose logger has
    not been set, [check_lr_override] raises [AttributeError] when the
    recipe has learning-rate modifiers, and [check_epoch_override] raises
    it when the recipe has epoch modifiers and a non-zero [max_epochs];
    nothing is called and nothing is returned.  Without such modifiers
    both return their argument without needing a logger. *)
Theorem hooks_need_logger {S : Type} (h : handler sparseE S) (s : S)
        (w : SparseMLWrapper) (mgr : Manager) (sch : option PyObj) (n : Z) :
  enabled w = true ->
  manager w = Some mgr ->
  logger w = None ->
  (learning_rate_modifiers mgr <> [] ->
   run h (Sparse.check_lr_override w sch) s
     = (Raised ByLibrary AttributeError, s, [])) /\
  (learning_rate_modifiers mgr = [] ->
   run h (Sparse.check_lr_override w sch) s = (Ok (sch, w), s, [])) /\
  (epoch_modifiers mgr <> [] -> max_epochs mgr <> 0%Z ->
   run h (Sparse.check_epoch_override w n) s
     = (Raised ByLibrary AttributeError, s, [])) /\
  (epoch_modifiers mgr = [] \/ max_epochs mgr = 0%Z ->
   run h (Sparse.check_epoch_override w n) s = (Ok (n, w), s, [])).
Proof.
  intros Hen Hm Hl.
  unfold Sparse.check_lr_override, Sparse.check_epoch_override,
    Sparse.the_manager, Sparse.the_logger.
  rewrite Hen, Hm, Hl. cbn.
  split; [| split; [| split]].
  - destruct (learning_rate_modifiers mgr); [congruence | reflexivity].
  - intros ->. reflexivity.
  - intros H1 H2. destruct (epoch_modifiers mgr); [congruence |]. cbn.
    destruct (Z.eqb_spec (max_epochs mgr) 0); [congruence | reflexivity].
  - intros [-> | ->]; [reflexivity |].
    destruct (epoch_modifiers mgr); reflexivity.
Qed.

Lemma hooks_need_logger_witness :
  let mgr := MkManager "lr" [MkModifier 0 10] [MkModifier 0 10] [] [] 10
                       "modifiers" in
  let w := MkSparseMLWrapper true (PlainModule "yolact") (Some "recipe.yaml")
                             (Some mgr) None in
  run Samples.sparse_env (Sparse.check_lr_override w (Some (Obj "sched"))) tt
    = (Raised ByLibrary AttributeError, tt, []) /\
  run Samples.sparse_env (Sparse.check_epoch_override w 300) tt
    = (Raised ByLibrary AttributeError, tt, []).
Proof.
  intros mgr w.
  destruct (hooks_need_logger Samples.sparse_env tt w mgr
              (Some (Obj "sched")) 300 eq_refl eq_refl eq_refl)
    as (H1 & _ & H2 & _).
  split; [apply H1; discriminate | apply H2; discriminate].
Defined.

(** X13: with a logger in place, the hooks override or pass through.
    [check_lr_override] returns [None] after one [logger.info] call when
    the recipe has learning-rate modifiers, and the scheduler otherwise.
    [check_epoch_override] returns exactly [manager.max_epochs], after one
    [logger.info] call naming that number, when the recipe has epoch
    modifiers and [max_epochs] is not zero; otherwise it returns the
    number of epochs it was given and calls nothing. *)
Theorem hooks_override {S : Type} (h : handler sparseE S) (s : S)
        (w : SparseMLWrapper) (mgr : Manager) (lg : PyObj)
        (sch : option PyObj) (n : Z) :
  enabled w = true ->
  manager w = Some mgr ->
  logger w = Some lg ->
  (learning_rate_modifiers mgr <> [] ->
   run h (Sparse.check_lr_override w sch) s
     = single h (LoggerInfo lg
                   "Disabling LR scheduler, managing LR using SparseML recipe")
              (fun _ => (None, w)) s) /\
  (learning_rate_modifiers mgr = [] ->
   run h (Sparse.check_lr_override w sch) s = (Ok (sch, w), s, [])) /\
  (epoch_modifiers mgr <> [] -> max_epochs mgr <> 0%Z ->
   run h (Sparse.check_epoch_override w n) s
     = single h (LoggerInfo lg
                   ("Overriding number of epochs from SparseML manager to "
                      ++ pretty (max_epochs mgr))%string)
              (fun _ => (max_epochs mgr, w)) s) /\
  (epoch_modifiers mgr = [] \/ max_epochs mgr = 0%Z ->
   run h (Sparse.check_epoch_override w n) s = (Ok (n, w), s, [])).
Proof.
  intros Hen Hm Hl.
  unfold Sparse.check_lr_override, Sparse.check_epoch_override,
    Sparse.the_manager, Sparse.the_logger, single.
  rewrite Hen, Hm, Hl. cbn.
  split; [| split; [| split]].
  - destruct (learning_rate_modifiers mgr); [congruence |]. cbn.
    intros _. destruct (h _ _ s) as [[x | o e |] s1]; reflexivity.
  - intros ->. reflexivity.
  - intros H1 H2. destruct (epoch_modifiers mgr); [congruence |]. cbn.
    destruct (Z.eqb_spec (max_epochs mgr) 0); [congruence |]. cbn.
    destruct (h _ _ s) as [[x | o e |] s1]; reflexivity.
  - intros [-> | ->]; [reflexivity |].
    destruct (epoch_modifiers mgr); reflexivity.
Qed.

Lemma hooks_override_witness :
  let mgr := MkManager "lr" [MkModifier 0 10] [MkModifier 0 10] [] [] 10
                       "modifiers" in
  let w := MkSparseMLWrapper true (PlainModule "yolact") (Some "recipe.yaml")
                             (Some mgr) (Some (Obj "log")) in
  run Samples.sparse_env (Sparse.check_epoch_override w 300) tt
    = (Ok (10%Z, w), tt,
       [Entry (LoggerInfo (Obj "log")
                 "Overriding number of epochs from SparseML manager to 10")
              (Ok tt)]).
Proof.
  intros mgr w.
  destruct (hooks_override Samples.sparse_env tt w mgr (Obj "log") None 300
              eq_refl eq_refl eq_refl) as (_ & _ & H & _).
  rewrite H by discriminate. reflexivity.
Defined.

(** X14: [initialize_loggers] on an enabled wrapper.  On a rank other
    than [-1] and [0] it only stores the logger.  On a main rank it hands
    the manager one group logger built from the tensorboard writer; then,
    with no wandb logger at all ([None]), it fails with [AttributeError]
    although the logging closure itself accepts [None]; with a wandb
    logger whose [wandb] is unset it is done; with [wandb] set it stores
    the recipe as the artifact file [recipe.yaml], whose content is the
    text [state_dict] reports under ['recipe']. *)
Theorem loggers_on_main_rank {S : Type} (h : handler sparseE S) (s : S)
        (w : SparseMLWrapper) (mgr : Manager) (lg : option PyObj)
        (tb : PyObj) (rank : Z) :
  enabled w = true ->
  manager w = Some mgr ->
  (rank <> (-1)%Z -> rank <> 0%Z ->
   forall wl, run h (Sparse.initialize_loggers w lg tb wl rank) s
              = (Ok (tt, with_logger w lg), s, [])) /\
  (rank = (-1)%Z \/ rank = 0%Z ->
   (let '(r, s1, tr) := run h (Sparse.initialize_loggers w lg tb None rank) s in
    is_ok r = false /\
    exists a, tr = [Entry (ManagerInitializeLoggers mgr [MkGroupLogger None tb])
                          a] /\
              (is_ok a = true -> r = Raised ByLibrary AttributeError)) /\
   run h (Sparse.initialize_loggers w lg tb (Some (MkWandbLogger None)) rank) s
     = single h (ManagerInitializeLoggers mgr
                   [MkGroupLogger (Some (MkWandbLogger None)) tb])
              (fun _ => (tt, with_logger w lg)) s /\
   forall wb s' tr x,
     run h (Sparse.initialize_loggers w lg tb
              (Some (MkWandbLogger (Some wb))) rank) s = (Ok x, s', tr) ->
     exists (artifact : PyObj) (text : string),
       tr = [Entry (ManagerInitializeLoggers mgr
                      [MkGroupLogger (Some (MkWandbLogger (Some wb))) tb])
                   (Ok tt);
             Entry (WandbArtifact wb "recipe" "recipe") (Ok artifact);
             Entry (ArtifactWriteFile artifact "recipe.yaml" text) (Ok tt);
             Entry (WandbLogArtifact wb artifact) (Ok tt)] /\
       run h (Sparse.state_dict w) s = (Ok ([("recipe", Some text)], w), s, [])).
Proof.
  intros Hen Hm. split.
  - intros H1 H2 wl. unfold Sparse.initialize_loggers, Sparse.rank_is_main.
    cbn [enabled with_logger].
    destruct (Z.eqb_spec rank (-1)); [congruence |].
    destruct (Z.eqb_spec rank 0); [congruence |].
    rewrite Hen. reflexivity.
  - intros Hr.
    assert (Sparse.rank_is_main rank = true) as Hmain.
    { unfold Sparse.rank_is_main. destruct Hr as [-> | ->]; reflexivity. }
    unfold Sparse.initialize_loggers, Sparse.the_manager, single.
    cbn [enabled manager with_logger]. rewrite Hen, Hm, Hmain. cbn [andb].
    split; [| split].
    + cbn. destruct (h _ _ s) as [[x | o e |] s1]; cbn;
        (split; [reflexivity |]); eexists; (split; [reflexivity |]);
        intros; try discriminate; reflexivity.
    + cbn. destruct (h _ _ s) as [[x | o e |] s1]; reflexivity.
    + intros wb s' tr x H. cbn [wandb] in H.
      answer h H. answer h H. answer h H.
      rewrite run_bind, run_call in H. unfold single in H.
      destruct (h _ (WandbLogArtifact _ _) _) as [[y | ? ? |] s4];
        cbn [outcome_map obind app run] in H; try discriminate H.
      inversion H; subst.
      repeat match goal with v : unit |- _ => destruct v end.
      eexists _, _. split; [reflexivity |].
      unfold Sparse.state_dict, Sparse.the_manager. rewrite Hen, Hm.
      reflexivity.
Qed.

Lemma loggers_on_main_rank_witness :
  run Samples.sparse_env
      (Sparse.initialize_loggers Samples.enabled0 (Some (Obj "log"))
         (Obj "tb") None 0%Z) tt
    = (Raised ByLibrary AttributeError, tt,
       [Entry (ManagerInitializeLoggers Samples.quant
                 [MkGroupLogger None (Obj "tb")]) (Ok tt)]) /\
  run Samples.sparse_env
      (Sparse.initialize_loggers Samples.enabled0 (Some (Obj "log"))
         (Obj "tb") None 3%Z) tt
    = (Ok (tt, with_logger Samples.enabled0 (Some (Obj "log"))), tt, []).
Proof.
  split; [reflexivity |].
  destruct (loggers_on_main_rank Samples.sparse_env tt Samples.enabled0
              Samples.quant (Some (Obj "log")) (Obj "tb") 3%Z
              eq_refl eq_refl) as (H & _).
  apply H; discriminate.
Defined.

(** ** Runs of [export] that fail *)

Ltac next_answer h :=
  match goal with
  | |- context [h ?X ?ev ?s] =>
      destruct (h X ev s) as [[? | ? ? |] ?]; cbn [run bind]
  end.

Ltac ended :=
  split;
  [ cbn [omap ExportRun.step_of mbind option_bind]; eexists; reflexivity
  | split;
    [ cbn [removelast]; repeat constructor
    | split;
      [ intros ? ? Hr; try discriminate Hr; inversion Hr; subst;
        first [ eexists _, _, []; reflexivity
              | eexists _, _, [_]; reflexivity
              | eexists _, _, [_; _]; reflexivity
              | eexists _, _, [_; _; _]; reflexivity
              | eexists _, _, [_; _; _; _]; reflexivity
              | eexists _, _, [_; _; _; _; _]; reflexivity
              | eexists _, _, [_; _; _; _; _; _]; reflexivity
              | eexists _, _, [_; _; _; _; _; _; _]; reflexivity
              | eexists _, _, [_; _; _; _; _; _; _; _]; reflexivity
              | eexists _, _, [_; _; _; _; _; _; _; _; _]; reflexivity ]
      | intros en Hin Hen; cbn [In] in Hin;
        repeat (destruct Hin as [<- | Hin];
                [try (cbn [ExportRun.step_of] in Hen; discriminate Hen) |]);
        try contradiction;
        (split;
         [ first [ solve [ eexists; split;
                           [ cbn [In]; do 4 right; left; reflexivity
                           | split; reflexivity ] ]
                 | solve [ eexists; split;
                           [ cbn [In]; do 6 right; left; reflexivity
                           | split; reflexivity ] ] ]
         | intros ? Hf; try discriminate Hf;
           eexists; (split;
                     [ cbn [In]; do 3 right; left; reflexivity
                     | split; reflexivity ]) ]) ] ] ].

(** X15: [export] handles no error and skips no step.  In every run,
    finished or not: the three operations it has made so far are an
    initial part of "apply the recipe (if one is given), load the weights,
    export"; every call but the last was answered; when the run ends with
    an exception, that exception is the one the last call raised; and the
    model is exported only after [load_state_dict] returned and, with a
    recipe, after [manager.apply] returned. *)
Theorem export_stops_at_failure {S : Type} (h : handler exportE S)
        (args : ExportArgs) (s : S) :
  let '(r, _, tr) := run h (ExportRun.export args) s in
  omap ExportRun.step_of tr
    `prefix_of` (match recipe args with
                 | Some _ => [ApplyRecipe]
                 | None => []
                 end ++ [LoadWeights; ExportModel])%list /\
  Forall (fun en => answered en = true) (removelast tr) /\
  (forall o e, r = Raised o e ->
     exists (X : Type) (ev : exportE X) (before : list (entry exportE)),
       tr = (before ++ [Entry ev (Raised o e)])%list) /\
  (forall en, In en tr -> ExportRun.step_of en = Some ExportModel ->
     (exists en1, In en1 tr /\ ExportRun.step_of en1 = Some LoadWeights /\
                  answered en1 = true) /\
     (forall file, recipe args = Some file ->
        exists en2, In en2 tr /\ ExportRun.step_of en2 = Some ApplyRecipe /\
                    answered en2 = true)).
Proof.
  unfold ExportRun.export, mbind, prog_bind, call.
  destruct (recipe args) as [file |]; cbn [run bind].
  - next_answer h; [| ended | ended].
    next_answer h; [| ended | ended].
    next_answer h; [| ended | ended].
    next_answer h; [| ended | ended].
    next_answer h; [| ended | ended].
    next_answer h; [| ended | ended].
    next_answer h; [| ended | ended].
    next_answer h; [| ended | ended].
    next_answer h; [| ended | ended].
    next_answer h; ended.
  - next_answer h; [| ended | ended].
    next_answer h; [| ended | ended].
    next_answer h; [| ended | ended].
    next_answer h; [| ended | ended].
    next_answer h; [| ended | ended].
    next_answer h; [| ended | ended].
    next_answer h; [| ended | ended].
    next_answer h; ended.
Qed.

Lemma export_stops_at_failure_witness :
  run Samples.unreadable_env (ExportRun.export Samples.args0) tt
    = (Raised ByLibrary ValueError, tt,
       [Entry (SetCfg "yolact_base_config") (Ok tt);
        Entry NewYolact (Ok (PlainModule "yolact"));
        Entry (ManagerFromYaml "recipe.yaml") (Ok Samples.quant);
        Entry (ManagerApplyTo Samples.quant (PlainModule "yolact")) (Ok tt);
        Entry (LoggingDebug
                 "Loading state dict from checkpoint ckpt/model.pth") (Ok tt);
        Entry (TorchLoad (MkPath "" ["ckpt"; "model.pth"]))
              (Raised ByLibrary ValueError)]) /\
  omap ExportRun.step_of
       (run Samples.unreadable_env (ExportRun.export Samples.args0) tt).2
    `prefix_of` [ApplyRecipe; LoadWeights; ExportModel].
Proof.
  split; [reflexivity |].
  pose proof (export_stops_at_failure Samples.unreadable_env Samples.args0 tt)
    as H.
  destruct (run Samples.unreadable_env (ExportRun.export Samples.args0) tt)
    as [[r s'] tr].
  exact (proj1 H).
Defined.
